(** * Ubbink Ubiflux Vigor: Modbus client, decoder and poll coordinator

    A shallow embedding of [custom_components/ubbink_vigor]:
    - [const.py]: register numbers and the code/label tables;
    - [modbus_client.py]: [UbbinkModbusClient], its three register
      primitives, [read_all_data] and the write commands;
    - [coordinator.py]: [UbbinkVigorCoordinator] and its backoff.

    Python integers are [Z], Python floats are binary64 primitive floats,
    [str] is [string], the snapshot [dict[str, Any]] is a [gmap string value],
    and the constant tables of [const.py] are insertion-ordered association
    lists.  Coroutines are functions in a state-and-exception monad; what the
    pymodbus transport answers is a parameter of the development. *)

From Stdlib Require Import ZArith Floats.
From stdpp Require Import gmap strings pretty list.

Open Scope Z_scope.

(** ** Python values and exceptions *)

Module Py.

(** The exception classes that matter to the client.  A constructor
    stands for the class together with its subclasses. *)
Inductive exn :=
| ModbusException
| TimeoutError
| ConnectionError
| AttributeError
| IndexError
| KeyError
| UpdateFailed (msg : string)
| OtherException.

(** Outcome of evaluating an expression: a value or a raised exception. *)
Inductive result (A : Type) :=
| Ret (a : A)
| Raise (e : exn).
Arguments Ret {A} a.
Arguments Raise {A} e.

Definition result_bind {A B} (f : A → result B) (r : result A) : result B :=
  match r with
  | Ret a => f a
  | Raise e => Raise e
  end.

#[global] Instance result_mret : MRet result := @Ret.
#[global] Instance result_mbind : MBind result := @result_bind.

(** The values stored in the snapshot dictionary. *)
Inductive value :=
| VInt (z : Z)
| VFloat (f : float)
| VStr (s : string)
| VNone.

(** [regs[i]] for a literal, non-negative index. *)
Definition getitem (regs : list Z) (i : nat) : result Z :=
  match regs !! i with
  | Some r => Ret r
  | None => Raise IndexError
  end.

(** [float(z)] for an integer that fits 63 bits. *)
Definition float_of_int (z : Z) : float :=
  if z <? 0 then PrimFloat.opp (PrimFloat.of_uint63 (Uint63.of_Z (- z)))
  else PrimFloat.of_uint63 (Uint63.of_Z z).

(** [z / 10.0]: true division of an int by the float literal [10.0]. *)
Definition div10 (z : Z) : float :=
  PrimFloat.div (float_of_int z) (float_of_int 10).

(** Round half to even of the rational [num / den], [den > 0]. *)
Definition round_half_even (num den : Z) : Z :=
  let q := num / den in
  let r := num mod den in
  match (2 * r) ?= den with
  | Lt => q
  | Gt => q + 1
  | Eq => if Z.even q then q else q + 1
  end.

(** [round(x, 1)].  CPython rounds the exact binary value of [x] to the
    nearest decimal with one fractional digit (ties to even) and converts
    that decimal back to the nearest double.  A double whose unit in the last
    place is at least 1/8 is its own result; below that the decimal is
    [n / 10] with [n < 2^53], and the correctly rounded division yields the
    nearest double. *)
Definition round1 (x : float) : float :=
  match Prim2SF x with
  | SpecFloat.S754_finite s m e =>
      if -3 <=? e then x
      else
        let n := round_half_even (10 * Z.pos m) (2 ^ (- e)) in
        let y := div10 n in
        if s then PrimFloat.opp y else y
  | _ => x
  end.

(** [d.get(key, default)] and [key in d] on an insertion-ordered dict. *)
Fixpoint dict_get {K V} `{EqDecision K} (d : list (K * V)) (key : K) (default : V) : V :=
  match d with
  | [] => default
  | (k, v) :: d' => if decide (k = key) then v else dict_get d' key default
  end.

Fixpoint dict_contains {K V} `{EqDecision K} (d : list (K * V)) (key : K) : bool :=
  match d with
  | [] => false
  | (k, _) :: d' => if decide (k = key) then true else dict_contains d' key
  end.

(** [d[key]] *)
Fixpoint dict_item {K V} `{EqDecision K} (d : list (K * V)) (key : K) : result V :=
  match d with
  | [] => Raise KeyError
  | (k, v) :: d' => if decide (k = key) then Ret v else dict_item d' key
  end.

(** [d[key] = v]: replace in place, or append a new entry. *)
Fixpoint dict_set {K V} `{EqDecision K} (d : list (K * V)) (key : K) (v : V) : list (K * V) :=
  match d with
  | [] => [(key, v)]
  | (k, w) :: d' => if decide (k = key) then (k, v) :: d' else (k, w) :: dict_set d' key v
  end.

(** [{v: k for k, v in d.items()}] *)
Definition dict_reverse {K V} `{EqDecision V} (d : list (K * V)) : list (V * K) :=
  fold_left (λ acc kv, dict_set acc kv.2 kv.1) d [].

(** The f-string [f"Unknown ({code})"]. *)
Definition unknown (code : Z) : string :=
  "Unknown (" +:+ pretty code +:+ ")".

End Py.
Import Py.

(** ** const.py *)

Definition DEFAULT_SCAN_INTERVAL : Z := 30.

Definition CONN_SERIAL : string := "serial".
Definition CONN_TCP : string := "tcp".
Definition BRIDGE_SER2NET : string := "ser2net".
Definition BRIDGE_MBUSD : string := "mbusd".

Definition REG_SERIAL_0 : Z := 4010.
Definition REG_ACTIVE_FUNCTION : Z := 4020.
Definition REG_FAN_INLET_STATUS : Z := 4030.
Definition REG_FAN_EXHAUST_STATUS : Z := 4040.
Definition REG_BYPASS_STATUS : Z := 4050.
Definition REG_PREHEATER_STATUS : Z := 4060.
Definition REG_FROST_STATUS : Z := 4070.
Definition REG_OUTSIDE_TEMP : Z := 4081.
Definition REG_FILTER_STATUS : Z := 4100.
Definition REG_OPERATING_HOURS_HI : Z := 4113.
Definition REG_CO2_SENSOR1_VALUE : Z := 4201.
Definition REG_SYSTEM_ERROR_STATUS : Z := 4800.

Definition REG_FLOW_PRESET_0 : Z := 6000.
Definition REG_BYPASS_MODE : Z := 6100.
Definition REG_BYPASS_TEMP_DWELLING : Z := 6101.
Definition REG_BYPASS_TEMP_OUTSIDE : Z := 6102.
Definition REG_FILTER_WARNING_DAYS : Z := 6120.

Definition REG_MODBUS_CONTROL : Z := 8000.
Definition REG_SWITCH_POSITION : Z := 8001.
Definition REG_DESIRED_FLOW_RATE : Z := 8002.
Definition REG_STANDBY : Z := 8003.
Definition REG_FILTER_RESET : Z := 8010.
Definition REG_APPLIANCE_RESET : Z := 8011.

Definition ACTIVE_FUNCTION_MAP : list (Z * string) :=
  [ (0, "Standby"); (1, "Bootloader"); (4, "Manual"); (5, "Holiday");
    (6, "Night Ventilation"); (7, "Party"); (8, "Bypass Boost");
    (9, "Normal Boost"); (10, "Auto CO2"); (11, "Auto eBus");
    (12, "Auto Modbus"); (13, "Auto LAN/WLAN Portal");
    (14, "Auto LAN/WLAN Local") ].

Definition VENTILATION_MODE_MAP : list (Z * string) :=
  [ (0, "Holiday"); (1, "Low"); (2, "Normal"); (3, "High"); (4, "Auto") ].

Definition BYPASS_STATUS_MAP : list (Z * string) :=
  [ (0, "Initializing"); (1, "Opening"); (2, "Closing"); (3, "Open");
    (4, "Closed") ].

Definition BYPASS_MODE_MAP : list (Z * string) :=
  [ (0, "Automatic"); (1, "Closed"); (2, "Open") ].

Definition BYPASS_MODE_REVERSE : list (string * Z) :=
  dict_reverse BYPASS_MODE_MAP.

Definition FILTER_STATUS_MAP : list (Z * string) :=
  [ (0, "Clean"); (1, "Dirty") ].

Definition SYSTEM_ERROR_MAP : list (Z * string) :=
  [ (0, "No Error"); (1, "Warning"); (2, "Non-blocking Error");
    (3, "Blocking Error") ].

Definition FAN_STATUS_MAP : list (Z * string) :=
  [ (2, "No Communication"); (3, "Idle"); (4, "Running"); (5, "Blocked");
    (6, "Fan Error") ].

Definition PREHEATER_STATUS_MAP : list (Z * string) :=
  [ (0, "Initializing"); (1, "Inactive"); (2, "Active"); (3, "Test Mode") ].

Definition AIRFLOW_MODE_TO_SWITCH : list (string * Z) :=
  [ ("holiday", 0); ("low", 1); ("normal", 2); ("high", 3) ].

Definition SWITCH_TO_AIRFLOW_MODE : list (Z * string) :=
  dict_reverse AIRFLOW_MODE_TO_SWITCH.

(** ** State-and-exception monad for coroutines *)

(** A coroutine run to completion: it transforms the state and either
    returns or raises.  The state reached is kept when it raises. *)
Definition M (S A : Type) : Type := S → result A * S.

Definition M_ret {S A} (a : A) : M S A := λ s, (Ret a, s).

Definition M_bind {S A B} (f : A → M S B) (m : M S A) : M S B :=
  λ s, match m s with
       | (Ret a, s') => f a s'
       | (Raise e, s') => (Raise e, s')
       end.

#[global] Instance M_mret {S} : MRet (M S) := @M_ret S.
#[global] Instance M_mbind {S} : MBind (M S) := @M_bind S.

Definition lift {S A} (r : result A) : M S A := λ s, (r, s).

Definition raise {S A} (e : exn) : M S A := λ s, (Raise e, s).

(** [try: body except <classes>: handler] *)
Definition try_except {S A} (body : M S A) (classes : exn → bool)
    (handler : exn → M S A) : M S A :=
  λ s, match body s with
       | (Raise e, s') => if classes e then handler e s' else (Raise e, s')
       | done => done
       end.

(** ** modbus_client.py *)

(** [MIN_REQUEST_DELAY = 0.15] seconds, kept in milliseconds. *)
Definition MIN_REQUEST_DELAY : Z := 150.

Inductive request :=
| ReadInput (address count : Z)
| ReadHolding (address count : Z)
| WriteRegister (address value : Z).

(** A pymodbus response object: [isError()] and [registers]. *)
Inductive response :=
| Registers (registers : list Z)
| ExceptionResponse.

Definition isError (r : response) : bool :=
  match r with
  | Registers _ => false
  | ExceptionResponse => true
  end.

Definition registers (r : response) : list Z :=
  match r with
  | Registers l => l
  | ExceptionResponse => []
  end.

Inductive framer := RTU | SOCKET.

(** The pymodbus client object built by [connect]. *)
Inductive handle :=
| AsyncModbusSerialClient (port : option string) (baudrate : Z)
    (bytesize : Z) (parity : string) (stopbits : Z) (fr : framer)
    (timeout retries : Z)
| AsyncModbusTcpClient (host : option string) (port : Z) (fr : framer)
    (timeout retries : Z).

(** What the client does that is visible from outside, in order. *)
Inductive event :=
| LockAcquire
| LockRelease
| Sleep (ms : Z)
| Wire (r : request)
| Dial
| Hangup.

Record config := {
  _connection_type : string;
  _slave_id : Z;
  _serial_port : option string;
  _baudrate : Z;
  _parity : string;
  _host : option string;
  _port : Z;
  _bridge_type : string
}.

(** [UbbinkModbusClient]: its attributes, the [connected] flag of the
    pymodbus handle, how many requests and connect attempts the transport
    has been given, and the events so far. *)
Record modbus_client := {
  cfg : config;
  _client : option handle;
  link_up : bool;
  sent : nat;
  dialled : nat;
  trace : list event
}.

Definition __init__ (c : config) : modbus_client :=
  {| cfg := c; _client := None; link_up := false; sent := 0; dialled := 0;
     trace := [] |}.

Definition emit (e : event) : M modbus_client () :=
  λ c, (Ret (),
        {| cfg := cfg c; _client := _client c; link_up := link_up c;
           sent := sent c; dialled := dialled c; trace := trace c ++ [e] |}).

Definition get_cfg : M modbus_client config := λ c, (Ret (cfg c), c).

Definition set_client (h : handle) : M modbus_client () :=
  λ c, (Ret (),
        {| cfg := cfg c; _client := Some h; link_up := false;
           sent := sent c; dialled := dialled c; trace := trace c |}).

Definition set_link (b : bool) (c : modbus_client) : modbus_client :=
  {| cfg := cfg c; _client := _client c; link_up := b;
     sent := sent c; dialled := dialled c; trace := trace c |}.

Definition next_sent (c : modbus_client) : modbus_client :=
  {| cfg := cfg c; _client := _client c; link_up := link_up c;
     sent := S (sent c); dialled := dialled c; trace := trace c |}.

Definition next_dialled (c : modbus_client) : modbus_client :=
  {| cfg := cfg c; _client := _client c; link_up := link_up c;
     sent := sent c; dialled := S (dialled c); trace := trace c |}.

(** [async with self._lock:] the gate is released on return and on raise. *)
Definition with_lock {A} (body : M modbus_client A) : M modbus_client A :=
  λ c, match (emit LockAcquire ;; body) c with
       | (r, c') => (r, (emit LockRelease c').2)
       end.

(** [await asyncio.sleep(delay)] *)
Definition sleep (ms : Z) : M modbus_client () := emit (Sleep ms).

(** [except (ModbusException, asyncio.TimeoutError, ConnectionError)] *)
Definition caught (e : exn) : bool :=
  match e with
  | ModbusException | TimeoutError | ConnectionError => true
  | _ => false
  end.

Section Client.

(** The transport: [wire n] is the outcome of the [n]-th register request
    handed to pymodbus (a response object, or an exception after its own
    retries), [link n] the outcome of the [n]-th [connect()] of a handle. *)
Variable wire : nat → result response.
Variable link : nat → result bool.

(** [await self._client.<method>(...)]: attribute access on [None] raises
    [AttributeError] before anything reaches the wire. *)
Definition call (req : request) : M modbus_client response :=
  λ c, match _client c with
       | None => (Raise AttributeError, c)
       | Some _ => (wire (sent c), next_sent (emit (Wire req) c).2)
       end.

(** [await self._client.connect()] on the handle just built. *)
Definition dial : M modbus_client bool :=
  λ c, match link (dialled c) with
       | Ret b => (Ret b, next_dialled (set_link b (emit Dial c).2))
       | Raise e => (Raise e, next_dialled (emit Dial c).2)
       end.

Definition connect : M modbus_client bool :=
  try_except
    (self ← get_cfg;
     (if decide (_connection_type self = CONN_SERIAL) then
        let stopbits := if decide (_parity self ≠ "N") then 1 else 2 in
        set_client (AsyncModbusSerialClient (_serial_port self) (_baudrate self) 8
                      (_parity self) stopbits RTU 3 2)
      else
        let framer := if decide (_bridge_type self = BRIDGE_MBUSD) then SOCKET else RTU in
        set_client (AsyncModbusTcpClient (_host self) (_port self) framer 5 2)) ;;
     connected ← dial;
     mret connected)
    (λ _, true)
    (λ _, mret false).

Definition close : M modbus_client () :=
  λ c, match _client c with
       | Some _ => emit Hangup (set_link false c)
       | None => (Ret (), c)
       end.

Definition connected : M modbus_client bool :=
  λ c, (Ret (match _client c with Some _ => link_up c | None => false end), c).

(** *** Low-level helpers *)

Definition _read_input_registers (address count : Z) : M modbus_client (option (list Z)) :=
  with_lock
    (sleep MIN_REQUEST_DELAY ;;
     try_except
       (result ← call (ReadInput address count);
        if isError result then mret None
        else mret (Some (registers result)))
       caught
       (λ _, mret None)).

Definition _read_holding_registers (address count : Z) : M modbus_client (option (list Z)) :=
  with_lock
    (sleep MIN_REQUEST_DELAY ;;
     try_except
       (result ← call (ReadHolding address count);
        if isError result then mret None
        else mret (Some (registers result)))
       caught
       (λ _, mret None)).

Definition _write_register (address value : Z) : M modbus_client bool :=
  with_lock
    (sleep MIN_REQUEST_DELAY ;;
     try_except
       (result ← call (WriteRegister address value);
        if isError result then mret false
        else mret true)
       caught
       (λ _, mret false)).

End Client.

(** *** Signed value helper *)

Definition _to_signed (value : Z) : Z :=
  if value >=? 0x8000 then value - 0x10000 else value.

(** *** Read all data at once *)

Abbreviation dict := (gmap string value).

(** [FOO_MAP.get(code, f"Unknown ({code})")] *)
Definition label (table : list (Z * string)) (code : Z) : value :=
  VStr (dict_get table code (unknown code)).

(** [round(self._to_signed(raw) / 10.0, 1)] *)
Definition tenths (raw : Z) : value :=
  VFloat (round1 (div10 (_to_signed raw))).

(** [round(raw / 10.0, 1) if raw <= 1000 else None] *)
Definition humidity (raw : Z) : value :=
  if raw <=? 1000 then VFloat (round1 (div10 raw)) else VNone.

(** Batch 1: registers 4020-4024 (active function, vent mode, pressures) *)
Definition batch_active_function (regs : list Z) (data : dict) : result dict :=
  r ← getitem regs 0; let data := <["active_function" := label ACTIVE_FUNCTION_MAP r]> data in
  r ← getitem regs 0; let data := <["active_function_raw" := VInt r]> data in
  r ← getitem regs 1; let data := <["fan_control_type" := VInt r]> data in
  r ← getitem regs 2; let data := <["ventilation_mode" := label VENTILATION_MODE_MAP r]> data in
  r ← getitem regs 2; let data := <["ventilation_mode_raw" := VInt r]> data in
  r ← getitem regs 3; let data := <["supply_pressure" := tenths r]> data in
  r ← getitem regs 4; let data := <["exhaust_pressure" := tenths r]> data in
  mret data.

(** Batch 2: registers 4030-4037 (supply fan block) *)
Definition batch_supply_fan (regs : list Z) (data : dict) : result dict :=
  r ← getitem regs 0; let data := <["fan_inlet_status" := label FAN_STATUS_MAP r]> data in
  r ← getitem regs 1; let data := <["supply_airflow_setpoint" := VInt r]> data in
  r ← getitem regs 2; let data := <["supply_airflow_actual" := VInt r]> data in
  r ← getitem regs 3; let data := <["supply_massflow" := VInt r]> data in
  r ← getitem regs 4; let data := <["supply_fan_speed" := VInt r]> data in
  r ← getitem regs 6; let data := <["supply_fan_temperature" := tenths r]> data in
  r ← getitem regs 7; let data := <["supply_fan_humidity" := humidity r]> data in
  mret data.

(** Batch 3: registers 4040-4047 (exhaust fan block) *)
Definition batch_exhaust_fan (regs : list Z) (data : dict) : result dict :=
  r ← getitem regs 0; let data := <["fan_exhaust_status" := label FAN_STATUS_MAP r]> data in
  r ← getitem regs 2; let data := <["exhaust_airflow_actual" := VInt r]> data in
  r ← getitem regs 4; let data := <["exhaust_fan_speed" := VInt r]> data in
  r ← getitem regs 6; let data := <["exhaust_fan_temperature" := tenths r]> data in
  r ← getitem regs 7; let data := <["exhaust_fan_humidity" := humidity r]> data in
  mret data.

(** Batch 4: bypass status (4050-4051) *)
Definition batch_bypass_status (regs : list Z) (data : dict) : result dict :=
  r ← getitem regs 0; let data := <["bypass_status" := label BYPASS_STATUS_MAP r]> data in
  r ← getitem regs 0; let data := <["bypass_status_raw" := VInt r]> data in
  r ← getitem regs 1; let data := <["bypass_step_position" := VInt r]> data in
  mret data.

(** Batch 5: preheater (4060-4061) *)
Definition batch_preheater (regs : list Z) (data : dict) : result dict :=
  r ← getitem regs 0; let data := <["preheater_status" := label PREHEATER_STATUS_MAP r]> data in
  r ← getitem regs 1; let data := <["preheater_capacity" := VInt r]> data in
  mret data.

(** Batch 6: frost (4070-4072) *)
Definition batch_frost (regs : list Z) (data : dict) : result dict :=
  r ← getitem regs 0; let data := <["frost_status_raw" := VInt r]> data in
  r ← getitem regs 1; let data := <["frost_heater_power" := VInt r]> data in
  r ← getitem regs 2; let data := <["frost_fan_reduction" := VInt r]> data in
  mret data.

(** Batch 7: temperatures and humidity (4080-4083) *)
Definition batch_temperatures (regs : list Z) (data : dict) : result dict :=
  r ← getitem regs 0; let data := <["flow_switch_position" := VInt r]> data in
  r ← getitem regs 1; let data := <["outside_temperature" := tenths r]> data in
  r ← getitem regs 2; let val := _to_signed r in
  let data :=
    if decide (val ≠ 9999) then <["dwelling_temperature" := VFloat (round1 (div10 val))]> data
    else <["dwelling_temperature" := VNone]> data in
  r ← getitem regs 3; let data := <["rht_humidity" := humidity r]> data in
  mret data.

(** Filter status (4100) *)
Definition batch_filter_status (regs : list Z) (data : dict) : result dict :=
  r ← getitem regs 0; let data := <["filter_status" := label FILTER_STATUS_MAP r]> data in
  mret data.

(** Operating hours (4113-4115), two 16-bit words = 32-bit for hours *)
Definition batch_operating_hours (regs : list Z) (data : dict) : result dict :=
  hi ← getitem regs 0; lo ← getitem regs 1;
  let data := <["operating_hours" := VInt (Z.lor (Z.shiftl hi 16) lo)]> data in
  r ← getitem regs 2; let data := <["filter_hours" := VInt r]> data in
  mret data.

(** CO2 sensors (4200-4203) *)
Definition batch_co2 (regs : list Z) (data : dict) : result dict :=
  status ← getitem regs 0;
  data ← (if decide (status = 4) then
            r ← getitem regs 1; mret (<["co2_sensor1" := VInt r]> data)
          else mret (<["co2_sensor1" := VNone]> data));
  status ← getitem regs 2;
  data ← (if decide (status = 4) then
            r ← getitem regs 3; mret (<["co2_sensor2" := VInt r]> data)
          else mret (<["co2_sensor2" := VNone]> data));
  mret data.

(** Error status (4800-4801) *)
Definition batch_error_status (regs : list Z) (data : dict) : result dict :=
  r ← getitem regs 0; let data := <["system_error" := label SYSTEM_ERROR_MAP r]> data in
  r ← getitem regs 0; let data := <["system_error_raw" := VInt r]> data in
  r ← getitem regs 1;
  let data := <["active_incident" := if decide (r ≠ 0) then VInt r else VNone]> data in
  mret data.

(** One word of the serial number: its four nibbles, each formatted as a
    decimal integer by the f-string. *)
Definition serial_word (reg : Z) : string :=
  pretty (Z.land (Z.shiftr reg 12) 0xF) +:+ pretty (Z.land (Z.shiftr reg 8) 0xF)
  +:+ pretty (Z.land (Z.shiftr reg 4) 0xF) +:+ pretty (Z.land reg 0xF).

(** Serial number (4010-4012): [for reg in regs: serial += f"..."] *)
Definition batch_serial_number (regs : list Z) (data : dict) : result dict :=
  let serial := fold_left (λ serial reg, serial +:+ serial_word reg) regs EmptyString in
  let data := <["serial_number" := VStr serial]> data in
  mret data.

(** Flow presets (6000-6003) *)
Definition batch_flow_presets (regs : list Z) (data : dict) : result dict :=
  r ← getitem regs 0; let data := <["flow_preset_holiday" := VInt r]> data in
  r ← getitem regs 1; let data := <["flow_preset_low" := VInt r]> data in
  r ← getitem regs 2; let data := <["flow_preset_normal" := VInt r]> data in
  r ← getitem regs 3; let data := <["flow_preset_high" := VInt r]> data in
  mret data.

(** Bypass mode (6100-6102) *)
Definition batch_bypass_mode (regs : list Z) (data : dict) : result dict :=
  r ← getitem regs 0; let data := <["bypass_mode" := label BYPASS_MODE_MAP r]> data in
  r ← getitem regs 0; let data := <["bypass_mode_raw" := VInt r]> data in
  r ← getitem regs 1; let data := <["bypass_temp_dwelling" := tenths r]> data in
  r ← getitem regs 2; let data := <["bypass_temp_outside" := tenths r]> data in
  mret data.

(** Filter warning days (6120) *)
Definition batch_filter_warning_days (regs : list Z) (data : dict) : result dict :=
  r ← getitem regs 0; let data := <["filter_warning_days" := VInt r]> data in
  mret data.

(** Remote control status (8000-8003) and the derived airflow mode *)
Definition batch_remote_control (regs : list Z) (data : dict) : result dict :=
  r ← getitem regs 0; let data := <["modbus_control" := VInt r]> data in
  r ← getitem regs 1; let data := <["switch_position" := VInt r]> data in
  r ← getitem regs 2; let data := <["desired_flow_rate" := VInt r]> data in
  r ← getitem regs 3; let data := <["standby_status" := VInt r]> data in
  control ← getitem regs 0;
  if decide (control = 0) then
    mret (<["airflow_mode" := VStr "wall_unit"]> data)
  else if decide (control = 1) then
    r ← getitem regs 1;
    mret (<["airflow_mode" := VStr (dict_get SWITCH_TO_AIRFLOW_MODE r "unknown")]> data)
  else if decide (control = 2) then
    mret (<["airflow_mode" := VStr "custom"]> data)
  else
    mret (<["airflow_mode" := VStr "unknown"]> data).

(** [if regs: <body>] for an optional batch. *)
Definition when_regs (regs : option (list Z))
    (body : list Z → dict → result dict) (data : dict) : M modbus_client dict :=
  match regs with
  | Some (r :: rs) => lift (body (r :: rs) data)
  | _ => mret data
  end.

Section Commands.

Variable wire : nat → result response.

Definition read_all_data : M modbus_client (option dict) :=
  let data : dict := ∅ in
  regs ← _read_input_registers wire REG_ACTIVE_FUNCTION 5;
  match regs with
  | None => mret None
  | Some regs =>
    data ← lift (batch_active_function regs data);
    regs ← _read_input_registers wire REG_FAN_INLET_STATUS 8;
    data ← when_regs regs batch_supply_fan data;
    regs ← _read_input_registers wire REG_FAN_EXHAUST_STATUS 8;
    data ← when_regs regs batch_exhaust_fan data;
    regs ← _read_input_registers wire REG_BYPASS_STATUS 2;
    data ← when_regs regs batch_bypass_status data;
    regs ← _read_input_registers wire REG_PREHEATER_STATUS 2;
    data ← when_regs regs batch_preheater data;
    regs ← _read_input_registers wire REG_FROST_STATUS 3;
    data ← when_regs regs batch_frost data;
    regs ← _read_input_registers wire (REG_OUTSIDE_TEMP - 1) 4;
    data ← when_regs regs batch_temperatures data;
    regs ← _read_input_registers wire REG_FILTER_STATUS 1;
    data ← when_regs regs batch_filter_status data;
    regs ← _read_input_registers wire REG_OPERATING_HOURS_HI 3;
    data ← when_regs regs batch_operating_hours data;
    regs ← _read_input_registers wire (REG_CO2_SENSOR1_VALUE - 1) 4;
    data ← when_regs regs batch_co2 data;
    regs ← _read_input_registers wire REG_SYSTEM_ERROR_STATUS 2;
    data ← when_regs regs batch_error_status data;
    regs ← _read_input_registers wire REG_SERIAL_0 3;
    data ← when_regs regs batch_serial_number data;
    regs ← _read_holding_registers wire REG_FLOW_PRESET_0 4;
    data ← when_regs regs batch_flow_presets data;
    regs ← _read_holding_registers wire REG_BYPASS_MODE 3;
    data ← when_regs regs batch_bypass_mode data;
    regs ← _read_holding_registers wire REG_FILTER_WARNING_DAYS 1;
    data ← when_regs regs batch_filter_warning_days data;
    regs ← _read_holding_registers wire REG_MODBUS_CONTROL 4;
    data ← when_regs regs batch_remote_control data;
    mret (Some data)
  end.

(** *** Write commands *)

Definition set_airflow_mode (mode : string) : M modbus_client bool :=
  if decide (mode = "wall_unit") then
    _write_register wire REG_MODBUS_CONTROL 0
  else if dict_contains AIRFLOW_MODE_TO_SWITCH mode then
    ok ← _write_register wire REG_MODBUS_CONTROL 1;
    if negb ok then mret false
    else
      position ← lift (dict_item AIRFLOW_MODE_TO_SWITCH mode);
      _write_register wire REG_SWITCH_POSITION position
  else mret false.

Definition set_custom_flow_rate (rate : Z) : M modbus_client bool :=
  let rate := Z.max 0 (Z.min rate 400) in
  ok ← _write_register wire REG_MODBUS_CONTROL 2;
  if negb ok then mret false
  else _write_register wire REG_DESIRED_FLOW_RATE rate.

Definition set_bypass_mode (mode : string) : M modbus_client bool :=
  if negb (dict_contains BYPASS_MODE_REVERSE mode) then mret false
  else
    code ← lift (dict_item BYPASS_MODE_REVERSE mode);
    _write_register wire REG_BYPASS_MODE code.

Definition reset_filter : M modbus_client bool :=
  _write_register wire REG_FILTER_RESET 1.

Definition reset_appliance : M modbus_client bool :=
  _write_register wire REG_APPLIANCE_RESET 1.

Definition set_standby (standby : bool) : M modbus_client bool :=
  _write_register wire REG_STANDBY (if standby then 1 else 2).

Definition test_connection : M modbus_client bool :=
  regs ← _read_input_registers wire REG_ACTIVE_FUNCTION 1;
  mret (bool_decide (regs ≠ None)).

End Commands.

(** ** coordinator.py *)

Definition MAX_FAILURES_BEFORE_BACKOFF : Z := 3.
Definition BACKOFF_INTERVAL : Z := 120.

(** What the coordinator writes to its logger. *)
Inductive log_record :=
| Debug (msg : string)
| Info (msg : string)
| Warning (msg : string) (attempts interval : Z).

(** [UbbinkVigorCoordinator]: [update_interval] is the [timedelta] in
    seconds. *)
Record coordinator := {
  client : modbus_client;
  _consecutive_failures : Z;
  update_interval : Z;
  _LOGGER : list log_record
}.

Definition coordinator__init__ (cl : modbus_client) : coordinator :=
  {| client := cl; _consecutive_failures := 0;
     update_interval := DEFAULT_SCAN_INTERVAL; _LOGGER := [] |}.

(** Run a coroutine of [self.client]. *)
Definition on_client {A} (m : M modbus_client A) : M coordinator A :=
  λ self, match m (client self) with
          | (r, cl) =>
              (r, {| client := cl;
                     _consecutive_failures := _consecutive_failures self;
                     update_interval := update_interval self;
                     _LOGGER := _LOGGER self |})
          end.

Definition get_failures : M coordinator Z :=
  λ self, (Ret (_consecutive_failures self), self).

Definition set_failures (n : Z) : M coordinator () :=
  λ self, (Ret (),
           {| client := client self; _consecutive_failures := n;
              update_interval := update_interval self; _LOGGER := _LOGGER self |}).

Definition get_interval : M coordinator Z :=
  λ self, (Ret (update_interval self), self).

Definition set_interval (seconds : Z) : M coordinator () :=
  λ self, (Ret (),
           {| client := client self;
              _consecutive_failures := _consecutive_failures self;
              update_interval := seconds; _LOGGER := _LOGGER self |}).

Definition log (r : log_record) : M coordinator () :=
  λ self, (Ret (),
           {| client := client self;
              _consecutive_failures := _consecutive_failures self;
              update_interval := update_interval self;
              _LOGGER := _LOGGER self ++ [r] |}).

(** Slow down polling after repeated failures. *)
Definition _maybe_backoff : M coordinator () :=
  failures ← get_failures;
  if MAX_FAILURES_BEFORE_BACKOFF <=? failures then
    interval ← get_interval;
    if decide (interval ≠ BACKOFF_INTERVAL) then
      log (Warning "Ubbink Vigor unreachable after %s attempts, backing off to %ss poll interval"
             failures BACKOFF_INTERVAL) ;;
      set_interval BACKOFF_INTERVAL
    else mret ()
  else mret ().

Section Coordinator.

Variable wire : nat → result response.
Variable link : nat → result bool.

(** Fetch data from the Vigor unit. *)
Definition _async_update_data : M coordinator dict :=
  is_connected ← on_client connected;
  (if negb is_connected then
     log (Debug "Modbus client disconnected, attempting reconnect") ;;
     connected ← on_client (connect link);
     if negb connected then
       failures ← get_failures;
       set_failures (failures + 1) ;;
       _maybe_backoff ;;
       raise (UpdateFailed "Cannot connect to Ubbink Vigor – check bridge device")
     else mret ()
   else mret ()) ;;
  data ← on_client (read_all_data wire);
  match data with
  | None =>
      failures ← get_failures;
      set_failures (failures + 1) ;;
      _maybe_backoff ;;
      on_client close ;;
      raise (UpdateFailed "Failed to read data from Ubbink Vigor")
  | Some data =>
      failures ← get_failures;
      (if 0 <? failures then
         log (Info "Ubbink Vigor communication restored") ;;
         set_failures 0 ;;
         set_interval DEFAULT_SCAN_INTERVAL
       else mret ()) ;;
      mret data
  end.

End Coordinator.

(** * Vocabulary of the properties *)

(** ** The register primitives, run on a client *)

(** The register requests among a sequence of events. *)
Fixpoint requests (t : list event) : list request :=
  match t with
  | [] => []
  | Wire r :: t' => r :: requests t'
  | _ :: t' => requests t'
  end.

(** What a read primitive returns for an outcome of the transport. *)
Definition read_outcome (r : result response) : result (option (list Z)) :=
  match r with
  | Ret (Registers l) => Ret (Some l)
  | Ret ExceptionResponse => Ret None
  | Raise e => if caught e then Ret None else Raise e
  end.

(** What [_write_register] returns for an outcome of the transport. *)
Definition write_outcome (r : result response) : result bool :=
  match r with
  | Ret (Registers _) => Ret true
  | Ret ExceptionResponse => Ret false
  | Raise e => if caught e then Ret false else Raise e
  end.

(** The events of one register operation on a client that has a handle,
    and on one that has none. *)
Definition op_events (req : request) : list event :=
  [LockAcquire; Sleep MIN_REQUEST_DELAY; Wire req; LockRelease].

Definition op_events_no_handle : list event :=
  [LockAcquire; Sleep MIN_REQUEST_DELAY; LockRelease].

Definition after_op (req : request) (c : modbus_client) : modbus_client :=
  {| cfg := cfg c; _client := _client c; link_up := link_up c;
     sent := S (sent c); dialled := dialled c;
     trace := trace c ++ op_events req |}.

Definition after_op_no_handle (c : modbus_client) : modbus_client :=
  {| cfg := cfg c; _client := _client c; link_up := link_up c;
     sent := sent c; dialled := dialled c;
     trace := trace c ++ op_events_no_handle |}.

Arguments after_op : simpl never.

Arguments after_op_no_handle : simpl never.

(** ** Serial number *)

(** The nibble of a word at a bit offset. *)
Definition nibble (reg : Z) (shift : Z) : Z := Z.land (Z.shiftr reg shift) 0xF.

Definition bcd_word (reg : Z) : Prop :=
  nibble reg 12 ≤ 9 ∧ nibble reg 8 ≤ 9 ∧ nibble reg 4 ≤ 9 ∧ nibble reg 0 ≤ 9.

(** The character of a decimal digit. *)
Definition digit_char (d : Z) : Ascii.ascii := Ascii.ascii_of_nat (48 + Z.to_nat d).

(** The four nibbles of a word as characters, most significant first. *)
Definition nibble_chars (reg : Z) : list Ascii.ascii :=
  [digit_char (nibble reg 12); digit_char (nibble reg 8);
   digit_char (nibble reg 4); digit_char (nibble reg 0)].

(** ** A sample client *)

(** A TCP client behind a ser2net bridge, after a successful [connect],
    on a transport that accepts the first request and rejects the rest. *)
Definition sample_config : config :=
  {| _connection_type := CONN_TCP; _slave_id := 20; _serial_port := None;
     _baudrate := 19200; _parity := "E"; _host := Some "vigor.local";
     _port := 502; _bridge_type := BRIDGE_SER2NET |}.

Definition sample_wire (n : nat) : result response :=
  match n with
  | O => Ret (Registers [2])
  | _ => Ret ExceptionResponse
  end.

Definition sample_client : modbus_client :=
  (connect (λ _, Ret true) (__init__ sample_config)).2.

(** ** A client that was never connected *)

Section NeverConnectedDefinitions.

Variable wire : nat → result response.

(** The clients reached from a fresh one by anything but [connect]. *)
Inductive never_connected : modbus_client → Prop :=
| nc_init cfg :
    never_connected (__init__ cfg)
| nc_read_input address count c :
    never_connected c →
    never_connected (_read_input_registers wire address count c).2
| nc_read_holding address count c :
    never_connected c →
    never_connected (_read_holding_registers wire address count c).2
| nc_write address value c :
    never_connected c →
    never_connected (_write_register wire address value c).2
| nc_close c :
    never_connected c → never_connected (close c).2.

End NeverConnectedDefinitions.

(** ** The poll cycle as a table of batches *)

(** One optional batch of [read_all_data]: the request, the body run on
    its registers, and the fields the body stores. *)
Record batch := {
  b_request : request;
  b_body : list Z → dict → result dict;
  b_keys : list string
}.

Definition batch_count (b : batch) : Z :=
  match b_request b with
  | ReadInput _ count | ReadHolding _ count => count
  | WriteRegister _ _ => 0
  end.

Definition first_batch : batch :=
  {| b_request := ReadInput 4020 5; b_body := batch_active_function;
     b_keys := ["active_function"; "active_function_raw"; "fan_control_type";
                "ventilation_mode"; "ventilation_mode_raw"; "supply_pressure";
                "exhaust_pressure"] |}.

Definition optional_batches : list batch :=
  [ {| b_request := ReadInput 4030 8; b_body := batch_supply_fan;
       b_keys := ["fan_inlet_status"; "supply_airflow_setpoint";
                  "supply_airflow_actual"; "supply_massflow"; "supply_fan_speed";
                  "supply_fan_temperature"; "supply_fan_humidity"] |};
    {| b_request := ReadInput 4040 8; b_body := batch_exhaust_fan;
       b_keys := ["fan_exhaust_status"; "exhaust_airflow_actual";
                  "exhaust_fan_speed"; "exhaust_fan_temperature";
                  "exhaust_fan_humidity"] |};
    {| b_request := ReadInput 4050 2; b_body := batch_bypass_status;
       b_keys := ["bypass_status"; "bypass_status_raw"; "bypass_step_position"] |};
    {| b_request := ReadInput 4060 2; b_body := batch_preheater;
       b_keys := ["preheater_status"; "preheater_capacity"] |};
    {| b_request := ReadInput 4070 3; b_body := batch_frost;
       b_keys := ["frost_status_raw"; "frost_heater_power"; "frost_fan_reduction"] |};
    {| b_request := ReadInput 4080 4; b_body := batch_temperatures;
       b_keys := ["flow_switch_position"; "outside_temperature";
                  "dwelling_temperature"; "rht_humidity"] |};
    {| b_request := ReadInput 4100 1; b_body := batch_filter_status;
       b_keys := ["filter_status"] |};
    {| b_request := ReadInput 4113 3; b_body := batch_operating_hours;
       b_keys := ["operating_hours"; "filter_hours"] |};
    {| b_request := ReadInput 4200 4; b_body := batch_co2;
       b_keys := ["co2_sensor1"; "co2_sensor2"] |};
    {| b_request := ReadInput 4800 2; b_body := batch_error_status;
       b_keys := ["system_error"; "system_error_raw"; "active_incident"] |};
    {| b_request := ReadInput 4010 3; b_body := batch_serial_number;
       b_keys := ["serial_number"] |};
    {| b_request := ReadHolding 6000 4; b_body := batch_flow_presets;
       b_keys := ["flow_preset_holiday"; "flow_preset_low"; "flow_preset_normal";
                  "flow_preset_high"] |};
    {| b_request := ReadHolding 6100 3; b_body := batch_bypass_mode;
       b_keys := ["bypass_mode"; "bypass_mode_raw"; "bypass_temp_dwelling";
                  "bypass_temp_outside"] |};
    {| b_request := ReadHolding 6120 1; b_body := batch_filter_warning_days;
       b_keys := ["filter_warning_days"] |};
    {| b_request := ReadHolding 8000 4; b_body := batch_remote_control;
       b_keys := ["modbus_control"; "switch_position"; "desired_flow_rate";
                  "standby_status"; "airflow_mode"] |} ].

Section PollTableDefinitions.

Variable wire : nat → result response.

(** The read primitive a batch request goes through. *)
Definition read_batch (req : request) : M modbus_client (option (list Z)) :=
  match req with
  | ReadInput address count => _read_input_registers wire address count
  | ReadHolding address count => _read_holding_registers wire address count
  | WriteRegister _ _ => mret None
  end.

(** The optional batches in sequence, then the rest of the coroutine. *)
Fixpoint poll {A} (bs : list batch) (data : dict)
    (rest : dict → M modbus_client A) : M modbus_client A :=
  match bs with
  | [] => rest data
  | b :: bs' =>
      regs ← read_batch (b_request b);
      data ← when_regs regs (b_body b) data;
      poll bs' data rest
  end.

End PollTableDefinitions.

(** *** What each batch body does *)

Definition all_batches : list batch := first_batch :: optional_batches.

(** The fields a body stores from registers alone. *)
Definition fields (b : batch) (regs : list Z) : dict :=
  match b_body b regs ∅ with
  | Ret F => F
  | Raise _ => ∅
  end.

(** On as many registers as requested, a body stores exactly its fields,
    whatever the snapshot held before. *)
Definition batch_stores (b : batch) : Prop :=
  ∀ regs, length regs = Z.to_nat (batch_count b) →
    dom (fields b regs) = list_to_set (b_keys b)
    ∧ ∀ data, b_body b regs data = Ret (fields b regs ∪ data).

(** Every batch is a read of at least one register. *)
Definition batch_reads (b : batch) : Prop :=
  (0 < Z.to_nat (batch_count b))%nat
  ∧ ∃ address count,
      b_request b = ReadInput address count ∨ b_request b = ReadHolding address count.

(** A body that raises raises [IndexError]. *)
Definition raises_in {A} (P : exn → Prop) (r : result A) : Prop :=
  ∀ e, r = Raise e → P e.

Definition body_raises_IndexError (b : batch) : Prop :=
  ∀ regs data, raises_in (λ e, e = IndexError) (b_body b regs data).

(** *** Running the table *)

Section PollOutcomes.

Variable wire : nat → result response.

(** The [n]-th request fails: the primitive returns [None]. *)
Definition batch_fails (n : nat) : Prop := read_outcome (wire n) = Ret None.

(** The [n]-th request succeeds with as many registers as batch [b] asked. *)
Definition batch_returns (b : batch) (n : nat) (regs : list Z) : Prop :=
  wire n = Ret (Registers regs) ∧ length regs = Z.to_nat (batch_count b).

Definition well_formed (b : batch) (n : nat) : Prop :=
  batch_fails n ∨ ∃ regs, batch_returns b n regs.

(** The snapshot the table builds when request [n] is its first. *)
Fixpoint collect (bs : list batch) (n : nat) (data : dict) : dict :=
  match bs with
  | [] => data
  | b :: bs' =>
      collect bs' (S n)
        (match wire n with
         | Ret (Registers regs) => fields b regs ∪ data
         | _ => data
         end)
  end.

Fixpoint after_ops (bs : list batch) (c : modbus_client) : modbus_client :=
  match bs with
  | [] => c
  | b :: bs' => after_ops bs' (after_op (b_request b) c)
  end.

End PollOutcomes.

(** A poll cycle in which the supply-fan batch times out and several
    other optional batches are rejected by the appliance. *)
Definition poll_replies : list (result response) :=
  [ Ret (Registers [12; 1; 2; 0xFF38; 215]);
    Raise TimeoutError;
    Ret (Registers [4; 0; 150; 0; 1500; 0; 215; 1001]);
    Ret ExceptionResponse;
    Ret ExceptionResponse;
    Ret ExceptionResponse;
    Ret (Registers [2; 0xFFCE; 9999; 455]);
    Ret ExceptionResponse;
    Ret (Registers [1; 0; 300]);
    Raise ConnectionError;
    Ret (Registers [0; 0]);
    Ret (Registers [0x1234; 0x5678; 0x9012]);
    Ret ExceptionResponse;
    Ret (Registers [1; 220; 100]);
    Ret ExceptionResponse;
    Ret (Registers [1; 2; 0; 2]) ].

Definition poll_wire (n : nat) : result response :=
  default (Ret ExceptionResponse) (poll_replies !! n).

(** ** Poll coordinator *)

(** Number of backoff warnings in the log. *)
Fixpoint warnings (l : list log_record) : nat :=
  match l with
  | [] => 0
  | Warning _ _ _ :: l' => S (warnings l')
  | _ :: l' => warnings l'
  end.

(** Something else (a command, a dropped link) changed the client. *)
Definition with_client (cl : modbus_client) (self : coordinator) : coordinator :=
  {| client := cl; _consecutive_failures := _consecutive_failures self;
     update_interval := update_interval self; _LOGGER := _LOGGER self |}.

(** Exceptions a coroutine can raise. *)
Definition M_raises_in {S A} (P : exn → Prop) (m : M S A) : Prop :=
  ∀ s e, (m s).1 = Raise e → P e.

(** The abstract poll state: consecutive failures, interval in seconds,
    number of backoff warnings logged. *)
Definition poll_state (self : coordinator) : Z * Z * nat :=
  (_consecutive_failures self, update_interval self, warnings (_LOGGER self)).

(** What a failed cycle does to the poll state: count the failure, then
    [_maybe_backoff]. *)
Definition on_failure (st : Z * Z * nat) : Z * Z * nat :=
  let '(failures, interval, warned) := st in
  if (MAX_FAILURES_BEFORE_BACKOFF <=? failures + 1)
     && negb (interval =? BACKOFF_INTERVAL)
  then (failures + 1, BACKOFF_INTERVAL, S warned)
  else (failures + 1, interval, warned).

(** What a cycle that returns a snapshot does to the poll state. *)
Definition on_success (st : Z * Z * nat) : Z * Z * nat :=
  let '(failures, interval, warned) := st in
  if 0 <? failures then (0, DEFAULT_SCAN_INTERVAL, warned)
  else (failures, interval, warned).

Section CoordinatorVocabulary.

Variable wire : nat → result response.
Variable link : nat → result bool.

Definition not_UpdateFailed (e : exn) : Prop := ∀ msg, e ≠ UpdateFailed msg.

(** The two halves of [_async_update_data]: the reconnect at the top and
    the read that follows. *)
Definition reconnect_if_needed : M coordinator () :=
  is_connected ← on_client connected;
  if negb is_connected then
    log (Debug "Modbus client disconnected, attempting reconnect") ;;
    connected ← on_client (connect link);
    if negb connected then
      failures ← get_failures;
      set_failures (failures + 1) ;;
      _maybe_backoff ;;
      raise (UpdateFailed "Cannot connect to Ubbink Vigor – check bridge device")
    else mret ()
  else mret ().

Definition fetch : M coordinator dict :=
  data ← on_client (read_all_data wire);
  match data with
  | None =>
      failures ← get_failures;
      set_failures (failures + 1) ;;
      _maybe_backoff ;;
      on_client close ;;
      raise (UpdateFailed "Failed to read data from Ubbink Vigor")
  | Some data =>
      failures ← get_failures;
      (if 0 <? failures then
         log (Info "Ubbink Vigor communication restored") ;;
         set_failures 0 ;;
         set_interval DEFAULT_SCAN_INTERVAL
       else mret ()) ;;
      mret data
  end.

(** The coordinators reached from a fresh one by poll cycles, with the
    client free to change in between (commands, dropped links). *)
Inductive reachable : coordinator → Prop :=
| reach_init cl :
    reachable (coordinator__init__ cl)
| reach_cycle self :
    reachable self → reachable (_async_update_data wire link self).2
| reach_client self cl :
    reachable self → reachable (with_client cl self).

(** [outage n self self']: [n] cycles in a row failed between [self] and
    [self']. *)
Inductive outage : nat → coordinator → coordinator → Prop :=
| outage_start self :
    outage 0 self self
| outage_failed n self self' cl msg :
    outage n self self' →
    (_async_update_data wire link (with_client cl self')).1
    = Raise (UpdateFailed msg) →
    outage (S n) self (_async_update_data wire link (with_client cl self')).2.

(** The interval is the backoff one exactly from the third failure on. *)
Definition poll_inv (st : Z * Z * nat) : Prop :=
  let '(failures, interval, _) := st in
  0 ≤ failures
  ∧ interval = if MAX_FAILURES_BEFORE_BACKOFF <=? failures
               then BACKOFF_INTERVAL else DEFAULT_SCAN_INTERVAL.

End CoordinatorVocabulary.

(** A bridge that refuses the first three connection attempts, then the
    appliance answers as in [poll_replies]. *)
Definition recovering_link (n : nat) : result bool := Ret (bool_decide (3 ≤ n)%nat).

Definition fresh_coordinator : coordinator :=
  coordinator__init__ (__init__ sample_config).

Definition sample_cycle (self : coordinator) : coordinator :=
  (_async_update_data poll_wire recovering_link self).2.

Definition returned {A} (r : result A) : bool :=
  match r with
  | Ret _ => true
  | Raise _ => false
  end.

(** ** Concurrent register operations *)

(** Several coroutines (a poll cycle, a command) run register operations
    on one client under the cooperative scheduler.  Each operation is the
    event sequence of a primitive, [op_events] or [op_events_no_handle]; the
    scheduler interleaves them event by event.  [asyncio.Lock] lets
    [LockAcquire] through only when the lock is free, [asyncio.sleep] lets the
    coroutine go on only once the clock has passed the delay, and the lock is
    held until [LockRelease]. *)
Module EventLoop.

Inductive operation := Op (req : request) (has_handle : bool).

Definition operation_events (o : operation) : list event :=
  match o with
  | Op req true => op_events req
  | Op _ false => op_events_no_handle
  end.

(** The events of a coroutine that runs the operations one after another. *)
Definition program (ops : list operation) : list event :=
  concat (operation_events <$> ops).

(** A task: the events it still has to perform and the time its current
    sleep ends. *)
Record task := { todo : list event; wake_at : Z }.

(** The loop: the clock in milliseconds, the holder of the client's lock,
    the tasks, and the events performed so far with time and task. *)
Record loop := {
  now : Z;
  lock : option nat;
  tasks : list task;
  history : list (Z * nat * event)
}.

Definition spawn (ops : list operation) : task :=
  {| todo := program ops; wake_at := 0 |}.

Definition start (t0 : Z) (programs : list (list operation)) : loop :=
  {| now := t0; lock := None; tasks := spawn <$> programs; history := [] |}.

Definition enabled (s : loop) (tk : task) (e : event) : Prop :=
  match e with
  | LockAcquire => lock s = None
  | Wire _ => wake_at tk ≤ now s
  | _ => True
  end.

Definition tick (d : Z) (s : loop) : loop :=
  {| now := now s + d; lock := lock s; tasks := tasks s; history := history s |}.

Definition fire (t : nat) (e : event) (rest : list event) (wake : Z) (s : loop) : loop :=
  {| now := now s;
     lock := match e with
             | LockAcquire => Some t
             | LockRelease => None
             | _ => lock s
             end;
     tasks := <[t := {| todo := rest;
                        wake_at := match e with
                                   | Sleep ms => now s + ms
                                   | _ => wake
                                   end |}]> (tasks s);
     history := history s ++ [(now s, t, e)] |}.

Inductive step : loop → loop → Prop :=
| step_tick s d :
    0 ≤ d → step s (tick d s)
| step_task s t tk e rest :
    tasks s !! t = Some tk → todo tk = e :: rest → enabled s tk e →
    step s (fire t e rest (wake_at tk) s).

(** *** The single-flight, paced discipline as an acceptor of histories *)

(** Where the gate is: free, just taken by a task, in the delay of a task
    until a time, or with a request of a task on the wire. *)
Inductive gate :=
| Idle
| Held (t : nat)
| Slept (t : nat) (wake : Z)
| Flying (t : nat).

Definition gate_step (g : gate) (ev : Z * nat * event) : option gate :=
  let '(time, t, e) := ev in
  match g, e with
  | Idle, LockAcquire => Some (Held t)
  | Held t', Sleep ms =>
      if decide (t = t' ∧ ms = MIN_REQUEST_DELAY) then Some (Slept t (time + ms))
      else None
  | Slept t' wake, Wire _ =>
      if decide (t = t' ∧ wake ≤ time) then Some (Flying t) else None
  | Slept t' _, LockRelease => if decide (t = t') then Some Idle else None
  | Flying t', LockRelease => if decide (t = t') then Some Idle else None
  | _, _ => None
  end.

Definition gate_run (g : gate) (h : list (Z * nat * event)) : option gate :=
  fold_left (λ og ev, og ≫= λ g, gate_step g ev) h (Some g).

(** A history is serialized and paced when the acceptor runs through it:
    the events of one operation are never interleaved with those of another
    task, every operation starts its delay right after taking the gate, and
    a request reaches the wire no sooner than [MIN_REQUEST_DELAY] later. *)
Definition serialized (h : list (Z * nat * event)) : Prop :=
  is_Some (gate_run Idle h).

Definition holder (g : gate) : option nat :=
  match g with
  | Idle => None
  | Held t | Slept t _ | Flying t => Some t
  end.

(** A task is inside an operation when its next event is not the start of
    one. *)
Definition inside_operation (tk : task) : Prop :=
  match todo tk with
  | [] | LockAcquire :: _ => False
  | _ => True
  end.

(** *** The invariant of the loop *)

Definition tail_of_operation (tail : list event) : Prop :=
  tail = [LockRelease] ∨ ∃ r, tail = [Wire r; LockRelease].

(** What the holder of the gate still has to do, by gate state. *)
Definition continues (g : gate) (tk : task) : Prop :=
  match g with
  | Idle => False
  | Held _ =>
      ∃ tail ops, tail_of_operation tail
                  ∧ todo tk = Sleep MIN_REQUEST_DELAY :: tail ++ program ops
  | Slept _ wake =>
      wake_at tk = wake
      ∧ ∃ tail ops, tail_of_operation tail ∧ todo tk = tail ++ program ops
  | Flying _ => ∃ ops, todo tk = LockRelease :: program ops
  end.

Definition at_boundary (tk : task) : Prop := ∃ ops, todo tk = program ops.

Definition loop_inv (s : loop) : Prop :=
  ∃ g, gate_run Idle (history s) = Some g
       ∧ lock s = holder g
       ∧ (∀ t, holder g = Some t →
            ∃ tk, tasks s !! t = Some tk ∧ continues g tk)
       ∧ (∀ t tk, tasks s !! t = Some tk → holder g ≠ Some t → at_boundary tk).

End EventLoop.

(** A poll read and a command write started together: the write waits for
    the gate until the read has been answered. *)
Definition two_tasks : list (list EventLoop.operation) :=
  [ [EventLoop.Op (ReadInput 4020 5) true];
    [EventLoop.Op (WriteRegister 8000 2) true] ].

Definition two_tasks_run : EventLoop.loop :=
  let s := EventLoop.start 0 two_tasks in
  let s := EventLoop.fire 0 LockAcquire
             [Sleep 150; Wire (ReadInput 4020 5); LockRelease] 0 s in
  let s := EventLoop.fire 0 (Sleep 150) [Wire (ReadInput 4020 5); LockRelease] 0 s in
  let s := EventLoop.tick 150 s in
  let s := EventLoop.fire 0 (Wire (ReadInput 4020 5)) [LockRelease] 150 s in
  let s := EventLoop.tick 40 s in
  let s := EventLoop.fire 0 LockRelease [] 150 s in
  let s := EventLoop.fire 1 LockAcquire
             [Sleep 150; Wire (WriteRegister 8000 2); LockRelease] 0 s in
  let s := EventLoop.fire 1 (Sleep 150) [Wire (WriteRegister 8000 2); LockRelease] 0 s in
  let s := EventLoop.tick 150 s in
  EventLoop.fire 1 (Wire (WriteRegister 8000 2)) [LockRelease] 340 s.

(** * The rest of the integration *)

(** ** const.py: defaults and option lists *)

Definition DEFAULT_SLAVE_ID : Z := 20.
Definition DEFAULT_BAUDRATE : Z := 19200.
Definition DEFAULT_PARITY : string := "E".
Definition DEFAULT_TCP_PORT : Z := 502.

Definition AIRFLOW_MODE_OPTIONS : list string :=
  ["wall_unit"; "holiday"; "low"; "normal"; "high"].

Definition BYPASS_MODE_OPTIONS : list string := ["Automatic"; "Closed"; "Open"].

(** ** modbus_client.py: bypass thresholds *)

(** [int(x)] on a float: truncation toward zero; [ValueError] on a nan
    and [OverflowError] on an infinity, both among the other exceptions. *)
Definition int_of_float (x : float) : result Z :=
  match Prim2SF x with
  | SpecFloat.S754_zero _ => Ret 0
  | SpecFloat.S754_finite s m e =>
      let magnitude := if 0 <=? e then Z.pos m * 2 ^ e else Z.pos m / 2 ^ (- e) in
      Ret (if s then - magnitude else magnitude)
  | SpecFloat.S754_infinity _ => Raise OtherException
  | SpecFloat.S754_nan => Raise OtherException
  end.

(** [temp * 10] *)
Definition times10 (temp : float) : float := PrimFloat.mul temp (float_of_int 10).

Section Thresholds.

Variable wire : nat → result response.

Definition set_bypass_temp_dwelling (temp : float) : M modbus_client bool :=
  value ← lift (int_of_float (times10 temp));
  let value := Z.max 150 (Z.min 350 value) in
  _write_register wire REG_BYPASS_TEMP_DWELLING value.

Definition set_bypass_temp_outside (temp : float) : M modbus_client bool :=
  value ← lift (int_of_float (times10 temp));
  let value := Z.max 70 (Z.min 150 value) in
  _write_register wire REG_BYPASS_TEMP_OUTSIDE value.

End Thresholds.

(** The write commands of the client, as the entities call them. *)
Inductive command :=
| SetAirflowMode (mode : string)
| SetCustomFlowRate (rate : Z)
| SetBypassMode (mode : string)
| ResetFilter
| ResetAppliance
| SetStandby (standby : bool)
| SetBypassTempDwelling (temp : float)
| SetBypassTempOutside (temp : float).

Definition run_command (wire : nat → result response) (cmd : command) : M modbus_client bool :=
  match cmd with
  | SetAirflowMode mode => set_airflow_mode wire mode
  | SetCustomFlowRate rate => set_custom_flow_rate wire rate
  | SetBypassMode mode => set_bypass_mode wire mode
  | ResetFilter => reset_filter wire
  | ResetAppliance => reset_appliance wire
  | SetStandby standby => set_standby wire standby
  | SetBypassTempDwelling temp => set_bypass_temp_dwelling wire temp
  | SetBypassTempOutside temp => set_bypass_temp_outside wire temp
  end.

(** ** select.py, number.py *)

(** [data.get(key, default)]; [data.get(key)] has default [None]. *)
Definition data_get (data : dict) (key : string) (default : value) : value :=
  match data !! key with
  | Some v => v
  | None => default
  end.

(** [UbbinkAirflowModeSelect.current_option] *)
Definition airflow_current_option (data : dict) : string :=
  match data_get data "airflow_mode" VNone with
  | VStr mode =>
      if bool_decide (mode ∈ AIRFLOW_MODE_OPTIONS) then mode else "wall_unit"
  | _ => "wall_unit"
  end.

(** [UbbinkBypassModeSelect.current_option] *)
Definition bypass_current_option (data : dict) : value :=
  data_get data "bypass_mode" (VStr "Automatic").

(** [v == n] for an integer literal [n]. *)
Definition value_eq_int (v : value) (n : Z) : bool :=
  match v with
  | VInt z => bool_decide (z = n)
  | VFloat f => PrimFloat.eqb f (float_of_int n)
  | _ => false
  end.

(** [UbbinkFlowRateNumber.native_value] *)
Definition flow_rate_native_value (data : dict) : value :=
  if value_eq_int (data_get data "modbus_control" VNone) 2 then
    data_get data "desired_flow_rate" VNone
  else data_get data "supply_airflow_actual" VNone.

(** ** sensor.py *)

(** The two fields of a [UbbinkSensorDescription] that the code reads;
    no description sets [value_fn]. *)
Record sensor_description := { sensor_key : string; data_key : string }.

Definition SENSOR_DESCRIPTIONS : list sensor_description :=
  [ {| sensor_key := "supply_airflow"; data_key := "supply_airflow_actual" |};
    {| sensor_key := "exhaust_airflow"; data_key := "exhaust_airflow_actual" |};
    {| sensor_key := "supply_airflow_setpoint"; data_key := "supply_airflow_setpoint" |};
    {| sensor_key := "supply_pressure"; data_key := "supply_pressure" |};
    {| sensor_key := "exhaust_pressure"; data_key := "exhaust_pressure" |};
    {| sensor_key := "supply_temperature"; data_key := "supply_fan_temperature" |};
    {| sensor_key := "exhaust_temperature"; data_key := "exhaust_fan_temperature" |};
    {| sensor_key := "outside_temperature"; data_key := "outside_temperature" |};
    {| sensor_key := "dwelling_temperature"; data_key := "dwelling_temperature" |};
    {| sensor_key := "supply_fan_speed"; data_key := "supply_fan_speed" |};
    {| sensor_key := "exhaust_fan_speed"; data_key := "exhaust_fan_speed" |};
    {| sensor_key := "supply_humidity"; data_key := "supply_fan_humidity" |};
    {| sensor_key := "exhaust_humidity"; data_key := "exhaust_fan_humidity" |};
    {| sensor_key := "rht_humidity"; data_key := "rht_humidity" |};
    {| sensor_key := "preheater_capacity"; data_key := "preheater_capacity" |};
    {| sensor_key := "frost_heater_power"; data_key := "frost_heater_power" |};
    {| sensor_key := "frost_fan_reduction"; data_key := "frost_fan_reduction" |};
    {| sensor_key := "co2_sensor1"; data_key := "co2_sensor1" |};
    {| sensor_key := "co2_sensor2"; data_key := "co2_sensor2" |};
    {| sensor_key := "operating_hours"; data_key := "operating_hours" |};
    {| sensor_key := "filter_hours"; data_key := "filter_hours" |};
    {| sensor_key := "active_function"; data_key := "active_function" |};
    {| sensor_key := "ventilation_mode_sensor"; data_key := "ventilation_mode" |};
    {| sensor_key := "bypass_status"; data_key := "bypass_status" |};
    {| sensor_key := "filter_status"; data_key := "filter_status" |};
    {| sensor_key := "preheater_status"; data_key := "preheater_status" |};
    {| sensor_key := "system_error"; data_key := "system_error" |};
    {| sensor_key := "active_incident"; data_key := "active_incident" |};
    {| sensor_key := "fan_inlet_status"; data_key := "fan_inlet_status" |};
    {| sensor_key := "fan_exhaust_status"; data_key := "fan_exhaust_status" |};
    {| sensor_key := "serial_number"; data_key := "serial_number" |};
    {| sensor_key := "bypass_temp_dwelling"; data_key := "bypass_temp_dwelling" |};
    {| sensor_key := "bypass_temp_outside"; data_key := "bypass_temp_outside" |} ].

(** The sensors [async_setup_entry] creates: those whose data key is in
    the coordinator's snapshot. *)
Definition sensor_setup (data : dict) : list sensor_description :=
  List.filter (λ desc, bool_decide (is_Some (data !! data_key desc)))
    SENSOR_DESCRIPTIONS.

(** [UbbinkVigorSensor.native_value] *)
Definition sensor_native_value (desc : sensor_description) (data : dict) : value :=
  data_get data (data_key desc) VNone.

(** ** config_flow.py *)

(** The dict a config flow step has gathered; [None] is an absent key. *)
Record user_input := {
  CONF_CONNECTION_TYPE : option string;
  CONF_SLAVE_ID : option Z;
  CONF_SERIAL_PORT : option string;
  CONF_SERIAL_BAUDRATE : option Z;
  CONF_SERIAL_PARITY : option string;
  CONF_MODBUS_HOST : option string;
  CONF_MODBUS_PORT : option Z;
  CONF_TCP_BRIDGE_TYPE : option string
}.

(** [user_input[key]] *)
Definition input_item {A} (entry : option A) : result A :=
  match entry with
  | Some v => Ret v
  | None => Raise KeyError
  end.

(** The client [_test_connection] builds from the input. *)
Definition input_client (ui : user_input) : result modbus_client :=
  conn_type ← input_item (CONF_CONNECTION_TYPE ui);
  slave_id ← input_item (CONF_SLAVE_ID ui);
  mret (__init__
          {| _connection_type := conn_type;
             _slave_id := slave_id;
             _serial_port := CONF_SERIAL_PORT ui;
             _baudrate := default DEFAULT_BAUDRATE (CONF_SERIAL_BAUDRATE ui);
             _parity := default DEFAULT_PARITY (CONF_SERIAL_PARITY ui);
             _host := CONF_MODBUS_HOST ui;
             _port := default DEFAULT_TCP_PORT (CONF_MODBUS_PORT ui);
             _bridge_type := default BRIDGE_SER2NET (CONF_TCP_BRIDGE_TYPE ui) |}).

(** [try: body finally: cleanup] *)
Definition try_finally {S A} (body : M S A) (cleanup : M S ()) : M S A :=
  λ s, match body s with
       | (r, s') =>
           match cleanup s' with
           | (Ret _, s'') => (r, s'')
           | (Raise e, s'') => (Raise e, s'')
           end
       end.

Section ConfigFlow.

Variable wire : nat → result response.
Variable link : nat → result bool.

(** The [try ... except Exception ... finally] of [_test_connection], on
    the client just built. *)
Definition _test_connection_on : M modbus_client (option string) :=
  try_finally
    (try_except
       (connected ← connect link;
        if negb connected then mret (Some "cannot_connect")
        else
          ok ← test_connection wire;
          if negb ok then mret (Some "cannot_connect")
          else mret None)
       (λ _, true)
       (λ _, mret (Some "cannot_connect")))
    close.

(** Test the Modbus connection: the error string, or [None] on success. *)
Definition _test_connection (ui : user_input) : result (option string) :=
  client ← input_client ui;
  (_test_connection_on client).1.

End ConfigFlow.

(** * Vocabulary of the further properties *)

(** The delays among a sequence of events, added up. *)
Fixpoint slept (t : list event) : Z :=
  match t with
  | [] => 0
  | Sleep ms :: t' => ms + slept t'
  | _ :: t' => slept t'
  end.

(** The value a sequence of requests last wrote to a register. *)
Fixpoint written (reqs : list request) (address : Z) : option Z :=
  match reqs with
  | [] => None
  | WriteRegister a v :: reqs' =>
      match written reqs' address with
      | Some v' => Some v'
      | None => if decide (a = address) then Some v else None
      end
  | _ :: reqs' => written reqs' address
  end.

(** A block of holding registers read from [base] agrees with what was
    written. *)
Definition holds_written (reqs : list request) (base : Z) (regs : list Z) : Prop :=
  ∀ i r v, regs !! i = Some r → written reqs (base + Z.of_nat i) = Some v → r = v.

(** The registers and values the appliance documents as writable. *)
Definition within_limits (req : request) : Prop :=
  match req with
  | WriteRegister a v =>
      (a = 8000 ∧ 0 ≤ v ≤ 2) ∨ (a = 8001 ∧ 0 ≤ v ≤ 3)
      ∨ (a = 8002 ∧ 0 ≤ v ≤ 400) ∨ (a = 8003 ∧ 1 ≤ v ≤ 2)
      ∨ (a = 8010 ∧ v = 1) ∨ (a = 8011 ∧ v = 1)
      ∨ (a = 6100 ∧ 0 ≤ v ≤ 2) ∨ (a = 6101 ∧ 150 ≤ v ≤ 350)
      ∨ (a = 6102 ∧ 70 ≤ v ≤ 150)
  | _ => False
  end.

(** A coroutine that only runs register operations: it appends events
    that satisfy [Q] and leaves the handle, the link and the count of
    connect attempts alone. *)
Definition appends {A} (Q : list event → Prop) (m : M modbus_client A) : Prop :=
  ∀ c, ∃ new, trace (m c).2 = trace c ++ new ∧ Q new
              ∧ _client (m c).2 = _client c ∧ link_up (m c).2 = link_up c
              ∧ dialled (m c).2 = dialled c.

(** The events of register operations. *)
Definition register_event (e : event) : Prop :=
  match e with
  | LockAcquire | LockRelease | Wire _ => True
  | Sleep ms => ms = MIN_REQUEST_DELAY
  | Dial | Hangup => False
  end.

(** A float is finite. *)
Definition finite (x : float) : bool :=
  match Prim2SF x with
  | SpecFloat.S754_zero _ | SpecFloat.S754_finite _ _ _ => true
  | _ => false
  end.

(** A command passes its own validation. *)
Definition accepted (cmd : command) : bool :=
  match cmd with
  | SetAirflowMode mode => bool_decide (mode ∈ AIRFLOW_MODE_OPTIONS)
  | SetBypassMode mode => bool_decide (mode ∈ BYPASS_MODE_OPTIONS)
  | SetBypassTempDwelling temp | SetBypassTempOutside temp =>
      finite (times10 temp)
  | _ => true
  end.

(** The code-to-label tables of [const.py]. *)
Definition LABEL_TABLES : list (list (Z * string)) :=
  [ACTIVE_FUNCTION_MAP; VENTILATION_MODE_MAP; BYPASS_STATUS_MAP; BYPASS_MODE_MAP;
   FILTER_STATUS_MAP; SYSTEM_ERROR_MAP; FAN_STATUS_MAP; PREHEATER_STATUS_MAP].

(** Events of at most [n] register operations whose requests satisfy [P]. *)
Definition ops_events (P : request → Prop) (n : nat) (new : list event) : Prop :=
  Forall register_event new ∧ Forall P (requests new)
  ∧ (length (requests new) ≤ n)%nat.


(** The pymodbus handle [connect] builds from a configuration. *)
Definition serial_frame_bits (h : handle) : option Z :=
  match h with
  | AsyncModbusSerialClient _ _ bytesize parity stopbits _ _ _ =>
      Some (1 + bytesize + (if decide (parity = "N") then 0 else 1) + stopbits)
  | AsyncModbusTcpClient _ _ _ _ _ => None
  end.

Definition handle_framer (h : handle) : framer :=
  match h with
  | AsyncModbusSerialClient _ _ _ _ _ fr _ _ => fr
  | AsyncModbusTcpClient _ _ fr _ _ => fr
  end.

Definition is_serial (h : handle) : bool :=
  match h with
  | AsyncModbusSerialClient _ _ _ _ _ _ _ _ => true
  | AsyncModbusTcpClient _ _ _ _ _ => false
  end.

(** The outcome of one [connect()] of a handle, as [connect] reports it. *)
Definition link_outcome (r : result bool) : bool :=
  match r with
  | Ret b => b
  | Raise _ => false
  end.

(** The transport answered a request with registers. *)
Definition answered (r : result response) : bool :=
  match r with
  | Ret (Registers _) => true
  | _ => false
  end.

Definition sample_input : user_input :=
  {| CONF_CONNECTION_TYPE := Some CONN_TCP; CONF_SLAVE_ID := Some 20;
     CONF_SERIAL_PORT := None; CONF_SERIAL_BAUDRATE := None;
     CONF_SERIAL_PARITY := None; CONF_MODBUS_HOST := Some "vigor.local";
     CONF_MODBUS_PORT := None; CONF_TCP_BRIDGE_TYPE := None |}.

(** The first batch of a table that stores a key, with its position. *)
Fixpoint find_batch (bs : list batch) (k : string) (i : nat) : option (nat * batch) :=
  match bs with
  | [] => None
  | b :: bs' =>
      if bool_decide (k ∈ b_keys b) then Some (i, b) else find_batch bs' k (S i)
  end.

(** * Properties *)

(** ** The register primitives, run on a client *)

Lemma requests_app t1 t2 : requests (t1 ++ t2) = requests t1 ++ requests t2.
Proof.
  induction t1 as [|e t1 IH]; [done|].
  destruct e; simpl; by rewrite ?IH.
Qed.

Section Primitives.

Variable wire : nat → result response.

Ltac run_primitive c H :=
  unfold _read_input_registers, _read_holding_registers, _write_register,
    with_lock, sleep, try_except, call, emit, mbind, M_mbind, M_bind,
    mret, M_mret, M_ret, after_op, after_op_no_handle, op_events,
    op_events_no_handle;
  simpl; rewrite H; simpl;
  try (destruct (wire (sent c)) as [[l|]|e]; simpl; try destruct (caught e); simpl);
  rewrite <- ?app_assoc; reflexivity.

Lemma _read_input_registers_run address count c h :
  _client c = Some h →
  _read_input_registers wire address count c
  = (read_outcome (wire (sent c)), after_op (ReadInput address count) c).
Proof. intros H. run_primitive c H. Qed.

Lemma _read_holding_registers_run address count c h :
  _client c = Some h →
  _read_holding_registers wire address count c
  = (read_outcome (wire (sent c)), after_op (ReadHolding address count) c).
Proof. intros H. run_primitive c H. Qed.

Lemma _write_register_run address value c h :
  _client c = Some h →
  _write_register wire address value c
  = (write_outcome (wire (sent c)), after_op (WriteRegister address value) c).
Proof. intros H. run_primitive c H. Qed.

Lemma _read_input_registers_no_handle address count c :
  _client c = None →
  _read_input_registers wire address count c
  = (Raise AttributeError, after_op_no_handle c).
Proof. intros H. run_primitive c H. Qed.

Lemma _read_holding_registers_no_handle address count c :
  _client c = None →
  _read_holding_registers wire address count c
  = (Raise AttributeError, after_op_no_handle c).
Proof. intros H. run_primitive c H. Qed.

Lemma _write_register_no_handle address value c :
  _client c = None →
  _write_register wire address value c
  = (Raise AttributeError, after_op_no_handle c).
Proof. intros H. run_primitive c H. Qed.

End Primitives.

(** ** Signed decode *)

(** C4: for every 16-bit unsigned word [w], the signed decode is
    [w - 65536] when [w >= 0x8000] and [w] itself when [w < 0x8000]. *)
Theorem to_signed_two_complement (w : Z) :
  0 ≤ w ≤ 65535 →
  (0x8000 ≤ w → _to_signed w = w - 65536)
  ∧ (w < 0x8000 → _to_signed w = w).
Proof.
  intros _. unfold _to_signed. rewrite Z.geb_leb.
  split; intros Hw.
  - by rewrite (proj2 (Z.leb_le _ _) Hw).
  - by rewrite (proj2 (Z.leb_gt _ _) Hw).
Qed.

Lemma to_signed_two_complement_witness :
  0 ≤ 0xFF38 ≤ 65535 ∧ _to_signed 0xFF38 = -200 ∧ _to_signed 215 = 215.
Proof.
  split; [lia|]. split.
  - apply (to_signed_two_complement 0xFF38); lia.
  - reflexivity.
Defined.

(** ** Humidity sentinel *)

(** C8: a raw humidity word above 1000 decodes to absent, and a word of
    at most 1000 decodes to [r / 10.0] rounded to one decimal; raw 1001 is
    absent and raw 1000 is 100.0.  The three humidity fields of the snapshot
    are decoded this way. *)
Theorem humidity_sentinel (r : Z) :
  (1000 < r → humidity r = VNone)
  ∧ (r ≤ 1000 → humidity r = VFloat (round1 (div10 r)))
  ∧ humidity 1001 = VNone
  ∧ humidity 1000 = VFloat 100%float
  ∧ (∀ r0 r1 r2 r3 r4 r5 r6 data,
       ∃ data', batch_supply_fan [r0; r1; r2; r3; r4; r5; r6; r] data = Ret data'
                ∧ data' !! "supply_fan_humidity" = Some (humidity r))
  ∧ (∀ r0 r1 r2 r3 r4 r5 r6 data,
       ∃ data', batch_exhaust_fan [r0; r1; r2; r3; r4; r5; r6; r] data = Ret data'
                ∧ data' !! "exhaust_fan_humidity" = Some (humidity r))
  ∧ (∀ r0 r1 r2 data,
       ∃ data', batch_temperatures [r0; r1; r2; r] data = Ret data'
                ∧ data' !! "rht_humidity" = Some (humidity r)).
Proof.
  unfold humidity. repeat split.
  - intros Hr. by rewrite (proj2 (Z.leb_gt _ _) Hr).
  - intros Hr. by rewrite (proj2 (Z.leb_le _ _) Hr).
  - intros. eexists. split; [reflexivity|]. by rewrite lookup_insert_eq.
  - intros. eexists. split; [reflexivity|]. by rewrite lookup_insert_eq.
  - intros. eexists. split; [reflexivity|]. by rewrite lookup_insert_eq.
Qed.

Lemma humidity_sentinel_witness :
  1000 < 1001 ∧ humidity 1001 = VNone
  ∧ 987 ≤ 1000 ∧ humidity 987 = VFloat (round1 (div10 987)).
Proof.
  split; [lia|]. split; [apply (humidity_sentinel 1001); lia|].
  split; [lia|]. apply (humidity_sentinel 987); lia.
Defined.

(** ** Serial number *)

Lemma nibble_range reg shift : 0 ≤ nibble reg shift ≤ 15.
Proof.
  unfold nibble. split; [apply Z.land_nonneg; right; lia|].
  change (Z.land (Z.shiftr reg shift) 0xF)
    with (Z.land (Z.shiftr reg shift) (Z.ones 4)).
  rewrite Z.land_ones by lia. change (2 ^ 4) with 16.
  pose proof (Z.mod_pos_bound (Z.shiftr reg shift) 16). lia.
Qed.

Lemma pretty_digit (d : Z) :
  0 ≤ d ≤ 9 → pretty d = String (digit_char d) EmptyString.
Proof.
  intros Hd.
  assert (d = 0 ∨ d = 1 ∨ d = 2 ∨ d = 3 ∨ d = 4 ∨ d = 5 ∨ d = 6 ∨ d = 7
          ∨ d = 8 ∨ d = 9) as Hcases by lia.
  repeat (destruct Hcases as [-> | Hcases]; [by vm_compute|]).
  subst d. by vm_compute.
Qed.

Lemma serial_word_bcd reg :
  bcd_word reg → serial_word reg = String.string_of_list_ascii (nibble_chars reg).
Proof.
  intros (H3 & H2 & H1 & H0). unfold serial_word.
  change (Z.land reg 0xF) with (nibble reg 0).
  change (Z.land (Z.shiftr reg 12) 0xF) with (nibble reg 12).
  change (Z.land (Z.shiftr reg 8) 0xF) with (nibble reg 8).
  change (Z.land (Z.shiftr reg 4) 0xF) with (nibble reg 4).
  pose proof (nibble_range reg 12). pose proof (nibble_range reg 8).
  pose proof (nibble_range reg 4). pose proof (nibble_range reg 0).
  rewrite !pretty_digit by lia. reflexivity.
Qed.

(** C9, as the code has it: for three words whose nibbles are all decimal
    digits, the serial number is the 12-character string of the nibbles of
    each word from the most significant to the least significant, the
    first-read word first; [0x1234, 0x5678, 0x9012] gives "123456789012". *)
Theorem serial_number_bcd (w0 w1 w2 : Z) (data : dict) :
  bcd_word w0 → bcd_word w1 → bcd_word w2 →
  let serial :=
    String.string_of_list_ascii (nibble_chars w0 ++ nibble_chars w1 ++ nibble_chars w2) in
  batch_serial_number [w0; w1; w2] data
  = Ret (<["serial_number" := VStr serial]> data)
  ∧ String.length serial = 12%nat
  ∧ batch_serial_number [0x1234; 0x5678; 0x9012] data
    = Ret (<["serial_number" := VStr "123456789012"]> data).
Proof.
  intros H0 H1 H2 serial. split; [|split].
  - unfold batch_serial_number. simpl fold_left.
    rewrite !serial_word_bcd by done. reflexivity.
  - reflexivity.
  - reflexivity.
Qed.

Lemma serial_number_bcd_witness :
  bcd_word 0x1234 ∧ bcd_word 0x5678 ∧ bcd_word 0x9012
  ∧ batch_serial_number [0x1234; 0x5678; 0x9012] ∅
    = Ret (<["serial_number" := VStr "123456789012"]> ∅).
Proof.
  assert (bcd_word 0x1234) as H0 by (vm_compute; repeat split; discriminate).
  assert (bcd_word 0x5678) as H1 by (vm_compute; repeat split; discriminate).
  assert (bcd_word 0x9012) as H2 by (vm_compute; repeat split; discriminate).
  split; [exact H0|]. split; [exact H1|]. split; [exact H2|].
  exact (proj1 (serial_number_bcd 0x1234 0x5678 0x9012 ∅ H0 H1 H2)).
Defined.

(** C9 as stated fails on words that are not BCD: a nibble above 9 is
    formatted as a two-digit decimal, so three 16-bit words can give a
    string of more than 12 characters. *)
Lemma serial_number_not_12_chars :
  0 ≤ 0xABCD ≤ 65535
  ∧ batch_serial_number [0xABCD; 0; 0] ∅
    = Ret (<["serial_number" := VStr "1011121300000000"]> ∅)
  ∧ String.length "1011121300000000" ≠ 12%nat.
Proof. split; [lia|]. split; [reflexivity|]. vm_compute. discriminate. Qed.

(** ** Write commands *)

Section CommandProperties.

Variable wire : nat → result response.

Lemma after_op_client req c : _client (after_op req c) = _client c.
Proof. reflexivity. Qed.

Lemma after_op_sent req c : sent (after_op req c) = S (sent c).
Proof. reflexivity. Qed.

Lemma requests_after_op req c :
  requests (trace (after_op req c)) = requests (trace c) ++ [req].
Proof. unfold after_op; simpl. by rewrite requests_app. Qed.

Ltac run_writes :=
  unfold mbind, M_mbind, M_bind, mret, M_mret, M_ret, lift;
  repeat (erewrite _write_register_run
            by (rewrite ?after_op_client; eassumption));
  rewrite ?after_op_sent.

(** C5: the rate is clamped to [0, 400]; the control-mode register 8000
    is written with 2 first, and the flow-rate register 8002 is written
    with the clamped rate only when that first write succeeded; when the
    first write fails nothing else is written and the result is failure. *)
Theorem set_custom_flow_rate_clamps_then_writes (rate : Z) (c : modbus_client) h :
  _client c = Some h →
  let clamped := Z.max 0 (Z.min rate 400) in
  let first := write_outcome (wire (sent c)) in
  let second := write_outcome (wire (S (sent c))) in
  let done := set_custom_flow_rate wire rate c in
  0 ≤ clamped ≤ 400
  ∧ (400 ≤ rate → clamped = 400)
  ∧ (rate ≤ 0 → clamped = 0)
  ∧ (0 ≤ rate ≤ 400 → clamped = rate)
  ∧ (first = Ret true →
       done.1 = second
       ∧ requests (trace done.2)
         = requests (trace c)
           ++ [WriteRegister 8000 2; WriteRegister 8002 clamped])
  ∧ (first = Ret false →
       done.1 = Ret false
       ∧ requests (trace done.2) = requests (trace c) ++ [WriteRegister 8000 2])
  ∧ (∀ e, first = Raise e →
       done.1 = Raise e
       ∧ requests (trace done.2) = requests (trace c) ++ [WriteRegister 8000 2]).
Proof.
  intros Hh clamped first second done.
  split; [lia|]. split; [lia|]. split; [lia|]. split; [lia|].
  subst done first second. unfold set_custom_flow_rate. run_writes.
  split; [|split].
  - intros ->. cbn [negb fst snd]. run_writes. split; [done|].
    cbn [fst snd]. rewrite !requests_after_op, <- app_assoc. done.
  - intros ->. cbn [negb fst snd]. by rewrite requests_after_op.
  - intros e ->. cbn [fst snd]. by rewrite requests_after_op.
Qed.

(** C6: ["wall_unit"] causes the single write 8000 = 0; each of
    ["holiday"], ["low"], ["normal"], ["high"] writes 8000 = 1 and, only if
    that succeeded, 8001 = the mapped code, and fails if either write fails;
    any other mode writes nothing and reports failure. *)
Theorem set_airflow_mode_writes (mode : string) (c : modbus_client) :
  let first := write_outcome (wire (sent c)) in
  let second := write_outcome (wire (S (sent c))) in
  let done := set_airflow_mode wire mode c in
  (mode = "wall_unit" → ∀ h, _client c = Some h →
     done.1 = first
     ∧ requests (trace done.2) = requests (trace c) ++ [WriteRegister 8000 0])
  ∧ (∀ code,
       (mode, code) ∈ [("holiday", 0); ("low", 1); ("normal", 2); ("high", 3)] →
       ∀ h, _client c = Some h →
       (first = Ret true →
          done.1 = second
          ∧ requests (trace done.2)
            = requests (trace c) ++ [WriteRegister 8000 1; WriteRegister 8001 code])
       ∧ (first = Ret false →
            done.1 = Ret false
            ∧ requests (trace done.2)
              = requests (trace c) ++ [WriteRegister 8000 1])
       ∧ (first = Ret true → second = Ret false → done.1 = Ret false))
  ∧ (mode ∉ ["wall_unit"; "holiday"; "low"; "normal"; "high"] →
       done = (Ret false, c)).
Proof.
  intros first second done. subst first second done.
  split; [|split].
  - intros -> h Hh. unfold set_airflow_mode.
    rewrite decide_True by done. run_writes.
    split; [done|]. cbn [fst snd]. by rewrite requests_after_op.
  - intros code Hin h Hh.
    assert (mode ≠ "wall_unit"
            ∧ dict_contains AIRFLOW_MODE_TO_SWITCH mode = true
            ∧ dict_item AIRFLOW_MODE_TO_SWITCH mode = Ret code) as (Hne & Hc & Hi).
    { rewrite !elem_of_cons, elem_of_nil in Hin.
      destruct Hin as [Hin|[Hin|[Hin|[Hin|[]]]]]; injection Hin as -> ->;
        by vm_compute. }
    unfold set_airflow_mode. rewrite decide_False by done. rewrite Hc.
    run_writes.
    destruct (write_outcome (wire (sent c))) as [[|]|e]; cbn [negb];
      rewrite ?Hi; run_writes; cbn [fst snd];
      (split; [|split]); intros; try discriminate;
      rewrite ?requests_after_op, <- ?app_assoc; done.
  - intros Hnot. rewrite !not_elem_of_cons in Hnot.
    destruct Hnot as (H0 & H1 & H2 & H3 & H4 & _).
    unfold set_airflow_mode. rewrite decide_False by done.
    unfold AIRFLOW_MODE_TO_SWITCH, dict_contains.
    rewrite !decide_False by done. reflexivity.
Qed.

(** C7: for a label among "Automatic", "Closed", "Open",
    [set_bypass_mode] writes one code to register 6100, and the poll read
    decodes that code back to the same label; for any other label nothing
    is written and the result is failure. *)
Theorem set_bypass_mode_round_trip (mode : string) (c : modbus_client) :
  (mode ∈ ["Automatic"; "Closed"; "Open"] →
     ∃ code,
       (∀ h, _client c = Some h →
          set_bypass_mode wire mode c
          = (write_outcome (wire (sent c)), after_op (WriteRegister 6100 code) c))
       ∧ label BYPASS_MODE_MAP code = VStr mode
       ∧ (∀ t1 t2 data,
            ∃ data', batch_bypass_mode [code; t1; t2] data = Ret data'
                     ∧ data' !! "bypass_mode" = Some (VStr mode)))
  ∧ (mode ∉ ["Automatic"; "Closed"; "Open"] →
       set_bypass_mode wire mode c = (Ret false, c)).
Proof.
  split.
  - intros Hin.
    assert (∃ code, dict_contains BYPASS_MODE_REVERSE mode = true
                    ∧ dict_item BYPASS_MODE_REVERSE mode = Ret code
                    ∧ label BYPASS_MODE_MAP code = VStr mode) as (code & Hc & Hi & Hl).
    { rewrite !elem_of_cons, elem_of_nil in Hin.
      destruct Hin as [->|[->|[->|[]]]];
        [exists 0 | exists 1 | exists 2]; by vm_compute. }
    exists code. split; [|split].
    + intros h Hh. unfold set_bypass_mode. rewrite Hc. cbn [negb].
      unfold mbind, M_mbind, M_bind, lift. rewrite Hi.
      by erewrite _write_register_run.
    + exact Hl.
    + intros t1 t2 data. eexists. split; [reflexivity|].
      rewrite !lookup_insert_ne by done. rewrite lookup_insert_eq.
      by rewrite Hl.
  - intros Hnot. rewrite !not_elem_of_cons in Hnot.
    destruct Hnot as (H0 & H1 & H2 & _).
    unfold set_bypass_mode.
    change BYPASS_MODE_REVERSE with [("Automatic", 0); ("Closed", 1); ("Open", 2)].
    unfold dict_contains. rewrite !decide_False by done. reflexivity.
Qed.

End CommandProperties.

Lemma set_custom_flow_rate_clamps_then_writes_witness :
  requests (trace (set_custom_flow_rate sample_wire 500 sample_client).2)
  = [WriteRegister 8000 2; WriteRegister 8002 400]
  ∧ (set_custom_flow_rate sample_wire 500 sample_client).1 = Ret false
  ∧ Z.max 0 (Z.min (-10) 400) = 0.
Proof.
  pose proof (set_custom_flow_rate_clamps_then_writes sample_wire 500
                sample_client _ eq_refl) as (_ & _ & _ & _ & Hok & _).
  destruct (Hok eq_refl) as [Hres Hreq].
  split; [exact Hreq|]. split; [exact Hres|].
  apply (set_custom_flow_rate_clamps_then_writes sample_wire (-10)
           sample_client _ eq_refl). lia.
Defined.

Lemma set_airflow_mode_writes_witness :
  requests (trace (set_airflow_mode sample_wire "high" sample_client).2)
  = [WriteRegister 8000 1; WriteRegister 8001 3]
  ∧ set_airflow_mode sample_wire "invalid" sample_client
    = (Ret false, sample_client).
Proof.
  pose proof (set_airflow_mode_writes sample_wire "high" sample_client)
    as (_ & Hpreset & _).
  pose proof (set_airflow_mode_writes sample_wire "invalid" sample_client)
    as (_ & _ & Hother).
  split.
  - assert (("high", 3) ∈ [("holiday", 0); ("low", 1); ("normal", 2); ("high", 3)])
      as Hin by (do 3 apply list_elem_of_further; apply list_elem_of_here).
    destruct (Hpreset 3 Hin _ eq_refl) as (Hok & _).
    exact (proj2 (Hok eq_refl)).
  - apply Hother.
    intros Hin. rewrite !elem_of_cons, elem_of_nil in Hin.
    destruct Hin as [H|[H|[H|[H|[H|[]]]]]]; discriminate H.
Defined.

Lemma set_bypass_mode_round_trip_witness :
  (∃ code,
     set_bypass_mode sample_wire "Closed" sample_client
     = (Ret true, after_op (WriteRegister 6100 code) sample_client)
     ∧ label BYPASS_MODE_MAP code = VStr "Closed")
  ∧ set_bypass_mode sample_wire "closed" sample_client
    = (Ret false, sample_client).
Proof.
  pose proof (set_bypass_mode_round_trip sample_wire "Closed" sample_client)
    as [Hin _].
  pose proof (set_bypass_mode_round_trip sample_wire "closed" sample_client)
    as [_ Hout].
  split.
  - destruct Hin as (code & Hrun & Hlabel & _).
    { apply list_elem_of_further, list_elem_of_here. }
    exists code. split; [exact (Hrun _ eq_refl) | exact Hlabel].
  - apply Hout.
    intros Hin'. rewrite !elem_of_cons, elem_of_nil in Hin'.
    destruct Hin' as [H|[H|[H|[]]]]; discriminate H.
Defined.

(** ** A client that was never connected *)

Section NeverConnected.

Variable wire : nat → result response.

Variable link : nat → result bool.

Lemma never_connected_no_handle c :
  never_connected wire c → _client c = None ∧ requests (trace c) = [].
Proof.
  induction 1 as [cfg|a n c _ [IH1 IH2]|a n c _ [IH1 IH2]|a v c _ [IH1 IH2]
                  |c _ [IH1 IH2]].
  - done.
  - rewrite _read_input_registers_no_handle by done.
    unfold after_op_no_handle; simpl. by rewrite requests_app, IH2.
  - rewrite _read_holding_registers_no_handle by done.
    unfold after_op_no_handle; simpl. by rewrite requests_app, IH2.
  - rewrite _write_register_no_handle by done.
    unfold after_op_no_handle; simpl. by rewrite requests_app, IH2.
  - unfold close. by rewrite IH1.
Qed.

Lemma connect_sets_handle c : ∃ h, _client (connect link c).2 = Some h.
Proof.
  unfold connect, try_except, dial, get_cfg, set_client, emit, mbind, M_mbind,
    M_bind, mret, M_mret, M_ret.
  simpl. repeat case_decide; simpl;
    destruct (link (dialled c)); simpl; eauto.
Qed.

(** C10: on a client on which [connect] was never called, every register
    read or write raises [AttributeError] (which the primitives do not
    catch) and nothing reaches the wire; a primitive that returns the
    failure result ran on a client that has a handle, and once [connect]
    has been attempted the primitives return what the transport's outcome
    maps to. *)
Theorem never_connected_raises (c : modbus_client) :
  never_connected wire c →
  caught AttributeError = false
  ∧ (∀ address count,
       (_read_input_registers wire address count c).1 = Raise AttributeError
       ∧ requests (trace (_read_input_registers wire address count c).2) = [])
  ∧ (∀ address count,
       (_read_holding_registers wire address count c).1 = Raise AttributeError
       ∧ requests (trace (_read_holding_registers wire address count c).2) = [])
  ∧ (∀ address value,
       (_write_register wire address value c).1 = Raise AttributeError
       ∧ requests (trace (_write_register wire address value c).2) = [])
  ∧ (∀ c' address count value,
       (_read_input_registers wire address count c').1 = Ret None
       ∨ (_read_holding_registers wire address count c').1 = Ret None
       ∨ (_write_register wire address value c').1 = Ret false →
       _client c' ≠ None)
  ∧ (∀ c' address count value,
       let c'' := (connect link c').2 in
       (_read_input_registers wire address count c'').1
       = read_outcome (wire (sent c''))
       ∧ (_read_holding_registers wire address count c'').1
         = read_outcome (wire (sent c''))
       ∧ (_write_register wire address value c'').1
         = write_outcome (wire (sent c''))).
Proof.
  intros Hnc. destruct (never_connected_no_handle c Hnc) as [Hnone Hreq].
  split; [done|].
  split; [|split; [|split; [|split]]].
  - intros a n. rewrite _read_input_registers_no_handle by done.
    split; [done|]. unfold after_op_no_handle; simpl.
    by rewrite requests_app, Hreq.
  - intros a n. rewrite _read_holding_registers_no_handle by done.
    split; [done|]. unfold after_op_no_handle; simpl.
    by rewrite requests_app, Hreq.
  - intros a v. rewrite _write_register_no_handle by done.
    split; [done|]. unfold after_op_no_handle; simpl.
    by rewrite requests_app, Hreq.
  - intros c' a n v Hfail Hc'.
    rewrite _read_input_registers_no_handle, _read_holding_registers_no_handle,
      _write_register_no_handle in Hfail by done.
    simpl in Hfail. by destruct Hfail as [?|[?|?]].
  - intros c' a n v c''. destruct (connect_sets_handle c') as [h Hh].
    subst c''.
    erewrite _read_input_registers_run, _read_holding_registers_run,
      _write_register_run by eassumption.
    done.
Qed.

End NeverConnected.

Lemma never_connected_raises_witness :
  never_connected sample_wire (__init__ sample_config)
  ∧ (_write_register sample_wire 8000 2 (__init__ sample_config)).1
    = Raise AttributeError
  ∧ (_read_input_registers sample_wire 4020 5 (__init__ sample_config)).1
    = Raise AttributeError.
Proof.
  pose proof (never_connected_raises sample_wire (λ _, Ret true)
                (__init__ sample_config) (nc_init sample_wire sample_config))
    as (_ & Hin & _ & Hw & _).
  split; [apply nc_init|]. split.
  - exact (proj1 (Hw 8000 2)).
  - exact (proj1 (Hin 4020 5)).
Defined.

(** ** The poll cycle as a table of batches *)

Section PollTable.

Variable wire : nat → result response.

(** [read_all_data] is its first batch followed by the table. *)
Lemma read_all_data_poll :
  read_all_data wire
  = (regs ← read_batch wire (b_request first_batch);
     match regs with
     | None => mret None
     | Some regs =>
         data ← lift (b_body first_batch regs ∅);
         poll wire optional_batches data (λ data, mret (Some data))
     end).
Proof. reflexivity. Qed.

End PollTable.

(** *** What each batch body does *)

Ltac exact_length regs Hlen :=
  vm_compute in Hlen;
  do 9 (try destruct regs as [|? regs]); try discriminate Hlen.

Ltac run_body :=
  cbn [b_body b_keys first_batch batch_active_function batch_supply_fan
       batch_exhaust_fan batch_bypass_status batch_preheater batch_frost
       batch_temperatures batch_filter_status batch_operating_hours batch_co2
       batch_error_status batch_serial_number batch_flow_presets
       batch_bypass_mode batch_filter_warning_days batch_remote_control
       getitem lookup list_lookup mbind result_mbind result_bind mret
       result_mret].

Ltac batch_stores_tac :=
  let regs := fresh "regs" in
  let Hlen := fresh "Hlen" in
  intros regs Hlen; exact_length regs Hlen;
  unfold fields; run_body; repeat (case_decide; run_body);
  (split;
   [ rewrite ?dom_insert_L, dom_empty_L; compute_done
   | intros data; run_body; f_equal;
     rewrite <- ?insert_union_l; rewrite (left_id_L ∅ (∪)); reflexivity ]).

Lemma all_batches_store : Forall batch_stores all_batches.
Proof.
  unfold all_batches, optional_batches.
  repeat apply Forall_cons_2; [..|apply Forall_nil_2]; batch_stores_tac.
Qed.

Lemma all_batches_read : Forall batch_reads all_batches.
Proof.
  unfold all_batches, optional_batches.
  repeat apply Forall_cons_2; [..|apply Forall_nil_2];
    (split; [vm_compute; lia | cbn; eauto]).
Qed.

(** No field is stored by two batches. *)
Lemma all_batches_keys_NoDup : NoDup (concat (b_keys <$> all_batches)).
Proof. compute_done. Qed.

Lemma raises_in_bind {A B} (P : exn → Prop) (f : A → result B) (r : result A) :
  raises_in P r → (∀ a, raises_in P (f a)) → raises_in P (r ≫= f).
Proof.
  intros Hr Hf e. destruct r as [a|e']; simpl.
  - apply Hf.
  - intros [= ->]. by apply Hr.
Qed.

Lemma raises_in_getitem regs i : raises_in (λ e, e = IndexError) (getitem regs i).
Proof. intros e. unfold getitem. destruct (regs !! i); by intros [= <-]. Qed.

Lemma raises_in_ret {A} (P : exn → Prop) (a : A) : raises_in P (mret a).
Proof. intros e. discriminate. Qed.

Ltac body_raises_tac :=
  intros ? ?;
  cbv beta iota zeta delta
    [b_body first_batch batch_active_function batch_supply_fan
     batch_exhaust_fan batch_bypass_status batch_preheater batch_frost
     batch_temperatures batch_filter_status batch_operating_hours batch_co2
     batch_error_status batch_serial_number batch_flow_presets
     batch_bypass_mode batch_filter_warning_days batch_remote_control];
  repeat first
    [ apply raises_in_ret
    | apply raises_in_bind; [try apply raises_in_getitem | intros ?]
    | case_decide ].

Lemma all_batches_raise_IndexError : Forall body_raises_IndexError all_batches.
Proof.
  unfold all_batches, optional_batches.
  repeat apply Forall_cons_2; [..|apply Forall_nil_2]; body_raises_tac.
Qed.

(** *** Running the table *)

Section PollProperties.

Variable wire : nat → result response.

Lemma read_batch_run b c h :
  batch_reads b → _client c = Some h →
  read_batch wire (b_request b) c
  = (read_outcome (wire (sent c)), after_op (b_request b) c).
Proof.
  intros [_ (address & count & [-> | ->])] Hh; simpl.
  - by erewrite _read_input_registers_run.
  - by erewrite _read_holding_registers_run.
Qed.

Lemma batch_fails_not_registers n :
  batch_fails wire n →
  match wire n with Ret (Registers _) => False | _ => True end.
Proof. unfold batch_fails. by destruct (wire n) as [[?|]|?]. Qed.

Lemma well_formed_tail (b : batch) (bs : list batch) n :
  (∀ i b', (b :: bs) !! i = Some b' → well_formed wire b' (n + i)) →
  well_formed wire b n ∧ (∀ i b', bs !! i = Some b' → well_formed wire b' (S n + i)).
Proof.
  intros H. split.
  - specialize (H 0%nat b eq_refl). by rewrite Nat.add_0_r in H.
  - intros i b' Hi. specialize (H (S i) b' Hi).
    by rewrite Nat.add_succ_r in H.
Qed.

Lemma poll_run {A} (bs : list batch) :
  Forall batch_stores bs → Forall batch_reads bs →
  ∀ (data : dict) (c : modbus_client) h (rest : dict → M modbus_client A),
    _client c = Some h →
    (∀ i b, bs !! i = Some b → well_formed wire b (sent c + i)) →
    poll wire bs data rest c = rest (collect wire bs (sent c) data) (after_ops bs c).
Proof.
  induction bs as [|b bs IH]; intros Hst Hrd data c h rest Hh Hwf; [done|].
  apply Forall_cons_1 in Hst as [Hb Hst]. apply Forall_cons_1 in Hrd as [Hr Hrd].
  apply well_formed_tail in Hwf as [Hwf0 Hwf].
  cbn [poll collect after_ops]. unfold mbind, M_mbind, M_bind.
  erewrite read_batch_run by eassumption.
  destruct Hwf0 as [Hfail | (regs & Hw & Hlen)].
  - pose proof (batch_fails_not_registers _ Hfail) as Hnot.
    unfold batch_fails in Hfail. rewrite Hfail. cbn [when_regs mret M_mret M_ret].
    erewrite IH; try eassumption.
    rewrite after_op_sent. by destruct (wire (sent c)) as [[?|]|?].
  - rewrite Hw. cbn [read_outcome].
    destruct (Hb regs Hlen) as [_ Hbody].
    destruct regs as [|r rs]; [destruct Hr as [Hr _]; simpl in Hlen; lia|].
    cbn [when_regs lift]. rewrite Hbody.
    erewrite IH; try eassumption.
    by rewrite after_op_sent.
Qed.

Lemma keys_of_fields b regs k :
  batch_stores b → length regs = Z.to_nat (batch_count b) →
  (k ∈ b_keys b ↔ is_Some (fields b regs !! k)).
Proof.
  intros Hb Hlen. destruct (Hb regs Hlen) as [Hdom _].
  by rewrite <- elem_of_dom, Hdom, elem_of_list_to_set.
Qed.

Lemma elem_of_table_keys (bs : list batch) k :
  k ∈ concat (b_keys <$> bs) ↔ ∃ b, b ∈ bs ∧ k ∈ b_keys b.
Proof.
  induction bs as [|b0 bs IH].
  - split; [by intros ?%elem_of_nil | by intros (b & ?%elem_of_nil & _)].
  - rewrite fmap_cons. cbn [concat]. rewrite elem_of_app, IH. split.
    + intros [Hk | (b & Hb & Hk)].
      * exists b0. split; [apply list_elem_of_here | done].
      * exists b. split; [by apply list_elem_of_further | done].
    + intros (b & Hb & Hk). apply elem_of_cons in Hb as [-> | Hb]; eauto.
Qed.

(** A field of no batch of the table is left as it was. *)
Lemma collect_other (bs : list batch) n data k :
  Forall batch_stores bs →
  (∀ i b, bs !! i = Some b → well_formed wire b (n + i)) →
  k ∉ concat (b_keys <$> bs) →
  collect wire bs n data !! k = data !! k.
Proof.
  revert n data. induction bs as [|b bs IH]; intros n data Hst Hwf Hk; [done|].
  apply Forall_cons_1 in Hst as [Hb Hst].
  apply well_formed_tail in Hwf as [Hwf0 Hwf].
  rewrite fmap_cons in Hk. cbn [concat] in Hk.
  apply not_elem_of_app in Hk as [Hkb Hk].
  cbn [collect]. rewrite IH by done.
  destruct Hwf0 as [Hfail | (regs & Hw & Hlen)].
  - apply batch_fails_not_registers in Hfail.
    by destruct (wire n) as [[?|]|?].
  - rewrite Hw. apply lookup_union_r.
    rewrite (keys_of_fields b regs k Hb Hlen) in Hkb.
    by apply eq_None_not_Some.
Qed.

(** A field of a batch that returned its registers holds what the body
    decoded from them. *)
Lemma collect_present (bs : list batch) n data i b regs k :
  Forall batch_stores bs →
  (∀ i b, bs !! i = Some b → well_formed wire b (n + i)) →
  NoDup (concat (b_keys <$> bs)) →
  bs !! i = Some b → batch_returns wire b (n + i) regs → k ∈ b_keys b →
  collect wire bs n data !! k = fields b regs !! k.
Proof.
  revert n data i. induction bs as [|b0 bs IH]; intros n data i Hst Hwf Hnd Hi Hret Hk;
    [done|].
  apply Forall_cons_1 in Hst as [Hb Hst].
  apply well_formed_tail in Hwf as [Hwf0 Hwf].
  rewrite fmap_cons in Hnd. cbn [concat] in Hnd.
  apply NoDup_app in Hnd as (_ & Hdisj & Hnd).
  cbn [collect]. destruct i as [|i].
  - injection Hi as ->. rewrite Nat.add_0_r in Hret.
    destruct Hret as [Hw Hlen].
    rewrite collect_other by auto. rewrite Hw.
    destruct (proj1 (keys_of_fields b regs k Hb Hlen) Hk) as [v Hv].
    rewrite Hv. by apply lookup_union_Some_l.
  - rewrite Nat.add_succ_r in Hret. simpl in Hi. by apply (IH (S n) _ i).
Qed.

(** A field of a batch that failed stays absent. *)
Lemma collect_absent (bs : list batch) n data i b k :
  Forall batch_stores bs →
  (∀ i b, bs !! i = Some b → well_formed wire b (n + i)) →
  NoDup (concat (b_keys <$> bs)) →
  bs !! i = Some b → batch_fails wire (n + i) → k ∈ b_keys b →
  data !! k = None →
  collect wire bs n data !! k = None.
Proof.
  revert n data i. induction bs as [|b0 bs IH];
    intros n data i Hst Hwf Hnd Hi Hfail Hk Hdata; [done|].
  apply Forall_cons_1 in Hst as [Hb Hst].
  apply well_formed_tail in Hwf as [Hwf0 Hwf].
  rewrite fmap_cons in Hnd. cbn [concat] in Hnd.
  apply NoDup_app in Hnd as (_ & Hdisj & Hnd).
  cbn [collect]. destruct i as [|i].
  - injection Hi as ->. rewrite Nat.add_0_r in Hfail.
    rewrite collect_other by auto.
    apply batch_fails_not_registers in Hfail.
    by destruct (wire n) as [[?|]|?].
  - rewrite Nat.add_succ_r in Hfail. simpl in Hi.
    apply (IH (S n) _ i); try done.
    assert (k ∉ b_keys b0) as Hk0.
    { intros Hin. apply (Hdisj k Hin).
      apply list_elem_of_lookup_2 in Hi.
      apply elem_of_table_keys. eauto. }
    destruct Hwf0 as [Hf | (regs & Hw & Hlen)].
    + apply batch_fails_not_registers in Hf.
      by destruct (wire n) as [[?|]|?].
    + rewrite Hw. apply lookup_union_None_2; [|done].
      rewrite (keys_of_fields b0 regs k Hb Hlen) in Hk0.
      by apply eq_None_not_Some.
Qed.

(** Every field of the snapshot was there before or belongs to a batch
    of the table. *)
Lemma collect_origin (bs : list batch) n data k :
  Forall batch_stores bs →
  (∀ i b, bs !! i = Some b → well_formed wire b (n + i)) →
  is_Some (collect wire bs n data !! k) →
  is_Some (data !! k) ∨ ∃ b, b ∈ bs ∧ k ∈ b_keys b.
Proof.
  intros Hst Hwf Hsome.
  destruct (decide (k ∈ concat (b_keys <$> bs))) as [Hin | Hout].
  - right. by apply elem_of_table_keys.
  - left. by rewrite collect_other in Hsome.
Qed.

Lemma collect_cons b bs n data :
  collect wire (b :: bs) n data
  = collect wire bs (S n)
      (match wire n with
       | Ret (Registers regs) => fields b regs ∪ data
       | _ => data
       end).
Proof. reflexivity. Qed.

Lemma collect_first regs0 n :
  wire n = Ret (Registers regs0) →
  collect wire all_batches n ∅
  = collect wire optional_batches (S n) (fields first_batch regs0 ∪ ∅).
Proof. intros Hw. unfold all_batches. rewrite collect_cons. by rewrite Hw. Qed.

Lemma all_batches_well_formed n regs0 :
  batch_returns wire first_batch n regs0 →
  (∀ i b, optional_batches !! i = Some b → well_formed wire b (S n + i)) →
  ∀ i b, all_batches !! i = Some b → well_formed wire b (n + i).
Proof.
  intros Hret Hwf [|i] b Hi.
  - injection Hi as <-. rewrite Nat.add_0_r. right. eauto.
  - rewrite Nat.add_succ_r. by apply Hwf.
Qed.

(** C1: when the first batch (5 input registers from 4020) fails,
    [read_all_data] returns no snapshot and reads nothing more; when it
    succeeds, a snapshot is returned whatever the later batches do: the
    fields of a later batch that failed are absent, the fields of every
    batch that succeeded are present with the values decoded from its own
    registers, and the snapshot holds no other field. *)
Theorem read_all_data_first_batch_load_bearing (c : modbus_client) h :
  _client c = Some h →
  let n := sent c in
  let done := read_all_data wire c in
  (batch_fails wire n → done = (Ret None, after_op (ReadInput 4020 5) c))
  ∧ (∀ regs0,
       batch_returns wire first_batch n regs0 →
       (∀ i b, optional_batches !! i = Some b → well_formed wire b (S n + i)) →
       ∃ data,
         done.1 = Ret (Some data)
         ∧ (∀ k, k ∈ b_keys first_batch →
              is_Some (data !! k) ∧ data !! k = fields first_batch regs0 !! k)
         ∧ (∀ i b, optional_batches !! i = Some b →
              (batch_fails wire (S n + i) → ∀ k, k ∈ b_keys b → data !! k = None)
              ∧ (∀ regs, batch_returns wire b (S n + i) regs →
                   ∀ k, k ∈ b_keys b →
                     is_Some (data !! k) ∧ data !! k = fields b regs !! k))
         ∧ (∀ k, is_Some (data !! k) → ∃ b, b ∈ all_batches ∧ k ∈ b_keys b)).
Proof.
  intros Hh n done. subst n done.
  pose proof all_batches_store as Hst. pose proof all_batches_read as Hrd.
  pose proof all_batches_keys_NoDup as Hnd.
  assert (batch_stores first_batch ∧ Forall batch_stores optional_batches)
    as [Hst0 Hst'] by (by apply Forall_cons_1 in Hst).
  assert (batch_reads first_batch ∧ Forall batch_reads optional_batches)
    as [Hrd0 Hrd'] by (by apply Forall_cons_1 in Hrd).
  rewrite read_all_data_poll.
  split.
  - intros Hfail. unfold batch_fails in Hfail.
    unfold mbind, M_mbind, M_bind.
    erewrite read_batch_run by eassumption. by rewrite Hfail.
  - intros regs0 Hret Hwf.
    pose proof (all_batches_well_formed _ _ Hret Hwf) as Hwf_all.
    destruct Hret as [Hw Hlen].
    exists (collect wire all_batches (sent c) ∅).
    assert (∀ i b regs k,
              all_batches !! i = Some b → batch_returns wire b (sent c + i) regs →
              k ∈ b_keys b →
              is_Some (collect wire all_batches (sent c) ∅ !! k)
              ∧ collect wire all_batches (sent c) ∅ !! k = fields b regs !! k)
      as Hpresent.
    { intros i b regs k Hi Hr Hk.
      rewrite (collect_present all_batches (sent c) ∅ i b regs k) by done.
      split; [|done].
      apply (keys_of_fields b regs k); [|by destruct Hr|done].
      exact (Forall_lookup_1 _ _ _ _ Hst Hi). }
    split; [|split; [|split]].
    + destruct (Hst0 regs0 Hlen) as [_ Hbody].
      unfold mbind, M_mbind, M_bind, lift.
      erewrite read_batch_run by eassumption.
      rewrite Hw. cbn [read_outcome]. rewrite Hbody.
      erewrite poll_run;
        [ | exact Hst' | exact Hrd' | rewrite after_op_client; exact Hh
          | rewrite after_op_sent; exact Hwf ].
      rewrite after_op_sent, (collect_first regs0) by done. reflexivity.
    + intros k Hk. apply (Hpresent 0%nat first_batch regs0 k); [done| |done].
      rewrite Nat.add_0_r. by split.
    + intros i b Hi. split.
      * intros Hfail k Hk.
        apply (collect_absent all_batches (sent c) ∅ (S i) b k); try done.
        by rewrite Nat.add_succ_r.
      * intros regs Hr k Hk. apply (Hpresent (S i) b regs k); [done| |done].
        by rewrite Nat.add_succ_r.
    + intros k Hk.
      apply collect_origin in Hk as [[? Hk] | Hk]; [|done|done|done].
      by rewrite lookup_empty in Hk.
Qed.

End PollProperties.

Lemma read_all_data_first_batch_load_bearing_witness :
  ∃ data,
    (read_all_data poll_wire sample_client).1 = Ret (Some data)
    ∧ data !! "supply_fan_speed" = None
    ∧ data !! "exhaust_fan_speed" = Some (VInt 1500)
    ∧ data !! "active_function" = Some (VStr "Auto Modbus").
Proof.
  destruct (read_all_data_first_batch_load_bearing poll_wire sample_client _ eq_refl)
    as [_ Hok].
  destruct (Hok [12; 1; 2; 0xFF38; 215]) as (data & Hres & Hfirst & Hopt & _).
  { split; reflexivity. }
  { intros i b Hi.
    do 15 (destruct i as [|i];
           [injection Hi as <-;
            first [left; reflexivity | right; eexists; split; reflexivity]|]).
    discriminate Hi. }
  exists data. split; [exact Hres|]. split; [|split].
  - apply (proj1 (Hopt 0%nat _ eq_refl)); [reflexivity|].
    do 4 apply list_elem_of_further. apply list_elem_of_here.
  - destruct (proj2 (Hopt 1%nat _ eq_refl)
                [4; 0; 150; 0; 1500; 0; 215; 1001] (conj eq_refl eq_refl)
                "exhaust_fan_speed") as [_ ->].
    + do 2 apply list_elem_of_further. apply list_elem_of_here.
    + vm_compute. reflexivity.
  - destruct (Hfirst "active_function") as [_ ->].
    + apply list_elem_of_here.
    + vm_compute. reflexivity.
Defined.

(** ** Poll coordinator *)

Lemma warnings_app l1 l2 : warnings (l1 ++ l2) = (warnings l1 + warnings l2)%nat.
Proof.
  induction l1 as [|r l1 IH]; [done|].
  destruct r; simpl; by rewrite ?IH.
Qed.

Lemma connect_returns link c : ∃ b, (connect link c).1 = Ret b.
Proof.
  unfold connect, try_except, dial, get_cfg, set_client, emit, mbind, M_mbind,
    M_bind, mret, M_mret, M_ret.
  simpl. repeat case_decide; simpl;
    destruct (link (dialled c)); simpl; eauto.
Qed.

Lemma close_returns c : (close c).1 = Ret ().
Proof. unfold close. by destruct (_client c). Qed.

Lemma M_raises_in_bind {S A B} (P : exn → Prop) (f : A → M S B) (m : M S A) :
  M_raises_in P m → (∀ a, M_raises_in P (f a)) → M_raises_in P (m ≫= f).
Proof.
  intros Hm Hf s e. unfold mbind, M_mbind, M_bind.
  destruct (m s) as [[a|e'] s'] eqn:Em.
  - apply Hf.
  - intros [= ->]. apply (Hm s). by rewrite Em.
Qed.

Lemma M_raises_in_ret {S A} (P : exn → Prop) (a : A) : M_raises_in P (mret a : M S A).
Proof. intros s e. discriminate. Qed.

Section CoordinatorProperties.

Variable wire : nat → result response.

Variable link : nat → result bool.

(** The transport raises its own exceptions, not the coordinator's. *)
Hypothesis wire_not_UpdateFailed : ∀ n msg, wire n ≠ Raise (UpdateFailed msg).

Lemma read_batch_raises b :
  batch_reads b → M_raises_in not_UpdateFailed (read_batch wire (b_request b)).
Proof.
  intros Hr c e. destruct (_client c) as [h|] eqn:Hh.
  - erewrite read_batch_run by eassumption. cbn [fst].
    unfold read_outcome.
    destruct (wire (sent c)) as [[?|]|e'] eqn:Ew; try discriminate.
    destruct (caught e'); [discriminate|]. intros [= ->] msg ->.
    by apply (wire_not_UpdateFailed (sent c) msg).
  - destruct Hr as [_ (address & count & [-> | ->])]; cbn [read_batch].
    + rewrite _read_input_registers_no_handle by done.
      by intros [= <-] msg.
    + rewrite _read_holding_registers_no_handle by done.
      by intros [= <-] msg.
Qed.

Lemma when_regs_raises b regs data :
  body_raises_IndexError b →
  M_raises_in not_UpdateFailed (when_regs regs (b_body b) data).
Proof.
  intros Hb c e. destruct regs as [[|r rs]|]; try discriminate.
  cbn [when_regs lift fst]. intros ->%Hb. by intros msg.
Qed.

Lemma poll_raises {A} bs (rest : dict → M modbus_client A) :
  Forall batch_reads bs → Forall body_raises_IndexError bs →
  (∀ data, M_raises_in not_UpdateFailed (rest data)) →
  ∀ data, M_raises_in not_UpdateFailed (poll wire bs data rest).
Proof.
  intros Hrd Hix Hrest.
  induction bs as [|b bs IH]; intros data; [apply Hrest|].
  apply Forall_cons_1 in Hrd as [Hr Hrd]. apply Forall_cons_1 in Hix as [Hi Hix].
  cbn [poll]. apply M_raises_in_bind; [by apply read_batch_raises|].
  intros regs. apply M_raises_in_bind; [by apply when_regs_raises|].
  intros data'. by apply IH.
Qed.

Lemma read_all_data_raises : M_raises_in not_UpdateFailed (read_all_data wire).
Proof.
  pose proof all_batches_read as Hrd.
  pose proof all_batches_raise_IndexError as Hix.
  apply Forall_cons_1 in Hrd as [Hr Hrd]. apply Forall_cons_1 in Hix as [Hi Hix].
  rewrite read_all_data_poll.
  apply M_raises_in_bind; [by apply read_batch_raises|].
  intros [regs|]; [|apply M_raises_in_ret].
  apply M_raises_in_bind.
  - intros c e. cbn [lift fst]. intros ->%Hi. by intros msg.
  - intros data. apply poll_raises; [done | done |].
    intros data'. apply M_raises_in_ret.
Qed.

Lemma _maybe_backoff_run self :
  _maybe_backoff self
  = (Ret (),
     if (MAX_FAILURES_BEFORE_BACKOFF <=? _consecutive_failures self)
        && negb (update_interval self =? BACKOFF_INTERVAL)
     then
       {| client := client self;
          _consecutive_failures := _consecutive_failures self;
          update_interval := BACKOFF_INTERVAL;
          _LOGGER := _LOGGER self
            ++ [Warning "Ubbink Vigor unreachable after %s attempts, backing off to %ss poll interval"
                  (_consecutive_failures self) BACKOFF_INTERVAL] |}
     else self).
Proof.
  unfold _maybe_backoff, get_failures, get_interval, log, set_interval,
    mbind, M_mbind, M_bind, mret, M_mret, M_ret.
  destruct (MAX_FAILURES_BEFORE_BACKOFF <=? _consecutive_failures self); simpl.
  - case_decide as Hi.
    + rewrite (proj2 (Z.eqb_neq _ _) Hi). reflexivity.
    + rewrite Hi, Z.eqb_refl. simpl.
      destruct self; simpl in *; by subst.
  - reflexivity.
Qed.

Lemma _async_update_data_halves :
  _async_update_data wire link = (reconnect_if_needed link ;; fetch wire).
Proof. reflexivity. Qed.

Lemma poll_state_backoff cl failures interval logged :
  poll_state
    (_maybe_backoff
       {| client := cl; _consecutive_failures := failures + 1;
          update_interval := interval; _LOGGER := logged |}).2
  = on_failure (failures, interval, warnings logged).
Proof.
  rewrite _maybe_backoff_run. cbn [snd _consecutive_failures update_interval].
  unfold on_failure.
  destruct ((MAX_FAILURES_BEFORE_BACKOFF <=? failures + 1)
            && negb (interval =? BACKOFF_INTERVAL)); unfold poll_state; simpl.
  - rewrite warnings_app. simpl. by rewrite Nat.add_1_r.
  - done.
Qed.

Ltac run_coordinator :=
  unfold mbind, M_mbind, M_bind, on_client, connected, get_failures,
    set_failures, set_interval, raise, log, mret, M_mret, M_ret;
  cbn [client _consecutive_failures update_interval _LOGGER fst snd negb].

Lemma reconnect_effect self :
  match reconnect_if_needed link self with
  | (Ret _, self') => poll_state self' = poll_state self
  | (Raise e, self') =>
      (∃ msg, e = UpdateFailed msg)
      ∧ poll_state self' = on_failure (poll_state self)
  end.
Proof.
  unfold reconnect_if_needed. run_coordinator.
  destruct (match _client (client self) with
            | Some _ => link_up (client self)
            | None => false
            end); run_coordinator.
  { unfold poll_state. simpl. done. }
  destruct (connect_returns link (client self)) as [b Hb].
  destruct (connect link (client self)) as [r cl] eqn:Ec. simpl in Hb. subst r.
  destruct b; run_coordinator.
  - unfold poll_state. simpl. rewrite warnings_app. simpl. by rewrite Nat.add_0_r.
  - pose proof (poll_state_backoff cl (_consecutive_failures self)
                  (update_interval self)
                  (_LOGGER self
                   ++ [Debug "Modbus client disconnected, attempting reconnect"]))
      as Hbo.
    rewrite _maybe_backoff_run in *. cbn [fst snd] in *.
    split; [eauto|]. rewrite Hbo. unfold poll_state.
    rewrite warnings_app. simpl. by rewrite Nat.add_0_r.
Qed.

Lemma fetch_effect self :
  match fetch wire self with
  | (Ret _, self') => poll_state self' = on_success (poll_state self)
  | (Raise (UpdateFailed _), self') =>
      poll_state self' = on_failure (poll_state self)
  | (Raise _, self') => poll_state self' = poll_state self
  end.
Proof.
  unfold fetch. run_coordinator.
  pose proof (read_all_data_raises (client self)) as Hraise.
  destruct (read_all_data wire (client self)) as [[[data|]|e] cl] eqn:Er.
  - run_coordinator. unfold poll_state, on_success. simpl.
    destruct (0 <? _consecutive_failures self); simpl; [|done].
    rewrite warnings_app. simpl. by rewrite Nat.add_0_r.
  - run_coordinator. rewrite _maybe_backoff_run. run_coordinator.
    unfold on_failure, poll_state.
    destruct ((MAX_FAILURES_BEFORE_BACKOFF <=? _consecutive_failures self + 1)
              && negb (update_interval self =? BACKOFF_INTERVAL));
      run_coordinator;
      (match goal with
       | |- context [close ?c] =>
           pose proof (close_returns c) as Hc; destruct (close c) as [rc cl']
       end);
      simpl in Hc; subst rc; simpl; rewrite ?warnings_app; simpl;
      rewrite ?Nat.add_1_r; done.
  - specialize (Hraise e eq_refl).
    destruct e; try done. by destruct (Hraise msg).
Qed.

(** A cycle acts on the poll state as [on_failure] when it raises
    [UpdateFailed], as [on_success] when it returns a snapshot, and leaves it
    alone when something else escapes. *)
Lemma cycle_effect self :
  match _async_update_data wire link self with
  | (Ret _, self') => poll_state self' = on_success (poll_state self)
  | (Raise (UpdateFailed _), self') =>
      poll_state self' = on_failure (poll_state self)
  | (Raise _, self') => poll_state self' = poll_state self
  end.
Proof.
  rewrite _async_update_data_halves. unfold mbind at 1, M_mbind, M_bind.
  pose proof (reconnect_effect self) as Hre.
  destruct (reconnect_if_needed link self) as [[[]|e] self1].
  - pose proof (fetch_effect self1) as Hfe. rewrite <- Hre.
    by destruct (fetch wire self1) as [[?|?] ?].
  - destruct Hre as [[msg ->] Hre]. done.
Qed.

Lemma on_failure_inv failures interval warned :
  poll_inv (failures, interval, warned) →
  on_failure (failures, interval, warned)
  = (failures + 1,
     (if MAX_FAILURES_BEFORE_BACKOFF <=? failures + 1
      then BACKOFF_INTERVAL else DEFAULT_SCAN_INTERVAL),
     (if failures + 1 =? MAX_FAILURES_BEFORE_BACKOFF then S warned else warned)).
Proof.
  unfold poll_inv, on_failure, MAX_FAILURES_BEFORE_BACKOFF, BACKOFF_INTERVAL,
    DEFAULT_SCAN_INTERVAL.
  intros [Hf ->].
  destruct (3 <=? failures) eqn:H3, (3 <=? failures + 1) eqn:H31,
    (failures + 1 =? 3) eqn:He; simpl; try reflexivity; lia.
Qed.

Lemma on_success_inv failures interval warned :
  poll_inv (failures, interval, warned) →
  on_success (failures, interval, warned) = (0, DEFAULT_SCAN_INTERVAL, warned).
Proof.
  unfold poll_inv, on_success, MAX_FAILURES_BEFORE_BACKOFF.
  intros [Hf ->].
  destruct (0 <? failures) eqn:H0; [done|].
  assert (failures = 0) as -> by lia. done.
Qed.

Lemma poll_inv_failure st : poll_inv st → poll_inv (on_failure st).
Proof.
  destruct st as [[failures interval] warned]. intros Hinv.
  rewrite on_failure_inv by done. destruct Hinv as [Hf _].
  split; [lia|done].
Qed.

Lemma poll_inv_success st : poll_inv st → poll_inv (on_success st).
Proof.
  destruct st as [[failures interval] warned]. intros Hinv.
  rewrite on_success_inv by done. by split.
Qed.

Lemma reachable_inv self : reachable wire link self → poll_inv (poll_state self).
Proof.
  induction 1 as [cl|self _ IH|self cl _ IH].
  - by split.
  - pose proof (cycle_effect self) as Hc.
    destruct (_async_update_data wire link self) as [[d|e] self'];
      cbn [snd]; [|destruct e]; rewrite Hc;
      auto using poll_inv_failure, poll_inv_success.
  - exact IH.
Qed.

Lemma outage_effect n self self' :
  poll_inv (poll_state self) → _consecutive_failures self = 0 →
  outage wire link n self self' →
  poll_inv (poll_state self')
  ∧ poll_state self'
    = (Z.of_nat n,
       (if MAX_FAILURES_BEFORE_BACKOFF <=? Z.of_nat n
        then BACKOFF_INTERVAL else DEFAULT_SCAN_INTERVAL),
       (warnings (_LOGGER self)
        + if (MAX_FAILURES_BEFORE_BACKOFF <=? Z.of_nat n)%Z then 1 else 0)%nat).
Proof.
  intros Hinv H0. induction 1 as [self|n self self' cl msg _ IH Hfail].
  - split; [done|]. destruct Hinv as [_ Hi]. unfold poll_state in *.
    rewrite H0 in *. rewrite Hi. simpl. by rewrite Nat.add_0_r.
  - destruct (IH Hinv H0) as [Hinv' Hst].
    pose proof (cycle_effect (with_client cl self')) as Hc.
    destruct (_async_update_data wire link (with_client cl self'))
      as [r self''].
    cbn [fst snd] in *. subst r.
    change (poll_state (with_client cl self')) with (poll_state self') in Hc.
    rewrite Hc. split; [by apply poll_inv_failure|].
    rewrite Hst in *. rewrite on_failure_inv by done.
    unfold MAX_FAILURES_BEFORE_BACKOFF.
    replace (Z.of_nat (S n)) with (Z.of_nat n + 1) by lia.
    destruct (3 <=? Z.of_nat n) eqn:H3, (3 <=? Z.of_nat n + 1) eqn:H31,
      (Z.of_nat n + 1 =? 3) eqn:He; try lia; f_equal; lia.
Qed.

(** C2: from zero failures and the 30 s interval, every failed cycle
    adds one to the consecutive-failure counter; the interval is 120 s
    whenever the counter is 3 or more; the switch to 120 s, with its warning,
    happens on the third failure of an outage wire link only; a cycle that returns a
    snapshot sets the counter to 0 and the interval to 30 s. *)
Theorem backoff_state_machine (self : coordinator) :
  reachable wire link self →
  let cycle := _async_update_data wire link self in
  let self' := cycle.2 in
  (∀ msg, cycle.1 = Raise (UpdateFailed msg) →
     _consecutive_failures self' = _consecutive_failures self + 1
     ∧ (3 ≤ _consecutive_failures self' → update_interval self' = 120)
     ∧ (_consecutive_failures self' < 3 → update_interval self' = 30)
     ∧ warnings (_LOGGER self')
       = (warnings (_LOGGER self)
          + if (_consecutive_failures self' =? 3)%Z then 1 else 0)%nat)
  ∧ (∀ data, cycle.1 = Ret data →
       _consecutive_failures self' = 0
       ∧ update_interval self' = 30
       ∧ warnings (_LOGGER self') = warnings (_LOGGER self))
  ∧ (_consecutive_failures self = 0 →
     ∀ n self1, outage wire link n self self1 →
       _consecutive_failures self1 = Z.of_nat n
       ∧ update_interval self1 = (if 3 <=? Z.of_nat n then 120 else 30)
       ∧ warnings (_LOGGER self1)
         = (warnings (_LOGGER self)
            + if (3 <=? Z.of_nat n)%Z then 1 else 0)%nat).
Proof.
  intros Hreach cycle self'. subst cycle self'.
  pose proof (reachable_inv self Hreach) as Hinv.
  pose proof (cycle_effect self) as Hc.
  destruct (_async_update_data wire link self) as [r self'].
  cbn [fst snd]. unfold poll_state in Hinv.
  split; [|split].
  - intros msg ->. cbv beta iota in Hc. unfold poll_state in Hc.
    rewrite on_failure_inv in Hc by done.
    injection Hc as Hf Hi Hw. rewrite Hf, Hi, Hw.
    unfold MAX_FAILURES_BEFORE_BACKOFF, BACKOFF_INTERVAL, DEFAULT_SCAN_INTERVAL.
    split; [done|]. split; [|split].
    + intros H3. by rewrite (proj2 (Z.leb_le _ _) H3).
    + intros H3. by rewrite (proj2 (Z.leb_gt _ _) H3).
    + destruct (_ =? 3); lia.
  - intros data ->. cbv beta iota in Hc. unfold poll_state in Hc.
    rewrite on_success_inv in Hc by done.
    by injection Hc as -> -> ->.
  - intros H0 n self1 Hout.
    destruct (outage_effect n self self1 Hinv H0 Hout) as [_ Hst].
    by injection Hst as -> -> ->.
Qed.

End CoordinatorProperties.

Lemma poll_wire_not_UpdateFailed n msg : poll_wire n ≠ Raise (UpdateFailed msg).
Proof.
  unfold poll_wire.
  do 16 (destruct n as [|n]; [discriminate|]). discriminate.
Qed.

Lemma backoff_state_machine_witness :
  let down := sample_cycle (sample_cycle (sample_cycle fresh_coordinator)) in
  let up := sample_cycle down in
  reachable poll_wire recovering_link down
  ∧ _consecutive_failures down = 3 ∧ update_interval down = 120
  ∧ warnings (_LOGGER down) = 1%nat
  ∧ _consecutive_failures up = 0 ∧ update_interval up = 30.
Proof.
  intros down up.
  set (msg := "Cannot connect to Ubbink Vigor – check bridge device").
  assert (reachable poll_wire recovering_link down) as Hreach
    by (do 3 apply reach_cycle; apply reach_init).
  assert (outage poll_wire recovering_link 3 fresh_coordinator down) as Hout.
  { apply (outage_failed poll_wire recovering_link 2 fresh_coordinator
             (sample_cycle (sample_cycle fresh_coordinator))
             (client (sample_cycle (sample_cycle fresh_coordinator))) msg);
      [|reflexivity].
    apply (outage_failed poll_wire recovering_link 1 fresh_coordinator
             (sample_cycle fresh_coordinator)
             (client (sample_cycle fresh_coordinator)) msg); [|reflexivity].
    apply (outage_failed poll_wire recovering_link 0 fresh_coordinator
             fresh_coordinator (client fresh_coordinator) msg); [|reflexivity].
    apply outage_start. }
  destruct (backoff_state_machine poll_wire recovering_link
              poll_wire_not_UpdateFailed fresh_coordinator
              (reach_init poll_wire recovering_link _)) as (_ & _ & Houtage).
  destruct (Houtage eq_refl 3%nat down Hout) as (Hf & Hi & Hw).
  destruct (backoff_state_machine poll_wire recovering_link
              poll_wire_not_UpdateFailed down Hreach) as (_ & Hsucc & _).
  assert (returned (_async_update_data poll_wire recovering_link down).1 = true)
    as Hret by (vm_compute; reflexivity).
  destruct (_async_update_data poll_wire recovering_link down).1
    as [data|e] eqn:Hdata; [|discriminate Hret].
  destruct (Hsucc data eq_refl) as (Hf' & Hi' & _).
  split; [exact Hreach|]. split; [exact Hf|]. split; [exact Hi|].
  split; [exact Hw|]. split; [exact Hf' | exact Hi'].
Defined.

(** ** Concurrent register operations *)

Import EventLoop.

Lemma gate_run_none h : fold_left (λ og ev, og ≫= λ g, gate_step g ev) h None = None.
Proof. by induction h. Qed.

Lemma gate_run_app g h1 h2 :
  gate_run g (h1 ++ h2) = gate_run g h1 ≫= λ g', gate_run g' h2.
Proof.
  unfold gate_run. rewrite fold_left_app.
  destruct (fold_left _ h1 (Some g)) as [g'|]; [done|].
  apply gate_run_none.
Qed.

Lemma gate_run_snoc g h ev :
  gate_run g (h ++ [ev]) = gate_run g h ≫= λ g', gate_step g' ev.
Proof. rewrite gate_run_app. by destruct (gate_run g h). Qed.

Lemma gate_run_cons g ev h :
  gate_run g (ev :: h) = gate_step g ev ≫= λ g', gate_run g' h.
Proof.
  unfold gate_run. simpl. destruct (gate_step g ev); [done|].
  apply gate_run_none.
Qed.

Lemma program_cons o ops : program (o :: ops) = operation_events o ++ program ops.
Proof. reflexivity. Qed.

(** The first event of a program takes the gate, and the delay follows. *)
Lemma program_starts ops e rest :
  program ops = e :: rest →
  e = LockAcquire
  ∧ ∃ tail ops', tail_of_operation tail
                 ∧ rest = Sleep MIN_REQUEST_DELAY :: tail ++ program ops'.
Proof.
  destruct ops as [|[req [|]] ops]; [done| |]; rewrite program_cons;
    cbn [operation_events op_events op_events_no_handle app];
    intros [= <- <-]; (split; [done|]).
  - exists [Wire req; LockRelease], ops. split; [right; eauto | done].
  - exists [LockRelease], ops. split; [by left | done].
Qed.

Lemma start_inv t0 programs : loop_inv (start t0 programs).
Proof.
  exists Idle. repeat split; try done.
  intros t tk Htk _. cbn [start tasks] in Htk.
  apply list_lookup_fmap_Some in Htk as (ops & -> & _). by exists ops.
Qed.

Lemma tasks_fire_eq t e rest wake s tk :
  tasks s !! t = Some tk →
  tasks (fire t e rest wake s) !! t
  = Some {| todo := rest;
            wake_at := match e with Sleep ms => now s + ms | _ => wake end |}.
Proof.
  intros Htk. cbn [fire tasks]. apply list_lookup_insert_eq.
  by apply lookup_lt_Some in Htk.
Qed.

Lemma tasks_fire_ne t t' e rest wake s :
  t ≠ t' → tasks (fire t e rest wake s) !! t' = tasks s !! t'.
Proof. intros Hne. cbn [fire tasks]. by apply list_lookup_insert_ne. Qed.

Lemma step_inv s s' : step s s' → loop_inv s → loop_inv s'.
Proof.
  intros Hstep (g & Hrun & Hlock & Hholder & Hothers).
  destruct Hstep as [s d Hd | s t tk e rest Htk Htodo Hen].
  { exists g. by repeat split. }
  destruct (decide (holder g = Some t)) as [Hh | Hh].
  - (* the task that fires holds the gate *)
    destruct (Hholder t Hh) as (tk' & Htk' & Hcont).
    rewrite Htk in Htk'. injection Htk' as <-.
    destruct g as [|t0|t0 wake|t0]; [done|..]; injection Hh as ->.
    + destruct Hcont as (tail & ops & Htail & Heq).
      rewrite Htodo in Heq. injection Heq as -> ->.
      exists (Slept t (now s + MIN_REQUEST_DELAY)).
      split; [|split; [|split]].
      * cbn [fire history]. rewrite gate_run_snoc, Hrun. cbn.
        by rewrite decide_True.
      * done.
      * intros t' [= <-]. eexists. split; [by eapply tasks_fire_eq|].
        split; [done|]. eauto.
      * intros t' tk' Htk' Hne.
        assert (t ≠ t') as Hne' by (by intros ->).
        rewrite tasks_fire_ne in Htk' by done.
        apply (Hothers t' tk' Htk'). cbn. congruence.
    + destruct Hcont as (Hwake & tail & ops & [-> | [r ->]] & Heq);
        rewrite Htodo in Heq; injection Heq as -> ->.
      * exists Idle. split; [|split; [|split]].
        -- cbn [fire history]. rewrite gate_run_snoc, Hrun. cbn.
           by rewrite decide_True.
        -- done.
        -- done.
        -- intros t' tk' Htk' _. destruct (decide (t = t')) as [<- | Hne].
           ++ erewrite tasks_fire_eq in Htk' by done.
              injection Htk' as <-. by exists ops.
           ++ rewrite tasks_fire_ne in Htk' by done.
              apply (Hothers t' tk' Htk'). cbn. congruence.
      * exists (Flying t). split; [|split; [|split]].
        -- cbn [fire history]. rewrite gate_run_snoc, Hrun. cbn.
           cbn in Hen. rewrite decide_True; [done|]. split; [done|lia].
        -- done.
        -- intros t' [= <-]. eexists. split; [by eapply tasks_fire_eq|].
           by exists ops.
        -- intros t' tk' Htk' Hne.
           assert (t ≠ t') as Hne' by (by intros ->).
           rewrite tasks_fire_ne in Htk' by done.
           apply (Hothers t' tk' Htk'). cbn. congruence.
    + destruct Hcont as (ops & Heq).
      rewrite Htodo in Heq. injection Heq as -> ->.
      exists Idle. split; [|split; [|split]].
      * cbn [fire history]. rewrite gate_run_snoc, Hrun. cbn.
        by rewrite decide_True.
      * done.
      * done.
      * intros t' tk' Htk' _. destruct (decide (t = t')) as [<- | Hne].
        -- erewrite tasks_fire_eq in Htk' by done.
           injection Htk' as <-. by exists ops.
        -- rewrite tasks_fire_ne in Htk' by done.
           apply (Hothers t' tk' Htk'). cbn. congruence.
  - (* the task that fires is at the start of an operation *)
    destruct (Hothers t tk Htk Hh) as (ops & Hprog).
    rewrite Htodo in Hprog. symmetry in Hprog.
    apply program_starts in Hprog as (-> & tail & ops' & Htail & ->).
    cbn in Hen. rewrite Hen in Hlock.
    destruct g; try discriminate Hlock.
    exists (Held t). split; [|split; [|split]].
    + cbn [fire history]. by rewrite gate_run_snoc, Hrun.
    + done.
    + intros t' [= <-]. eexists. split; [by eapply tasks_fire_eq|].
      cbn. eauto.
    + intros t' tk' Htk' Hne.
      assert (t ≠ t') as Hne' by (by intros ->).
      rewrite tasks_fire_ne in Htk' by done.
      by apply (Hothers t' tk' Htk').
Qed.

Lemma loop_reachable_inv t0 programs s :
  rtc step (start t0 programs) s → loop_inv s.
Proof.
  revert s. apply (rtc_ind_r (R := step) loop_inv); [apply start_inv|].
  intros s1 s2 _ Hstep Hinv. by apply (step_inv s1 s2).
Qed.

Lemma gate_run_split g h1 ev h2 g' :
  gate_run g (h1 ++ ev :: h2) = Some g' →
  ∃ g1 g2, gate_run g h1 = Some g1 ∧ gate_step g1 ev = Some g2
           ∧ gate_run g2 h2 = Some g'.
Proof.
  intros H. rewrite gate_run_app in H.
  destruct (gate_run g h1) as [g1|] eqn:E1; [|done].
  change (gate_run g1 (ev :: h2) = Some g') in H. rewrite gate_run_cons in H.
  destruct (gate_step g1 ev) as [g2|] eqn:E2; [|done].
  change (gate_run g2 h2 = Some g') in H. by exists g1, g2.
Qed.

Lemma gate_run_ends_held h t :
  gate_run Idle h = Some (Held t) →
  ∃ h0 time, h = h0 ++ [(time, t, LockAcquire)] ∧ gate_run Idle h0 = Some Idle.
Proof.
  destruct h as [|[[time t'] e] h0 _] using rev_ind; [done|].
  rewrite gate_run_snoc. destruct (gate_run Idle h0) as [g0|] eqn:E0; [|done].
  cbn. destruct g0, e; cbn; try done; repeat case_decide; try done.
  intros [= ->]. eauto.
Qed.

Lemma gate_run_ends_slept h t wake :
  gate_run Idle h = Some (Slept t wake) →
  ∃ h0 time, h = h0 ++ [(time, t, Sleep MIN_REQUEST_DELAY)]
             ∧ wake = time + MIN_REQUEST_DELAY
             ∧ gate_run Idle h0 = Some (Held t).
Proof.
  destruct h as [|[[time t'] e] h0 _] using rev_ind; [done|].
  rewrite gate_run_snoc. destruct (gate_run Idle h0) as [g0|] eqn:E0; [|done].
  cbn. destruct g0, e; cbn; try done; repeat case_decide; try done.
  intros [= -> <-]. destruct_and!. subst. eauto.
Qed.

(** Each primitive performs exactly the events of one operation. *)
Lemma primitives_perform_operations wire c address count value :
  let has_handle := bool_decide (is_Some (_client c)) in
  trace (_read_input_registers wire address count c).2
  = trace c ++ operation_events (Op (ReadInput address count) has_handle)
  ∧ trace (_read_holding_registers wire address count c).2
    = trace c ++ operation_events (Op (ReadHolding address count) has_handle)
  ∧ trace (_write_register wire address value c).2
    = trace c ++ operation_events (Op (WriteRegister address value) has_handle).
Proof.
  destruct (_client c) as [h|] eqn:Hh; cbn [bool_decide].
  - rewrite bool_decide_eq_true_2 by eauto.
    by erewrite _read_input_registers_run, _read_holding_registers_run,
      _write_register_run.
  - rewrite bool_decide_eq_false_2 by (by intros [? ?]).
    by rewrite _read_input_registers_no_handle,
      _read_holding_registers_no_handle, _write_register_no_handle.
Qed.

(** C3: each register primitive performs the events of one operation;
    whatever register operations the tasks run and however the
    scheduler interleaves them, the history is serialized and paced; at most
    one task is inside an operation; a request reaches the wire right after
    its own task's delay, begun at least 150 ms earlier and right after
    taking the gate while no other operation was open; and nothing happens on
    the loop between a request and the release by the same task. *)
Theorem single_flight_paced t0 programs s :
  rtc step (start t0 programs) s →
  (∀ wire c address count value,
     let has_handle := bool_decide (is_Some (_client c)) in
     trace (_read_input_registers wire address count c).2
     = trace c ++ operation_events (Op (ReadInput address count) has_handle)
     ∧ trace (_read_holding_registers wire address count c).2
       = trace c ++ operation_events (Op (ReadHolding address count) has_handle)
     ∧ trace (_write_register wire address value c).2
       = trace c ++ operation_events (Op (WriteRegister address value) has_handle))
  ∧ serialized (history s)
  ∧ (∀ t1 t2 tk1 tk2,
       tasks s !! t1 = Some tk1 → tasks s !! t2 = Some tk2 →
       inside_operation tk1 → inside_operation tk2 → t1 = t2)
  ∧ (∀ h1 h2 time t r,
       history s = h1 ++ (time, t, Wire r) :: h2 →
       (∃ h0 taken slept,
          h1 = h0 ++ [(taken, t, LockAcquire); (slept, t, Sleep MIN_REQUEST_DELAY)]
          ∧ slept + MIN_REQUEST_DELAY ≤ time
          ∧ gate_run Idle h0 = Some Idle)
       ∧ (h2 = [] ∨ ∃ released h3, h2 = (released, t, LockRelease) :: h3))
  ∧ (∀ h1 h2 time t ms,
       history s = h1 ++ (time, t, Sleep ms) :: h2 →
       ms = MIN_REQUEST_DELAY
       ∧ ∃ h0 taken, h1 = h0 ++ [(taken, t, LockAcquire)]
                     ∧ gate_run Idle h0 = Some Idle).
Proof.
  intros Hreach.
  destruct (loop_reachable_inv t0 programs s Hreach)
    as (g & Hrun & Hlock & Hholder & Hothers).
  split; [apply primitives_perform_operations|].
  split; [by exists g|]. split; [|split].
  - assert (∀ t tk, tasks s !! t = Some tk → inside_operation tk →
                    holder g = Some t) as Hin.
    { intros t tk Htk Hins.
      destruct (decide (holder g = Some t)) as [|Hne]; [done|].
      destruct (Hothers t tk Htk Hne) as (ops & Hprog).
      unfold inside_operation in Hins. rewrite Hprog in Hins.
      destruct (program ops) as [|e rest] eqn:Hp; [done|].
      apply program_starts in Hp as [-> _]. done. }
    intros t1 t2 tk1 tk2 H1 H2 Hi1 Hi2.
    pose proof (Hin t1 tk1 H1 Hi1) as E1. pose proof (Hin t2 tk2 H2 Hi2) as E2.
    congruence.
  - intros h1 h2 time t r Hh. rewrite Hh in Hrun.
    apply gate_run_split in Hrun as (g1 & g2 & Hr1 & Hs & Hr2).
    destruct g1 as [| |t' wake|]; try done.
    cbn in Hs. case_decide as Hd; [|done]. destruct Hd as [<- Hwake].
    injection Hs as <-. split.
    + apply gate_run_ends_slept in Hr1 as (h0 & slept & -> & -> & Hr0).
      apply gate_run_ends_held in Hr0 as (h00 & taken & -> & Hr00).
      exists h00, taken, slept. by rewrite <- app_assoc.
    + destruct h2 as [|[[released t'] e] h3]; [by left|right].
      rewrite gate_run_cons in Hr2.
      destruct e; cbn in Hr2; try done.
      case_decide; [subst; eauto | done].
  - intros h1 h2 time t ms Hh. rewrite Hh in Hrun.
    apply gate_run_split in Hrun as (g1 & g2 & Hr1 & Hs & Hr2).
    destruct g1 as [|t'| |]; try done.
    cbn in Hs. case_decide as Hd; [|done]. destruct Hd as [<- ->].
    split; [done|]. by apply gate_run_ends_held.
Qed.

Lemma single_flight_paced_witness :
  rtc EventLoop.step (EventLoop.start 0 two_tasks) two_tasks_run
  ∧ EventLoop.serialized (EventLoop.history two_tasks_run)
  ∧ EventLoop.history two_tasks_run
    = [ (0, 0%nat, LockAcquire); (0, 0%nat, Sleep 150);
        (150, 0%nat, Wire (ReadInput 4020 5)); (190, 0%nat, LockRelease);
        (190, 1%nat, LockAcquire); (190, 1%nat, Sleep 150);
        (340, 1%nat, Wire (WriteRegister 8000 2)) ].
Proof.
  assert (rtc EventLoop.step (EventLoop.start 0 two_tasks) two_tasks_run) as Hrun.
  { unfold two_tasks_run.
    eapply rtc_l;
      [apply (EventLoop.step_task _ 0
                {| EventLoop.todo := [LockAcquire; Sleep 150; Wire (ReadInput 4020 5);
                                      LockRelease];
                   EventLoop.wake_at := 0 |}); reflexivity|].
    eapply rtc_l;
      [apply (EventLoop.step_task _ 0
                {| EventLoop.todo := [Sleep 150; Wire (ReadInput 4020 5); LockRelease];
                   EventLoop.wake_at := 0 |}); first [reflexivity | exact I]|].
    eapply rtc_l; [apply (EventLoop.step_tick _ 150); lia|].
    eapply rtc_l;
      [apply (EventLoop.step_task _ 0
                {| EventLoop.todo := [Wire (ReadInput 4020 5); LockRelease];
                   EventLoop.wake_at := 150 |});
       first [reflexivity | cbn; lia]|].
    eapply rtc_l; [apply (EventLoop.step_tick _ 40); lia|].
    eapply rtc_l;
      [apply (EventLoop.step_task _ 0
                {| EventLoop.todo := [LockRelease]; EventLoop.wake_at := 150 |});
       first [reflexivity | exact I]|].
    eapply rtc_l;
      [apply (EventLoop.step_task _ 1
                {| EventLoop.todo := [LockAcquire; Sleep 150;
                                      Wire (WriteRegister 8000 2); LockRelease];
                   EventLoop.wake_at := 0 |}); reflexivity|].
    eapply rtc_l;
      [apply (EventLoop.step_task _ 1
                {| EventLoop.todo := [Sleep 150; Wire (WriteRegister 8000 2);
                                      LockRelease];
                   EventLoop.wake_at := 0 |}); first [reflexivity | exact I]|].
    eapply rtc_l; [apply (EventLoop.step_tick _ 150); lia|].
    eapply rtc_l;
      [apply (EventLoop.step_task _ 1
                {| EventLoop.todo := [Wire (WriteRegister 8000 2); LockRelease];
                   EventLoop.wake_at := 340 |});
       first [reflexivity | cbn; lia]|].
    apply rtc_refl. }
  split; [exact Hrun|]. split; [|reflexivity].
  apply (single_flight_paced 0 two_tasks two_tasks_run Hrun).
Defined.

(** * Further properties *)

(** ** Decoding *)

(** X1: on 16-bit words the signed decode lands in [-32768, 32767] and
    loses nothing: reducing the result modulo 65536 gives the word back, and
    every value of that range is the decode of its residue. *)
Theorem to_signed_round_trip (w : Z) :
  0 ≤ w ≤ 65535 →
  -32768 ≤ _to_signed w ≤ 32767
  ∧ _to_signed w mod 65536 = w
  ∧ (∀ v, -32768 ≤ v ≤ 32767 → _to_signed (v mod 65536) = v).
Proof.
  intros Hw. unfold _to_signed. rewrite Z.geb_leb.
  split; [|split].
  - destruct (Z.leb_spec 0x8000 w); lia.
  - destruct (Z.leb_spec 0x8000 w).
    + replace (w - 0x10000) with (w + (-1) * 65536) by lia.
      rewrite Z.mod_add by lia. apply Z.mod_small. lia.
    + apply Z.mod_small. lia.
  - intros v Hv. rewrite Z.geb_leb.
    destruct (Z.leb_spec 0 v) as [Hpos | Hneg].
    + rewrite Z.mod_small by lia.
      destruct (Z.leb_spec 0x8000 v); lia.
    + replace (v mod 65536) with (v + 65536).
      * destruct (Z.leb_spec 0x8000 (v + 65536)); lia.
      * symmetry. replace v with ((v + 65536) + (-1) * 65536) at 1 by lia.
        rewrite Z.mod_add by lia. apply Z.mod_small. lia.
Qed.

Lemma to_signed_round_trip_witness :
  0 ≤ 0xFFCE ≤ 65535 ∧ _to_signed 0xFFCE = -50 ∧ (-50) mod 65536 = 0xFFCE.
Proof.
  split; [lia|]. split; [reflexivity|].
  pose proof (to_signed_round_trip 0xFFCE) as H.
  destruct H as (_ & H & _); [lia|]. exact H.
Defined.

Lemma lor_shiftl_16 (hi lo : Z) :
  0 ≤ hi → 0 ≤ lo < 65536 → Z.lor (Z.shiftl hi 16) lo = hi * 65536 + lo.
Proof.
  intros Hhi Hlo.
  assert (Z.land (Z.shiftl hi 16) lo = 0) as Hdisj.
  { apply Z.bits_inj'. intros n Hn. rewrite Z.land_spec, Z.bits_0.
    destruct (Z.lt_ge_cases n 16) as [Hlt | Hge].
    - rewrite Z.shiftl_spec_low by done. done.
    - rewrite (Z.bits_above_log2 lo n); [by rewrite andb_false_r | lia |].
      destruct (Z.eq_dec lo 0) as [-> | Hnz]; [simpl; lia|].
      apply Z.lt_le_trans with 16; [|done].
      apply Z.log2_lt_pow2; lia. }
  rewrite <- Z.lxor_lor by done. rewrite <- Z.add_nocarry_lxor by done.
  rewrite Z.shiftl_mul_pow2 by lia. done.
Qed.

(** X2: the operating-hours counter is [hi * 65536 + lo], lies below
    2^32, and splits back into the two words it was joined from. *)
Theorem operating_hours_join (hi lo filter_hours : Z) (data : dict) :
  0 ≤ hi ≤ 65535 → 0 ≤ lo ≤ 65535 →
  let hours := hi * 65536 + lo in
  batch_operating_hours [hi; lo; filter_hours] data
  = Ret (<["filter_hours" := VInt filter_hours]>
           (<["operating_hours" := VInt hours]> data))
  ∧ 0 ≤ hours < 2 ^ 32
  ∧ hours / 65536 = hi ∧ hours mod 65536 = lo.
Proof.
  intros Hhi Hlo hours. subst hours. split; [|split; [|split]].
  - unfold batch_operating_hours. cbn [getitem lookup list_lookup mbind result_mbind result_bind mret result_mret].
    by rewrite lor_shiftl_16 by lia.
  - change (2 ^ 32) with 4294967296. lia.
  - rewrite Z.div_add_l by lia. rewrite Z.div_small by lia. lia.
  - rewrite Z.add_comm, Z.mod_add by lia. apply Z.mod_small. lia.
Qed.

Lemma operating_hours_join_witness :
  batch_operating_hours [1; 0; 300] ∅
  = Ret (<["filter_hours" := VInt 300]> (<["operating_hours" := VInt 65536]> ∅)).
Proof.
  apply (operating_hours_join 1 0 300 ∅); lia.
Defined.

(** X3: on a 16-bit word the dwelling temperature is absent exactly for
    the raw value 9999, and is the signed tenths otherwise; the batch stores
    the field either way. *)
Theorem dwelling_temperature_sentinel (r0 r1 r r3 : Z) (data : dict) :
  0 ≤ r ≤ 65535 →
  ∃ data', batch_temperatures [r0; r1; r; r3] data = Ret data'
           ∧ (r = 9999 → data' !! "dwelling_temperature" = Some VNone)
           ∧ (r ≠ 9999 →
                data' !! "dwelling_temperature"
                = Some (VFloat (round1 (div10 (_to_signed r))))).
Proof.
  intros Hr. eexists. split; [reflexivity|].
  assert (_to_signed r = 9999 ↔ r = 9999) as Hiff.
  { unfold _to_signed. rewrite Z.geb_leb.
    destruct (Z.leb_spec 0x8000 r); lia. }
  rewrite lookup_insert_ne by done.
  split; intros Hcase; case_decide as Hd.
  - by apply Hiff in Hcase.
  - by rewrite lookup_insert_eq.
  - by rewrite lookup_insert_eq.
  - by apply Hiff in Hd.
Qed.

Lemma dwelling_temperature_sentinel_witness :
  ∃ data', batch_temperatures [2; 0xFFCE; 9999; 455] ∅ = Ret data'
           ∧ data' !! "dwelling_temperature" = Some VNone.
Proof.
  destruct (dwelling_temperature_sentinel 2 0xFFCE 9999 455 ∅)
    as (data' & Hrun & Hnone & _); [lia|].
  exists data'. split; [exact Hrun | by apply Hnone].
Defined.

Lemma string_length_app (s t : string) :
  String.length (s +:+ t) = (String.length s + String.length t)%nat.
Proof. induction s as [|a s IH]; simpl; [done|]. by rewrite IH. Qed.

Lemma string_app_inv_tail (s1 s2 t : string) : s1 +:+ t = s2 +:+ t → s1 = s2.
Proof.
  revert s2. induction s1 as [|a s1 IH]; intros [|b s2] H; simpl in H.
  - done.
  - apply (f_equal String.length) in H.
    rewrite !string_length_app in H. simpl in H. lia.
  - apply (f_equal String.length) in H.
    rewrite !string_length_app in H. simpl in H. lia.
  - injection H as -> H. f_equal. by apply IH.
Qed.

Lemma unknown_inj c1 c2 : unknown c1 = unknown c2 → c1 = c2.
Proof.
  unfold unknown. intros H. apply String.app_inj in H.
  apply string_app_inv_tail in H. by apply (inj pretty) in H.
Qed.

Lemma VStr_inj a b : VStr a = VStr b → a = b.
Proof. by intros [= ->]. Qed.

Ltac label_inj_tac :=
  let c1 := fresh "c1" in
  let c2 := fresh "c2" in
  intros c1 c2; unfold label;
  cbv [dict_get ACTIVE_FUNCTION_MAP VENTILATION_MODE_MAP BYPASS_STATUS_MAP
       BYPASS_MODE_MAP FILTER_STATUS_MAP SYSTEM_ERROR_MAP FAN_STATUS_MAP
       PREHEATER_STATUS_MAP];
  repeat case_decide; subst;
  (let Hl := fresh "Hlabel" in
   intros Hl; apply VStr_inj in Hl;
   first [ reflexivity | by apply unknown_inj | discriminate Hl
         | (unfold unknown in Hl; simpl in Hl; discriminate Hl) ]).

(** X4: the label decode of every status table is injective: two raw
    codes, mapped or not, never show the same label. *)
Theorem label_injective (table : list (Z * string)) (c1 c2 : Z) :
  table ∈ LABEL_TABLES → label table c1 = label table c2 → c1 = c2.
Proof.
  unfold LABEL_TABLES. rewrite !elem_of_cons, elem_of_nil.
  intros [->|[->|[->|[->|[->|[->|[->|[->|[]]]]]]]]]; revert c1 c2;
    label_inj_tac.
Qed.

Lemma label_injective_witness :
  FAN_STATUS_MAP ∈ LABEL_TABLES
  ∧ label FAN_STATUS_MAP 4 = VStr "Running"
  ∧ label FAN_STATUS_MAP 7 = VStr "Unknown (7)"
  ∧ (label FAN_STATUS_MAP 4 = label FAN_STATUS_MAP 7 → 4 = 7).
Proof.
  assert (FAN_STATUS_MAP ∈ LABEL_TABLES) as Hin
    by (do 6 apply list_elem_of_further; apply list_elem_of_here).
  split; [exact Hin|]. split; [reflexivity|]. split; [reflexivity|].
  exact (label_injective FAN_STATUS_MAP 4 7 Hin).
Defined.

(** X5: the reverse tables built by the dict comprehensions are exact
    inverses: a label maps back to a code if and only if the forward table
    maps that code to that label, for bypass modes and for airflow presets. *)
Theorem reverse_tables_invert (code : Z) (name : string) :
  (dict_item BYPASS_MODE_MAP code = Ret name
   ↔ dict_item BYPASS_MODE_REVERSE name = Ret code)
  ∧ (dict_item AIRFLOW_MODE_TO_SWITCH name = Ret code
     ↔ dict_item SWITCH_TO_AIRFLOW_MODE code = Ret name).
Proof.
  change BYPASS_MODE_REVERSE with [("Automatic", 0); ("Closed", 1); ("Open", 2)].
  change SWITCH_TO_AIRFLOW_MODE
    with [(0, "holiday"); (1, "low"); (2, "normal"); (3, "high")].
  cbv [dict_item BYPASS_MODE_MAP AIRFLOW_MODE_TO_SWITCH].
  split; split; repeat case_decide; subst; intros Heq; by simplify_eq.
Qed.

Lemma reverse_tables_invert_witness :
  dict_item BYPASS_MODE_REVERSE "Open" = Ret 2
  ∧ dict_item SWITCH_TO_AIRFLOW_MODE 3 = Ret "high".
Proof.
  split.
  - by apply (proj1 (reverse_tables_invert 2 "Open")).
  - by apply (proj2 (reverse_tables_invert 3 "high")).
Defined.

(** ** Coroutines that only run register operations *)

Lemma ops_events_nil P n : ops_events P n [].
Proof. repeat split; simpl; auto using Forall_nil_2 with lia. Qed.

Lemma ops_events_app P n1 n2 l1 l2 :
  ops_events P n1 l1 → ops_events P n2 l2 → ops_events P (n1 + n2) (l1 ++ l2).
Proof.
  intros (H1 & H2 & H3) (K1 & K2 & K3). repeat split.
  - by apply Forall_app_2.
  - rewrite requests_app. by apply Forall_app_2.
  - rewrite requests_app, length_app. lia.
Qed.

Lemma ops_events_mono P n n' l : (n ≤ n')%nat → ops_events P n l → ops_events P n' l.
Proof. intros Hn (H1 & H2 & H3). repeat split; auto with lia. Qed.

Lemma ops_events_op P req : P req → ops_events P 1 (op_events req).
Proof.
  intros HP. repeat split; simpl; auto.
  repeat constructor.
Qed.

Lemma ops_events_no_handle P : ops_events P 0 op_events_no_handle.
Proof. repeat split; simpl; auto. repeat constructor. Qed.

Lemma appends_ret {A} P n (a : A) : appends (ops_events P n) (mret a).
Proof. intros c. exists []. rewrite app_nil_r. auto using ops_events_nil. Qed.


Lemma appends_mono {A} P n n' (m : M modbus_client A) :
  (n ≤ n')%nat → appends (ops_events P n) m → appends (ops_events P n') m.
Proof.
  intros Hn Hm c. destruct (Hm c) as (new & ? & ? & ? & ? & ?).
  exists new. eauto 6 using ops_events_mono.
Qed.

Lemma appends_bind {A B} P n1 n2 (m : M modbus_client A) (f : A → M modbus_client B) :
  appends (ops_events P n1) m → (∀ a, appends (ops_events P n2) (f a)) →
  appends (ops_events P (n1 + n2)) (m ≫= f).
Proof.
  intros Hm Hf c. destruct (Hm c) as (new1 & Ht1 & Hq1 & Hh1 & Hl1 & Hd1).
  unfold mbind, M_mbind, M_bind.
  destruct (m c) as [[a|e] c1]; cbn [snd] in *.
  - destruct (Hf a c1) as (new2 & Ht2 & Hq2 & Hh2 & Hl2 & Hd2).
    exists (new1 ++ new2). rewrite Ht2, Ht1, app_assoc, Hh2, Hl2, Hd2.
    auto 6 using ops_events_app.
  - exists new1. split; [done|]. split; [|done].
    eapply ops_events_mono; [|done]. lia.
Qed.

Section RegisterOnly.

Variable wire : nat → result response.
Variable P : request → Prop.



Lemma appends_write address value :
  P (WriteRegister address value) →
  appends (ops_events P 1) (_write_register wire address value).
Proof.
  intros HP c. destruct (_client c) as [h|] eqn:Hh.
  - erewrite _write_register_run by done.
    exists (op_events (WriteRegister address value)). split_and!; try done.
    by apply ops_events_op.
  - rewrite _write_register_no_handle by done.
    exists op_events_no_handle. split_and!; try done.
    eapply ops_events_mono; [|apply ops_events_no_handle]. lia.
Qed.




End RegisterOnly.




Lemma appends_lift_bind {A B} P n (r : result A) (f : A → M modbus_client B) :
  (∀ a, r = Ret a → appends (ops_events P n) (f a)) →
  appends (ops_events P n) (lift r ≫= f).
Proof.
  intros Hf c. destruct r as [a|e].
  - apply (Hf a eq_refl c).
  - exists []. rewrite app_nil_r. split_and!; try done. apply ops_events_nil.
Qed.

Lemma AIRFLOW_MODE_TO_SWITCH_range mode position :
  dict_item AIRFLOW_MODE_TO_SWITCH mode = Ret position → 0 ≤ position ≤ 3.
Proof.
  unfold dict_item, AIRFLOW_MODE_TO_SWITCH, dict_get; cbn.
  repeat case_decide; intros Hp; simplify_eq. all: lia.
Qed.

Lemma BYPASS_MODE_REVERSE_range mode code :
  dict_item BYPASS_MODE_REVERSE mode = Ret code → 0 ≤ code ≤ 2.
Proof.
  assert (BYPASS_MODE_REVERSE = [("Automatic", 0); ("Closed", 1); ("Open", 2)])
    as -> by (vm_compute; reflexivity).
  unfold dict_item; cbn.
  repeat case_decide; intros Hp; simplify_eq. all: lia.
Qed.

Ltac limits :=
  cbv [within_limits REG_MODBUS_CONTROL REG_SWITCH_POSITION REG_DESIRED_FLOW_RATE
       REG_STANDBY REG_FILTER_RESET REG_APPLIANCE_RESET REG_BYPASS_MODE
       REG_BYPASS_TEMP_DWELLING REG_BYPASS_TEMP_OUTSIDE];
  lia.

Lemma run_command_appends wire cmd :
  appends (ops_events within_limits 2) (run_command wire cmd).
Proof.
  assert (∀ a v, within_limits (WriteRegister a v) →
                 appends (ops_events within_limits 2) (_write_register wire a v))
    as Hone.
  { intros a v Hw. eapply appends_mono; [|by apply appends_write]. lia. }
  assert (∀ a v (m : M modbus_client bool),
            within_limits (WriteRegister a v) →
            appends (ops_events within_limits 1) m →
            appends (ops_events within_limits 2)
              (ok ← _write_register wire a v; if negb ok then mret false else m))
    as Htwo.
  { intros a v m Hw Hm. change 2%nat with (1 + 1)%nat.
    apply appends_bind; [by apply appends_write|].
    intros [|]; cbn [negb]; [done | apply appends_ret]. }
  destruct cmd as [mode|rate|mode| | |standby|temp|temp]; cbn [run_command].
  - unfold set_airflow_mode. case_decide.
    + apply Hone. limits.
    + destruct (dict_contains _ _); [|apply appends_ret].
      apply Htwo; [limits |].
      apply appends_lift_bind. intros position Hp.
      apply appends_write. apply AIRFLOW_MODE_TO_SWITCH_range in Hp. limits.
  - unfold set_custom_flow_rate. apply Htwo; [limits |].
    apply appends_write. limits.
  - unfold set_bypass_mode. destruct (negb _); [apply appends_ret|].
    apply appends_lift_bind. intros code Hc.
    apply Hone. apply BYPASS_MODE_REVERSE_range in Hc. limits.
  - apply Hone. limits.
  - apply Hone. limits.
  - apply Hone. destruct standby; limits.
  - unfold set_bypass_temp_dwelling. apply appends_lift_bind. intros value _.
    apply Hone. limits.
  - unfold set_bypass_temp_outside. apply appends_lift_bind. intros value _.
    apply Hone. limits.
Qed.

(** X7: whatever argument an entity passes and whatever the transport
    answers, a write command issues at most two requests, each a write of a
    documented register with a value inside that register's documented range
    (8000: 0..2, 8001: 0..3, 8002: 0..400, 8003: 1..2, 8010 and 8011: 1,
    6100: 0..2, 6101: 150..350, 6102: 70..150); it never reads, never dials
    or hangs up, and leaves the handle and the link state alone. *)
Theorem commands_write_within_limits wire (cmd : command) (c : modbus_client) :
  ∃ new,
    trace (run_command wire cmd c).2 = trace c ++ new
    ∧ Forall register_event new
    ∧ Forall within_limits (requests new)
    ∧ (length (requests new) ≤ 2)%nat
    ∧ _client (run_command wire cmd c).2 = _client c
    ∧ link_up (run_command wire cmd c).2 = link_up c
    ∧ dialled (run_command wire cmd c).2 = dialled c.
Proof.
  destruct (run_command_appends wire cmd c)
    as (new & Ht & (He & Hp & Hn) & Hh & Hl & Hd).
  by exists new.
Qed.

(** ** Bypass thresholds *)

Lemma int_of_float_finite x :
  (finite x = true → ∃ n, int_of_float x = Ret n)
  ∧ (finite x = false → int_of_float x = Raise OtherException).
Proof.
  unfold finite, int_of_float.
  destruct (Prim2SF x); split; intros Hf; try discriminate; eauto.
Qed.



Section ThresholdProperties.

Variable wire : nat → result response.


End ThresholdProperties.





(** ** Selects and numbers on the remote-control block *)

Lemma holds_written_4 reqs base (r0 r1 r2 r3 : Z) :
  holds_written reqs base [r0; r1; r2; r3] →
  (∀ v, written reqs base = Some v → r0 = v)
  ∧ (∀ v, written reqs (base + 1) = Some v → r1 = v)
  ∧ (∀ v, written reqs (base + 2) = Some v → r2 = v)
  ∧ (∀ v, written reqs (base + 3) = Some v → r3 = v).
Proof.
  intros Hw. split_and!; intros v Hv.
  - apply (Hw 0%nat r0 v); [done|]. by rewrite Z.add_0_r.
  - by apply (Hw 1%nat r1 v).
  - by apply (Hw 2%nat r2 v).
  - by apply (Hw 3%nat r3 v).
Qed.

Lemma written_app_Some prior reqs address v :
  written reqs address = Some v → written (prior ++ reqs) address = Some v.
Proof.
  intros Hv. induction prior as [|[| |a w] prior IH]; cbn [app written]; try done.
  by rewrite IH.
Qed.

Lemma length_4_inv {A} (l : list A) :
  length l = 4%nat → ∃ a b c d, l = [a; b; c; d].
Proof.
  destruct l as [|a [|b [|c [|d [|]]]]]; intros Hl; try discriminate. eauto.
Qed.

Lemma two_writes_run wire a1 v1 a2 v2 c h :
  _client c = Some h →
  let run := (ok ← _write_register wire a1 v1;
              if negb ok then mret false else _write_register wire a2 v2) c in
  run.1 = Ret true →
  requests (trace run.2)
  = requests (trace c) ++ [WriteRegister a1 v1; WriteRegister a2 v2].
Proof.
  intros Hh run. subst run. unfold mbind, M_mbind, M_bind.
  erewrite _write_register_run by done.
  destruct (write_outcome (wire (sent c))) as [[|]|e]; cbn [negb fst snd];
    [|discriminate..].
  erewrite _write_register_run by (rewrite after_op_client; done).
  intros _. cbn [snd]. rewrite !requests_after_op, <- app_assoc. done.
Qed.

Lemma airflow_mode_in_options data mode :
  data !! "airflow_mode" = Some (VStr mode) → mode ∈ AIRFLOW_MODE_OPTIONS →
  airflow_current_option data = mode.
Proof.
  intros Hd Hm. unfold airflow_current_option, data_get. rewrite Hd.
  by rewrite bool_decide_eq_true_2.
Qed.

Lemma airflow_mode_not_in_options data mode :
  data !! "airflow_mode" = Some (VStr mode) → mode ∉ AIRFLOW_MODE_OPTIONS →
  airflow_current_option data = "wall_unit".
Proof.
  intros Hd Hm. unfold airflow_current_option, data_get. rewrite Hd.
  by rewrite bool_decide_eq_false_2.
Qed.

(** X10: when [set_airflow_mode] succeeds with one of the five options
    of the select, every remote-control block that holds what it wrote,
    whatever was written before it, decodes to that option: the snapshot's
    airflow mode and the select's current option are the option that was
    set. *)
Theorem set_airflow_mode_round_trip wire (mode : string) (c : modbus_client) h
    (prior reqs : list request) (regs : list Z) (data : dict) :
  _client c = Some h →
  mode ∈ AIRFLOW_MODE_OPTIONS →
  (set_airflow_mode wire mode c).1 = Ret true →
  requests (trace (set_airflow_mode wire mode c).2) = requests (trace c) ++ reqs →
  length regs = 4%nat →
  holds_written (prior ++ reqs) 8000 regs →
  ∃ data', batch_remote_control regs data = Ret data'
           ∧ data' !! "airflow_mode" = Some (VStr mode)
           ∧ airflow_current_option data' = mode.
Proof.
  intros Hh Hmode Hok Hreqs Hlen Hw.
  apply length_4_inv in Hlen as (r0 & r1 & r2 & r3 & ->).
  apply holds_written_4 in Hw as (H0 & H1 & _ & _).
  assert (∀ position,
            (mode = "wall_unit" ∧ reqs = [WriteRegister 8000 0])
            ∨ (dict_item AIRFLOW_MODE_TO_SWITCH mode = Ret position
               ∧ dict_get SWITCH_TO_AIRFLOW_MODE position "unknown" = mode
               ∧ reqs = [WriteRegister 8000 1; WriteRegister 8001 position]) →
            ∃ data', batch_remote_control [r0; r1; r2; r3] data = Ret data'
                     ∧ data' !! "airflow_mode" = Some (VStr mode)) as Hdecode.
  { intros position [[-> ->] | (_ & Hrev & ->)].
    - rewrite (H0 0 (written_app_Some prior [WriteRegister 8000 0] 8000 0 eq_refl)).
      eexists. split; [reflexivity|]. apply lookup_insert_eq.
    - rewrite (H0 1 (written_app_Some prior
                       [WriteRegister 8000 1; WriteRegister 8001 position]
                       8000 1 eq_refl)),
        (H1 position).
      + eexists. split; [reflexivity|]. rewrite lookup_insert_eq. by rewrite Hrev.
      + apply written_app_Some. cbn. by rewrite decide_True. }
  assert (∃ data', batch_remote_control [r0; r1; r2; r3] data = Ret data'
                   ∧ data' !! "airflow_mode" = Some (VStr mode))
    as (data' & Hrun & Hget).
  { repeat (apply elem_of_cons in Hmode as [-> | Hmode]);
      [| | | | | by apply elem_of_nil in Hmode].
    - apply (Hdecode 0). left. split; [done|].
      change (set_airflow_mode wire "wall_unit" c)
        with (_write_register wire REG_MODBUS_CONTROL 0 c) in Hreqs.
      erewrite _write_register_run in Hreqs by done. cbn [snd] in Hreqs.
      rewrite requests_after_op in Hreqs. by apply app_inv_head in Hreqs.
    - apply (Hdecode 0). right. split_and!; [done..|].
      pose proof (two_writes_run wire REG_MODBUS_CONTROL 1 REG_SWITCH_POSITION 0
                    c h Hh Hok) as Hrun.
      change (set_airflow_mode wire "holiday" c) with
        ((ok ← _write_register wire REG_MODBUS_CONTROL 1;
          if negb ok then mret false
          else _write_register wire REG_SWITCH_POSITION 0) c) in Hreqs.
      rewrite Hrun in Hreqs. by apply app_inv_head in Hreqs.
    - apply (Hdecode 1). right. split_and!; [done..|].
      pose proof (two_writes_run wire REG_MODBUS_CONTROL 1 REG_SWITCH_POSITION 1
                    c h Hh Hok) as Hrun.
      change (set_airflow_mode wire "low" c) with
        ((ok ← _write_register wire REG_MODBUS_CONTROL 1;
          if negb ok then mret false
          else _write_register wire REG_SWITCH_POSITION 1) c) in Hreqs.
      rewrite Hrun in Hreqs. by apply app_inv_head in Hreqs.
    - apply (Hdecode 2). right. split_and!; [done..|].
      pose proof (two_writes_run wire REG_MODBUS_CONTROL 1 REG_SWITCH_POSITION 2
                    c h Hh Hok) as Hrun.
      change (set_airflow_mode wire "normal" c) with
        ((ok ← _write_register wire REG_MODBUS_CONTROL 1;
          if negb ok then mret false
          else _write_register wire REG_SWITCH_POSITION 2) c) in Hreqs.
      rewrite Hrun in Hreqs. by apply app_inv_head in Hreqs.
    - apply (Hdecode 3). right. split_and!; [done..|].
      pose proof (two_writes_run wire REG_MODBUS_CONTROL 1 REG_SWITCH_POSITION 3
                    c h Hh Hok) as Hrun.
      change (set_airflow_mode wire "high" c) with
        ((ok ← _write_register wire REG_MODBUS_CONTROL 1;
          if negb ok then mret false
          else _write_register wire REG_SWITCH_POSITION 3) c) in Hreqs.
      rewrite Hrun in Hreqs. by apply app_inv_head in Hreqs. }
  exists data'. split_and!; [done..|]. by apply airflow_mode_in_options.
Qed.

Lemma set_airflow_mode_round_trip_witness :
  ∃ data', batch_remote_control [1; 3; 250; 2] ∅ = Ret data'
           ∧ data' !! "airflow_mode" = Some (VStr "high")
           ∧ airflow_current_option data' = "high".
Proof.
  apply (set_airflow_mode_round_trip (λ _, Ret (Registers [])) "high" sample_client _
           [WriteRegister 8000 2; WriteRegister 8002 250]
           [WriteRegister 8000 1; WriteRegister 8001 3] [1; 3; 250; 2] ∅ eq_refl).
  - by apply (bool_decide_unpack _).
  - vm_compute. reflexivity.
  - vm_compute. reflexivity.
  - reflexivity.
  - intros i r v Hr Hv.
    destruct i as [|[|[|[|i]]]]; try discriminate Hr;
      vm_compute in Hr, Hv; congruence.
Defined.

(** X11: when [set_custom_flow_rate] succeeds, every remote-control
    block that holds what it wrote, whatever was written before it, decodes
    to the airflow mode "custom", the
    flow-rate number shows the clamped rate that was written, and the airflow
    select, which has no option for that mode, shows "wall_unit". *)
Theorem set_custom_flow_rate_round_trip wire (rate : Z) (c : modbus_client) h
    (prior reqs : list request) (regs : list Z) (data : dict) :
  _client c = Some h →
  (set_custom_flow_rate wire rate c).1 = Ret true →
  requests (trace (set_custom_flow_rate wire rate c).2) = requests (trace c) ++ reqs →
  length regs = 4%nat →
  holds_written (prior ++ reqs) 8000 regs →
  ∃ data', batch_remote_control regs data = Ret data'
           ∧ data' !! "airflow_mode" = Some (VStr "custom")
           ∧ flow_rate_native_value data' = VInt (Z.max 0 (Z.min rate 400))
           ∧ airflow_current_option data' = "wall_unit".
Proof.
  intros Hh Hok Hreqs Hlen Hw.
  apply length_4_inv in Hlen as (r0 & r1 & r2 & r3 & ->).
  apply holds_written_4 in Hw as (H0 & _ & H2 & _).
  pose proof (two_writes_run wire REG_MODBUS_CONTROL 2 REG_DESIRED_FLOW_RATE
                (Z.max 0 (Z.min rate 400)) c h Hh Hok) as Hrun.
  unfold set_custom_flow_rate in Hreqs. rewrite Hrun in Hreqs.
  apply app_inv_head in Hreqs as <-.
  rewrite (H0 2 (written_app_Some prior
                   [WriteRegister REG_MODBUS_CONTROL 2;
                    WriteRegister REG_DESIRED_FLOW_RATE (Z.max 0 (Z.min rate 400))]
                   8000 2 eq_refl)),
    (H2 (Z.max 0 (Z.min rate 400)));
    [|apply written_app_Some; cbn; by rewrite decide_True].
  eexists. split; [reflexivity|].
  assert (∀ data' : dict,
            data' !! "airflow_mode" = Some (VStr "custom") →
            data' !! "modbus_control" = Some (VInt 2) →
            data' !! "desired_flow_rate" = Some (VInt (Z.max 0 (Z.min rate 400))) →
            data' !! "airflow_mode" = Some (VStr "custom")
            ∧ flow_rate_native_value data' = VInt (Z.max 0 (Z.min rate 400))
            ∧ airflow_current_option data' = "wall_unit") as Hshow.
  { intros data' Hm Hc Hf. split; [done|]. split.
    - unfold flow_rate_native_value, data_get. by rewrite Hc, Hf.
    - eapply airflow_mode_not_in_options; [done|].
      intros Hin. by apply (bool_decide_pack _) in Hin. }
  apply Hshow.
  - apply lookup_insert_eq.
  - rewrite !lookup_insert_ne by done. apply lookup_insert_eq.
  - rewrite !lookup_insert_ne by done. apply lookup_insert_eq.
Qed.

Lemma set_custom_flow_rate_round_trip_witness :
  ∃ data', batch_remote_control [2; 0; 400; 2] ∅ = Ret data'
           ∧ data' !! "airflow_mode" = Some (VStr "custom")
           ∧ flow_rate_native_value data' = VInt (Z.max 0 (Z.min 500 400))
           ∧ airflow_current_option data' = "wall_unit".
Proof.
  apply (set_custom_flow_rate_round_trip (λ _, Ret (Registers [])) 500
           sample_client _ [WriteRegister 8000 1; WriteRegister 8001 0]
           [WriteRegister 8000 2; WriteRegister 8002 400] [2; 0; 400; 2] ∅ eq_refl).
  - vm_compute. reflexivity.
  - vm_compute. reflexivity.
  - reflexivity.
  - intros i r v Hr Hv.
    destruct i as [|[|[|[|i]]]]; try discriminate Hr;
      vm_compute in Hr, Hv; congruence.
Defined.

(** X12: whatever the four registers of the remote-control block hold,
    and whatever the snapshot holds for the airflow mode (a missing key, a
    value that is no string, an unknown mode), the airflow select shows one of
    its five options; it shows a preset exactly when the control register is 1
    and the switch position is between 0 and 3, and "wall_unit" otherwise. *)
Theorem airflow_current_option_valid (data : dict) (r0 r1 r2 r3 : Z) :
  airflow_current_option data ∈ AIRFLOW_MODE_OPTIONS
  ∧ ∃ data', batch_remote_control [r0; r1; r2; r3] data = Ret data'
             ∧ (airflow_current_option data' ≠ "wall_unit" ↔ r0 = 1 ∧ 0 ≤ r1 ≤ 3)
             ∧ (r0 = 1 → 0 ≤ r1 ≤ 3 →
                dict_item AIRFLOW_MODE_TO_SWITCH (airflow_current_option data') = Ret r1).
Proof.
  split.
  - unfold airflow_current_option.
    destruct (data_get data "airflow_mode" VNone) as [| |mode|];
      try by apply (bool_decide_unpack _).
    case_bool_decide; [done | by apply (bool_decide_unpack _)].
  - assert (∀ (data' : dict) mode,
              data' !! "airflow_mode" = Some (VStr mode) →
              airflow_current_option data'
              = if bool_decide (mode ∈ AIRFLOW_MODE_OPTIONS) then mode else "wall_unit")
      as Hshow.
    { intros data' mode Hm. unfold airflow_current_option, data_get. by rewrite Hm. }
    assert (∀ r, (0 ≤ r ≤ 3 → False) →
              dict_get SWITCH_TO_AIRFLOW_MODE r "unknown" = "unknown") as Hother.
    { intros r Hr.
      assert (SWITCH_TO_AIRFLOW_MODE
              = [(0, "holiday"); (1, "low"); (2, "normal"); (3, "high")])
        as -> by (vm_compute; reflexivity).
      unfold dict_get. rewrite !decide_False by lia. done. }
    run_body. repeat (case_decide; run_body); subst;
      (eexists; split; [reflexivity|]);
      rewrite (Hshow _ _ (lookup_insert_eq _ _ _)).
    + split; [|lia]. split; [done | lia].
    + destruct (decide (0 ≤ r1 ≤ 3)) as [Hr|Hr].
      * assert (r1 = 0 ∨ r1 = 1 ∨ r1 = 2 ∨ r1 = 3) as Hcases by lia.
        destruct Hcases as [Hc | [Hc | [Hc | Hc]]]; subst r1; by cbn.
      * rewrite Hother by done. cbn. split; [|lia]. split; [done | lia].
    + split; [|lia]. split; [done | lia].
    + split; [|lia]. split; [done | lia].
Qed.

Lemma airflow_current_option_valid_witness :
  ∃ data', batch_remote_control [1; 2; 0; 2] ∅ = Ret data'
           ∧ dict_item AIRFLOW_MODE_TO_SWITCH (airflow_current_option data') = Ret 2.
Proof.
  destruct (proj2 (airflow_current_option_valid ∅ 1 2 0 2))
    as (data' & Hrun & _ & Hposition).
  exists data'. split; [exact Hrun|]. apply Hposition; [reflexivity | lia].
Defined.

(** X13: the bypass select shows "Automatic" while the snapshot has no
    bypass mode (the bypass batch failed); on a snapshot decoded from the
    bypass block it shows the label of register 6100, which is one of the
    select's three options exactly when the register holds 0, 1 or 2. *)
Theorem bypass_current_option_of_registers (data : dict) (r0 r1 r2 : Z) :
  (data !! "bypass_mode" = None → bypass_current_option data = VStr "Automatic")
  ∧ ∃ data' name,
      batch_bypass_mode [r0; r1; r2] data = Ret data'
      ∧ bypass_current_option data' = VStr name
      ∧ (name ∈ BYPASS_MODE_OPTIONS ↔ 0 ≤ r0 ≤ 2)
      ∧ (0 ≤ r0 ≤ 2 → dict_item BYPASS_MODE_REVERSE name = Ret r0).
Proof.
  split.
  - intros Hd. unfold bypass_current_option, data_get. by rewrite Hd.
  - exists (<["bypass_temp_outside" := tenths r2]>
            (<["bypass_temp_dwelling" := tenths r1]>
             (<["bypass_mode_raw" := VInt r0]>
              (<["bypass_mode" := label BYPASS_MODE_MAP r0]> data)))),
      (dict_get BYPASS_MODE_MAP r0 (unknown r0)).
    split; [reflexivity|]. split.
    { unfold bypass_current_option, data_get.
      rewrite !lookup_insert_ne by done. by rewrite lookup_insert_eq. }
    destruct (decide (r0 = 0)) as [->|?];
      [split; [split; [lia | by intros; apply (bool_decide_unpack _)] | done]|].
    destruct (decide (r0 = 1)) as [->|?];
      [split; [split; [lia | by intros; apply (bool_decide_unpack _)] | done]|].
    destruct (decide (r0 = 2)) as [->|?];
      [split; [split; [lia | by intros; apply (bool_decide_unpack _)] | done]|].
    assert (dict_get BYPASS_MODE_MAP r0 (unknown r0) = unknown r0) as ->.
    { unfold dict_get, BYPASS_MODE_MAP. by rewrite !decide_False by done. }
    split; [|lia]. split; [|lia].
    unfold BYPASS_MODE_OPTIONS. rewrite !elem_of_cons, elem_of_nil.
    unfold unknown. intros [Hu | [Hu | [Hu | []]]];
      apply (f_equal String.length) in Hu;
      rewrite !string_length_app in Hu; simpl in Hu; lia.
Qed.

Lemma bypass_current_option_of_registers_witness :
  ∃ data' name,
    batch_bypass_mode [2; 220; 100] ∅ = Ret data'
    ∧ bypass_current_option data' = VStr name
    ∧ dict_item BYPASS_MODE_REVERSE name = Ret 2.
Proof.
  destruct (proj2 (bypass_current_option_of_registers ∅ 2 220 100))
    as (data' & name & Hrun & Hshow & _ & Hcode).
  exists data', name. split; [exact Hrun|]. split; [exact Hshow|].
  apply Hcode. lia.
Defined.

(** ** Connection life cycle *)

Lemma connect_run link c :
  ∃ h, connect link c
       = (Ret (link_outcome (link (dialled c))),
          {| cfg := cfg c; _client := Some h;
             link_up := link_outcome (link (dialled c));
             sent := sent c; dialled := S (dialled c);
             trace := trace c ++ [Dial] |})
       ∧ h = (if decide (_connection_type (cfg c) = CONN_SERIAL) then
                AsyncModbusSerialClient (_serial_port (cfg c)) (_baudrate (cfg c)) 8
                  (_parity (cfg c)) (if decide (_parity (cfg c) ≠ "N") then 1 else 2)
                  RTU 3 2
              else
                AsyncModbusTcpClient (_host (cfg c)) (_port (cfg c))
                  (if decide (_bridge_type (cfg c) = BRIDGE_MBUSD) then SOCKET else RTU)
                  5 2).
Proof.
  eexists. split; [|reflexivity].
  unfold connect, try_except, dial, get_cfg, set_client, emit, mbind, M_mbind,
    M_bind, mret, M_mret, M_ret.
  simpl. case_decide; simpl; destruct (link (dialled c)) as [b|e]; reflexivity.
Qed.

(** X14: [connect] never raises, whatever exception the transport's
    connect raises: it returns true exactly when the transport's connect
    returned true.  It dials once and sends no register request; afterwards
    the client has a handle, so the register primitives no longer raise
    [AttributeError], and [connected] equals what [connect] returned. *)
Theorem connect_never_raises wire link (c : modbus_client) :
  let after := (connect link c).2 in
  (connect link c).1 = Ret (link_outcome (link (dialled c)))
  ∧ (connected after).1 = (connect link c).1
  ∧ trace after = trace c ++ [Dial]
  ∧ sent after = sent c
  ∧ dialled after = S (dialled c)
  ∧ cfg after = cfg c
  ∧ (∀ address count,
       (_read_input_registers wire address count after).1
       = read_outcome (wire (sent c)))
  ∧ (∀ address value,
       (_write_register wire address value after).1
       = write_outcome (wire (sent c))).
Proof.
  intros after. subst after.
  destruct (connect_run link c) as (h & -> & _). cbn [fst snd].
  split_and!; try reflexivity.
  - intros address count. by erewrite _read_input_registers_run.
  - intros address value. by erewrite _write_register_run.
Qed.

(** X15: the handle [connect] builds depends on the configuration alone,
    not on whether the dial succeeds.  It is a serial handle exactly when the
    connection type is "serial" (any other string gives a TCP handle); a
    serial handle frames RTU with 8 data bits and as many stop bits as make
    an 11-bit character (two without parity, one with); a TCP handle frames
    SOCKET exactly when the bridge type is "mbusd" and RTU otherwise. *)
Theorem connect_handle_of_config link (c : modbus_client) :
  ∃ h, _client (connect link c).2 = Some h
       ∧ (is_serial h = true ↔ _connection_type (cfg c) = "serial")
       ∧ (is_serial h = true → serial_frame_bits h = Some 11 ∧ handle_framer h = RTU)
       ∧ (is_serial h = false →
          (handle_framer h = SOCKET ↔ _bridge_type (cfg c) = "mbusd")
          ∧ (handle_framer h = RTU ↔ _bridge_type (cfg c) ≠ "mbusd"))
       ∧ (∀ link', _client (connect link' c).2 = Some h).
Proof.
  destruct (connect_run link c) as (h & Hrun & Hh).
  exists h. rewrite Hrun. cbn [snd _client]. split; [done|].
  assert (∀ link', _client (connect link' c).2 = Some h) as Hany.
  { intros link'. destruct (connect_run link' c) as (h' & -> & Hh').
    cbn [snd _client]. congruence. }
  unfold CONN_SERIAL, BRIDGE_MBUSD in Hh. subst h.
  case_decide as Hs; cbn [is_serial serial_frame_bits handle_framer].
  - split_and!; try done.
    intros _. split; [|done]. repeat case_decide; naive_solver.
  - split_and!; try done.
    intros _. case_decide; split; split; done.
Qed.

Lemma connect_handle_of_config_witness :
  ∃ h, _client (connect (λ _, Raise TimeoutError) (__init__ sample_config)).2 = Some h
       ∧ handle_framer h = RTU.
Proof.
  destruct (connect_handle_of_config (λ _, Raise TimeoutError) (__init__ sample_config))
    as (h & Hh & Hserial & _ & Htcp & _).
  exists h. split; [exact Hh|].
  destruct (is_serial h) eqn:Hs.
  - pose proof (proj1 Hserial eq_refl) as Hbad. discriminate Hbad.
  - by apply (Htcp eq_refl).
Defined.

Lemma close_run c :
  close c = (Ret (), match _client c with
                     | Some _ =>
                         {| cfg := cfg c; _client := _client c; link_up := false;
                            sent := sent c; dialled := dialled c;
                            trace := trace c ++ [Hangup] |}
                     | None => c
                     end).
Proof. by destruct c as [? [h|] ? ? ? ?]. Qed.

(** X16: [close] never raises and drops the link but keeps the handle:
    on a client without a handle it changes nothing; otherwise it hangs up
    once, after which [connected] is false, a register primitive still goes
    to the transport instead of raising [AttributeError], and a later
    [connect] dials again and reports the transport's answer. *)
Theorem close_keeps_handle wire link (c : modbus_client) :
  let after := (close c).2 in
  (close c).1 = Ret ()
  ∧ (connected after).1 = Ret false
  ∧ _client after = _client c
  ∧ requests (trace after) = requests (trace c)
  ∧ (_client c = None → after = c)
  ∧ (∀ h, _client c = Some h →
       trace after = trace c ++ [Hangup]
       ∧ (∀ address count,
            requests (trace (_read_input_registers wire address count after).2)
            = requests (trace c) ++ [ReadInput address count]))
  ∧ (connected (connect link after).2).1 = Ret (link_outcome (link (dialled c))).
Proof.
  intros after. subst after. rewrite close_run. cbn [fst snd].
  split; [done|].
  destruct c as [cf [h|] lu se di tr]; cbn [_client trace dialled].
  - split_and!; try done.
    + rewrite requests_app. cbn. by rewrite app_nil_r.
    + intros h' _. split; [done|]. intros address count.
      erewrite _read_input_registers_run by reflexivity.
      cbn [snd]. rewrite requests_after_op. cbn [trace].
      rewrite requests_app. cbn. by rewrite app_nil_r.
    + match goal with
      | |- context [connect link ?x] =>
          destruct (connect_run link x) as (h' & -> & _)
      end.
      done.
  - split_and!; try done.
    match goal with
    | |- context [connect link ?x] =>
        destruct (connect_run link x) as (h' & -> & _)
    end.
    done.
Qed.

Lemma close_keeps_handle_witness :
  (close (__init__ sample_config)).2 = __init__ sample_config
  ∧ trace (close sample_client).2 = trace sample_client ++ [Hangup].
Proof.
  split.
  - by apply (close_keeps_handle sample_wire (λ _, Ret true) (__init__ sample_config)).
  - by eapply (close_keeps_handle sample_wire (λ _, Ret true) sample_client).
Defined.

(** ** The schedule of a poll *)

Lemma after_ops_effect bs c :
  _client (after_ops bs c) = _client c
  ∧ link_up (after_ops bs c) = link_up c
  ∧ dialled (after_ops bs c) = dialled c
  ∧ sent (after_ops bs c) = (sent c + length bs)%nat
  ∧ requests (trace (after_ops bs c)) = requests (trace c) ++ (b_request <$> bs)
  ∧ slept (trace (after_ops bs c))
    = slept (trace c) + MIN_REQUEST_DELAY * Z.of_nat (length bs).
Proof.
  revert c. induction bs as [|b bs IH]; intros c; cbn [after_ops length fmap list_fmap].
  - rewrite app_nil_r. split_and!; try done; lia.
  - destruct (IH (after_op (b_request b) c)) as (H1 & H2 & H3 & H4 & H5 & H6).
    rewrite H1, H2, H3, H4, H5, H6, requests_after_op, after_op_sent, <- app_assoc.
    split_and!; try done; [lia|].
    assert (∀ t1 t2, slept (t1 ++ t2) = slept t1 + slept t2) as Happ.
    { intros t1 t2. induction t1 as [|[] t1 IH1]; cbn [slept app]; lia. }
    unfold after_op. cbn [trace]. rewrite Happ. cbn. lia.
Qed.

Lemma read_all_data_run wire c h regs0 :
  _client c = Some h →
  batch_returns wire first_batch (sent c) regs0 →
  (∀ i b, optional_batches !! i = Some b → well_formed wire b (S (sent c) + i)) →
  read_all_data wire c
  = (Ret (Some (collect wire all_batches (sent c) ∅)), after_ops all_batches c).
Proof.
  intros Hh [Hw Hlen] Hwf.
  pose proof all_batches_store as Hst. pose proof all_batches_read as Hrd.
  apply Forall_cons_1 in Hst as [Hst0 Hst'].
  apply Forall_cons_1 in Hrd as [Hrd0 Hrd'].
  rewrite read_all_data_poll.
  destruct (Hst0 regs0 Hlen) as [_ Hbody].
  unfold mbind, M_mbind, M_bind, lift.
  erewrite read_batch_run by eassumption.
  rewrite Hw. cbn [read_outcome]. rewrite Hbody.
  erewrite poll_run;
    [ | exact Hst' | exact Hrd' | rewrite after_op_client; exact Hh
      | rewrite after_op_sent; exact Hwf ].
  rewrite after_op_sent, (collect_first wire regs0) by done. reflexivity.
Qed.

Lemma poll_wire_well_formed i b :
  optional_batches !! i = Some b →
  well_formed poll_wire b (S (sent sample_client) + i).
Proof.
  intros Hi.
  do 15 (destruct i as [|i];
         [injection Hi as <-;
          first [left; reflexivity | right; eexists; split; reflexivity]|]).
  discriminate Hi.
Qed.

(** X17: on a client with a handle, a poll whose first batch returns
    its five registers and whose other batches each fail or return as many
    registers as asked issues exactly the sixteen reads of the table, in the
    table's order, each after its own 150 ms delay: sixteen requests and
    2400 ms of delay in all, no dial and no hang-up.  When the first batch
    fails the poll stops after that one request and its 150 ms. *)
Theorem read_all_data_schedule wire (c : modbus_client) h :
  _client c = Some h →
  let after := (read_all_data wire c).2 in
  (∀ regs0,
     batch_returns wire first_batch (sent c) regs0 →
     (∀ i b, optional_batches !! i = Some b → well_formed wire b (S (sent c) + i)) →
     requests (trace after)
     = requests (trace c)
       ++ [ReadInput 4020 5; ReadInput 4030 8; ReadInput 4040 8; ReadInput 4050 2;
           ReadInput 4060 2; ReadInput 4070 3; ReadInput 4080 4; ReadInput 4100 1;
           ReadInput 4113 3; ReadInput 4200 4; ReadInput 4800 2; ReadInput 4010 3;
           ReadHolding 6000 4; ReadHolding 6100 3; ReadHolding 6120 1;
           ReadHolding 8000 4]
     ∧ slept (trace after) = slept (trace c) + 2400
     ∧ sent after = (sent c + 16)%nat
     ∧ dialled after = dialled c ∧ link_up after = link_up c)
  ∧ (batch_fails wire (sent c) →
     requests (trace after) = requests (trace c) ++ [ReadInput 4020 5]
     ∧ slept (trace after) = slept (trace c) + 150
     ∧ sent after = S (sent c)).
Proof.
  intros Hh after. subst after. split.
  - intros regs0 Hret Hwf.
    rewrite (read_all_data_run wire c h regs0) by done. cbn [snd].
    destruct (after_ops_effect all_batches c) as (_ & H2 & H3 & H4 & H5 & H6).
    rewrite H2, H3, H4, H5, H6. done.
  - intros Hfail. unfold batch_fails in Hfail.
    pose proof all_batches_read as Hrd. apply Forall_cons_1 in Hrd as [Hrd0 _].
    rewrite read_all_data_poll. unfold mbind, M_mbind, M_bind.
    erewrite read_batch_run by eassumption. rewrite Hfail. cbn [mret M_mret M_ret snd].
    destruct (after_ops_effect [first_batch] c) as (_ & _ & _ & H4 & H5 & H6).
    cbn [after_ops] in H4, H5, H6. rewrite H4, H5, H6. cbn [length]. by split_and!.
Qed.

Lemma read_all_data_schedule_witness :
  requests (trace (read_all_data poll_wire sample_client).2)
  = requests (trace sample_client)
    ++ [ReadInput 4020 5; ReadInput 4030 8; ReadInput 4040 8; ReadInput 4050 2;
        ReadInput 4060 2; ReadInput 4070 3; ReadInput 4080 4; ReadInput 4100 1;
        ReadInput 4113 3; ReadInput 4200 4; ReadInput 4800 2; ReadInput 4010 3;
        ReadHolding 6000 4; ReadHolding 6100 3; ReadHolding 6120 1;
        ReadHolding 8000 4]
  ∧ requests (trace (read_all_data (λ _, Ret ExceptionResponse) sample_client).2)
    = requests (trace sample_client) ++ [ReadInput 4020 5].
Proof.
  split.
  - apply (proj1 (read_all_data_schedule poll_wire sample_client _ eq_refl)
             [12; 1; 2; 0xFF38; 215]).
    + split; reflexivity.
    + apply poll_wire_well_formed.
  - apply (proj2 (read_all_data_schedule (λ _, Ret ExceptionResponse)
                    sample_client _ eq_refl)).
    reflexivity.
Defined.

(** ** Commands on a client without a handle *)

Lemma accepted_airflow_mode mode :
  if bool_decide (mode ∈ AIRFLOW_MODE_OPTIONS)
  then mode = "wall_unit" ∨ (mode ≠ "wall_unit"
                             ∧ dict_contains AIRFLOW_MODE_TO_SWITCH mode = true)
  else mode ≠ "wall_unit" ∧ dict_contains AIRFLOW_MODE_TO_SWITCH mode = false.
Proof.
  unfold AIRFLOW_MODE_OPTIONS, AIRFLOW_MODE_TO_SWITCH, dict_contains.
  case_bool_decide as Hin.
  - rewrite !elem_of_cons, elem_of_nil in Hin.
    destruct Hin as [->|[->|[->|[->|[->|[]]]]]]; auto.
  - rewrite !not_elem_of_cons in Hin. destruct Hin as (?&?&?&?&?&_).
    split; [done|]. by rewrite !decide_False by done.
Qed.

Lemma accepted_bypass_mode mode :
  dict_contains BYPASS_MODE_REVERSE mode = bool_decide (mode ∈ BYPASS_MODE_OPTIONS).
Proof.
  assert (BYPASS_MODE_REVERSE = [("Automatic", 0); ("Closed", 1); ("Open", 2)])
    as -> by (vm_compute; reflexivity).
  unfold BYPASS_MODE_OPTIONS, dict_contains.
  case_bool_decide as Hin.
  - rewrite !elem_of_cons, elem_of_nil in Hin.
    destruct Hin as [->|[->|[->|[]]]]; auto.
  - rewrite !not_elem_of_cons in Hin. destruct Hin as (?&?&?&_).
    by rewrite !decide_False by done.
Qed.

Lemma dict_contains_item {V} (d : list (string * V)) key :
  dict_contains d key = true → ∃ v, dict_item d key = Ret v.
Proof.
  induction d as [|[k v] d IH]; cbn; [done|]. case_decide; eauto.
Qed.

Lemma no_handle_write wire address value c :
  _client c = None →
  (_write_register wire address value c).1 = Raise AttributeError
  ∧ requests (trace (_write_register wire address value c).2) = requests (trace c)
  ∧ sent (_write_register wire address value c).2 = sent c.
Proof.
  intros Hh. rewrite _write_register_no_handle by done.
  unfold after_op_no_handle. cbn. rewrite requests_app. cbn.
  by rewrite app_nil_r.
Qed.

Lemma no_handle_write_then {A} wire address value (f : bool → M modbus_client A) c :
  _client c = None →
  ((_write_register wire address value ≫= f) c).1 = Raise AttributeError
  ∧ requests (trace ((_write_register wire address value ≫= f) c).2)
    = requests (trace c)
  ∧ sent ((_write_register wire address value ≫= f) c).2 = sent c.
Proof.
  intros Hh. pose proof (no_handle_write wire address value c Hh) as Hw.
  unfold mbind, M_mbind, M_bind.
  by destruct (_write_register wire address value c) as [[ok|e] c'];
    cbn [fst snd] in *; destruct Hw as (Hr & ? & ?); simplify_eq.
Qed.

(** X18: on a client without a handle ([connect] never called), a poll,
    the connection test and every write command whose argument passes the
    command's own validation raise [AttributeError]; a command whose argument
    does not pass (an unknown mode, a threshold that is not finite) changes
    nothing and does not report success.  In every case no request reaches
    the transport. *)
Theorem no_handle_commands_raise wire (cmd : command) (c : modbus_client) :
  _client c = None →
  (read_all_data wire c).1 = Raise AttributeError
  ∧ (test_connection wire c).1 = Raise AttributeError
  ∧ (accepted cmd = true → (run_command wire cmd c).1 = Raise AttributeError)
  ∧ (accepted cmd = false →
     (run_command wire cmd c).2 = c ∧ (run_command wire cmd c).1 ≠ Ret true)
  ∧ requests (trace (read_all_data wire c).2) = requests (trace c)
  ∧ requests (trace (test_connection wire c).2) = requests (trace c)
  ∧ requests (trace (run_command wire cmd c).2) = requests (trace c)
  ∧ sent (run_command wire cmd c).2 = sent c.
Proof.
  intros Hh.
  assert (requests (trace (after_op_no_handle c)) = requests (trace c)) as Hreq.
  { unfold after_op_no_handle. cbn. rewrite requests_app. cbn. by rewrite app_nil_r. }
  split; [|split].
  { unfold read_all_data, mbind, M_mbind, M_bind.
    by rewrite _read_input_registers_no_handle. }
  { unfold test_connection, mbind, M_mbind, M_bind.
    by rewrite _read_input_registers_no_handle. }
  assert (requests (trace (read_all_data wire c).2) = requests (trace c)
          ∧ requests (trace (test_connection wire c).2) = requests (trace c))
    as [Hpoll Htest].
  { unfold read_all_data, test_connection, mbind, M_mbind, M_bind.
    by rewrite !_read_input_registers_no_handle. }
  assert (∀ run : M modbus_client bool,
            accepted cmd = true →
            (run c).1 = Raise AttributeError
            ∧ requests (trace (run c).2) = requests (trace c)
            ∧ sent (run c).2 = sent c →
            (accepted cmd = true → (run c).1 = Raise AttributeError)
            ∧ (accepted cmd = false → (run c).2 = c ∧ (run c).1 ≠ Ret true)
            ∧ requests (trace (read_all_data wire c).2) = requests (trace c)
            ∧ requests (trace (test_connection wire c).2) = requests (trace c)
            ∧ requests (trace (run c).2) = requests (trace c)
            ∧ sent (run c).2 = sent c) as Hraise.
  { intros run Hacc (Hr & Ht & Hs). split_and!; try done.
    intros Hnot. congruence. }
  assert (∀ run : M modbus_client bool,
            accepted cmd = false →
            (∃ r, run c = (r, c) ∧ r ≠ Ret true) →
            (accepted cmd = true → (run c).1 = Raise AttributeError)
            ∧ (accepted cmd = false → (run c).2 = c ∧ (run c).1 ≠ Ret true)
            ∧ requests (trace (read_all_data wire c).2) = requests (trace c)
            ∧ requests (trace (test_connection wire c).2) = requests (trace c)
            ∧ requests (trace (run c).2) = requests (trace c)
            ∧ sent (run c).2 = sent c) as Hkeep.
  { intros run Hacc (r & -> & Hr). split_and!; try done.
    intros Hnot. congruence. }
  destruct cmd as [mode|rate|mode| | |standby|temp|temp]; cbn [run_command].
  - pose proof (accepted_airflow_mode mode) as Hmode.
    destruct (bool_decide (mode ∈ AIRFLOW_MODE_OPTIONS)) eqn:Hacc.
    + apply Hraise; [exact Hacc|]. unfold set_airflow_mode.
      destruct Hmode as [-> | [Hne Hc]].
      * rewrite decide_True by done. by apply no_handle_write.
      * rewrite decide_False by done. rewrite Hc.
        by apply no_handle_write_then.
    + apply Hkeep; [exact Hacc|]. unfold set_airflow_mode.
      destruct Hmode as [Hne Hc]. rewrite decide_False by done. rewrite Hc.
      by exists (Ret false).
  - apply Hraise; [done|]. apply no_handle_write_then, Hh.
  - pose proof (accepted_bypass_mode mode) as Hmode.
    destruct (bool_decide (mode ∈ BYPASS_MODE_OPTIONS)) eqn:Hacc.
    + apply Hraise; [exact Hacc|]. unfold set_bypass_mode. rewrite Hmode.
      cbn [negb]. apply dict_contains_item in Hmode as [code Hcode].
      unfold mbind, M_mbind, M_bind, lift. rewrite Hcode.
      by apply no_handle_write.
    + apply Hkeep; [exact Hacc|]. unfold set_bypass_mode. rewrite Hmode.
      by exists (Ret false).
  - apply Hraise; [done|]. apply no_handle_write, Hh.
  - apply Hraise; [done|]. apply no_handle_write, Hh.
  - apply Hraise; [done|]. apply no_handle_write, Hh.
  - destruct (int_of_float_finite (times10 temp)) as [Hfin Hnan].
    destruct (finite (times10 temp)) eqn:Hacc.
    + apply Hraise; [exact Hacc|].
      unfold set_bypass_temp_dwelling, mbind, M_mbind, M_bind, lift.
      destruct (Hfin eq_refl) as [n ->]. by apply no_handle_write.
    + apply Hkeep; [exact Hacc|].
      unfold set_bypass_temp_dwelling, mbind, M_mbind, M_bind, lift.
      rewrite (Hnan eq_refl). by exists (Raise OtherException).
  - destruct (int_of_float_finite (times10 temp)) as [Hfin Hnan].
    destruct (finite (times10 temp)) eqn:Hacc.
    + apply Hraise; [exact Hacc|].
      unfold set_bypass_temp_outside, mbind, M_mbind, M_bind, lift.
      destruct (Hfin eq_refl) as [n ->]. by apply no_handle_write.
    + apply Hkeep; [exact Hacc|].
      unfold set_bypass_temp_outside, mbind, M_mbind, M_bind, lift.
      rewrite (Hnan eq_refl). by exists (Raise OtherException).
Qed.

Lemma no_handle_commands_raise_witness :
  (run_command sample_wire (SetAirflowMode "high") (__init__ sample_config)).1
  = Raise AttributeError
  ∧ (run_command sample_wire (SetBypassMode "Ajar") (__init__ sample_config)).2
    = __init__ sample_config.
Proof.
  split.
  - by apply (no_handle_commands_raise sample_wire (SetAirflowMode "high")
                (__init__ sample_config) eq_refl).
  - by apply (no_handle_commands_raise sample_wire (SetBypassMode "Ajar")
                (__init__ sample_config) eq_refl).
Defined.

(** ** The coordinator and the connection *)





(** ** The connection test of the config flow *)

Lemma _test_connection_on_run wire link c :
  ∃ h,
    _test_connection_on wire link c
    = (Ret (if link_outcome (link (dialled c)) && answered (wire (sent c))
            then None else Some "cannot_connect"),
       {| cfg := cfg c; _client := Some h; link_up := false;
          sent := (if link_outcome (link (dialled c)) then S (sent c) else sent c);
          dialled := S (dialled c);
          trace := trace c ++ [Dial]
                   ++ (if link_outcome (link (dialled c))
                       then op_events (ReadInput 4020 1) else [])
                   ++ [Hangup] |}).
Proof.
  destruct (connect_run link c) as (h & Hconnect & _). exists h.
  unfold _test_connection_on, try_finally, try_except, mbind, M_mbind, M_bind.
  rewrite Hconnect.
  destruct (link_outcome (link (dialled c))); cbn [negb andb].
  - unfold test_connection, mbind, M_mbind, M_bind.
    erewrite _read_input_registers_run by reflexivity.
    cbn [sent]. unfold read_outcome, answered, after_op.
    destruct (wire (sent c)) as [[regs|]|e]; try destruct (caught e);
      cbn; rewrite <- ?app_assoc; reflexivity.
  - cbn. rewrite <- ?app_assoc. reflexivity.
Qed.

(** X20: the connection test on a client never raises, whatever the
    transport raises: it dials once, reads register 4020 once when the dial
    succeeded and not at all otherwise, and always hangs up last, leaving the
    client disconnected.  Its verdict is success exactly when the dial
    returned true and the transport answered the read with registers. *)
Theorem test_connection_always_closes wire link (c : modbus_client) :
  let test := _test_connection_on wire link c in
  (test.1 = Ret None
   ∨ test.1 = Ret (Some "cannot_connect"))
  ∧ (test.1 = Ret None
     ↔ link (dialled c) = Ret true ∧ ∃ regs, wire (sent c) = Ret (Registers regs))
  ∧ requests (trace test.2)
    = requests (trace c)
      ++ (if link_outcome (link (dialled c)) then [ReadInput 4020 1] else [])
  ∧ (∃ before, trace test.2 = trace c ++ Dial :: before ++ [Hangup]
               ∧ Forall register_event before)
  ∧ (connected test.2).1 = Ret false.
Proof.
  intros test. subst test.
  destruct (_test_connection_on_run wire link c) as (h & ->).
  cbn [fst snd trace]. split_and!.
  - destruct (_ && _); auto.
  - unfold link_outcome, answered.
    destruct (link (dialled c)) as [[|]|e], (wire (sent c)) as [[regs|]|e'];
      cbn [andb]; split; try done; try (intros [[=] _]; done);
      try (intros [_ [? [=]]]; done); eauto.
  - rewrite !requests_app. destruct (link_outcome _); cbn;
      by rewrite ?app_nil_r.
  - exists (if link_outcome (link (dialled c))
            then op_events (ReadInput 4020 1) else []).
    split; [done|]. destruct (link_outcome _); repeat constructor.
  - done.
Qed.

Lemma test_connection_always_closes_witness :
  (_test_connection_on poll_wire (λ _, Ret true) (__init__ sample_config)).1 = Ret None.
Proof.
  apply (test_connection_always_closes poll_wire (λ _, Ret true)
           (__init__ sample_config)).
  split; [reflexivity|]. by eexists.
Defined.

(** X21: [_test_connection] raises [KeyError] when the input lacks the
    connection type or the slave id, before any client is built; otherwise it
    returns a verdict and never raises: success exactly when the first dial
    of the new client returns true and its first request is answered with
    registers, "cannot_connect" in every other case. *)
Theorem test_connection_verdict wire link (ui : user_input) :
  (CONF_CONNECTION_TYPE ui = None ∨ CONF_SLAVE_ID ui = None →
   _test_connection wire link ui = Raise KeyError)
  ∧ (is_Some (CONF_CONNECTION_TYPE ui) → is_Some (CONF_SLAVE_ID ui) →
     _test_connection wire link ui
     = Ret (if link_outcome (link 0%nat) && answered (wire 0%nat)
            then None else Some "cannot_connect")).
Proof.
  unfold _test_connection, input_client, input_item.
  destruct (CONF_CONNECTION_TYPE ui) as [ct|], (CONF_SLAVE_ID ui) as [sid|];
    cbn [mbind result_mbind result_bind mret result_mret]; split;
    try (intros [[=] | [=]]; done); try (intros [? [=]]; done);
    try (intros _ [? [=]]; done); try done.
  intros _ _.
  match goal with
  | |- (_test_connection_on wire link ?c).1 = _ =>
      by destruct (_test_connection_on_run wire link c) as (h & ->)
  end.
Qed.

Lemma test_connection_verdict_witness :
  _test_connection poll_wire (λ _, Ret true) sample_input = Ret None.
Proof.
  apply (proj2 (test_connection_verdict poll_wire (λ _, Ret true) sample_input));
    by eexists.
Defined.

(** ** Sensors *)

Lemma find_batch_Some bs k i j b :
  find_batch bs k i = Some (j, b) →
  ∃ n, j = (i + n)%nat ∧ bs !! n = Some b ∧ k ∈ b_keys b.
Proof.
  revert i. induction bs as [|b' bs IH]; intros i; cbn [find_batch]; [done|].
  case_bool_decide as Hk.
  - intros [= <- <-]. exists 0%nat. split; [lia|]. by split.
  - intros (n & -> & Hn & Hin)%IH. exists (S n). split; [lia|]. by split.
Qed.

Lemma sensor_keys_in_table :
  Forall (λ desc, is_Some (find_batch all_batches (data_key desc) 0))
    SENSOR_DESCRIPTIONS.
Proof. repeat (apply Forall_cons_2; [by eexists|]). apply Forall_nil_2. Qed.

Lemma sensor_setup_spec data desc :
  desc ∈ sensor_setup data
  ↔ desc ∈ SENSOR_DESCRIPTIONS ∧ is_Some (data !! data_key desc).
Proof.
  unfold sensor_setup. rewrite !list_elem_of_In, filter_In.
  by rewrite bool_decide_eq_true.
Qed.

(** X22: every sensor description reads a field that some batch of the
    poll table stores.  On the snapshot of a poll whose first batch returned
    and whose other batches each failed or returned as many registers as
    asked, the sensor set-up creates the sensor of a description exactly when
    the batch holding its field returned; a sensor it does not create would
    have had no value. *)
Theorem sensors_follow_batches wire (c : modbus_client) h (regs0 : list Z) :
  _client c = Some h →
  batch_returns wire first_batch (sent c) regs0 →
  (∀ i b, optional_batches !! i = Some b → well_formed wire b (S (sent c) + i)) →
  ∃ data,
    (read_all_data wire c).1 = Ret (Some data)
    ∧ ∀ desc, desc ∈ SENSOR_DESCRIPTIONS →
        ∃ i b, all_batches !! i = Some b
               ∧ data_key desc ∈ b_keys b
               ∧ (desc ∈ sensor_setup data
                  ↔ ∃ regs, batch_returns wire b (sent c + i) regs)
               ∧ (desc ∉ sensor_setup data → sensor_native_value desc data = VNone).
Proof.
  intros Hh Hret Hwf.
  exists (collect wire all_batches (sent c) ∅).
  rewrite (read_all_data_run wire c h regs0) by done. split; [done|].
  intros desc Hdesc.
  pose proof (proj1 (Forall_forall _ _) sensor_keys_in_table desc Hdesc)
    as [[i b] Hfind].
  apply find_batch_Some in Hfind as (n & -> & Hn & Hk). cbn [Nat.add].
  exists n, b. split; [done|]. split; [done|].
  pose proof all_batches_store as Hst.
  pose proof all_batches_keys_NoDup as Hnd.
  pose proof (all_batches_well_formed wire _ _ Hret Hwf) as Hwf_all.
  assert (is_Some (collect wire all_batches (sent c) ∅ !! data_key desc)
          ↔ ∃ regs, batch_returns wire b (sent c + n) regs) as Hiff.
  { split.
    - intros Hsome. destruct (Hwf_all n b Hn) as [Hfail | Hok]; [|done].
      rewrite (collect_absent wire all_batches (sent c) ∅ n b (data_key desc)
                 Hst Hwf_all Hnd Hn Hfail Hk (lookup_empty _)) in Hsome.
      by destruct Hsome.
    - intros [regs Hregs].
      rewrite (collect_present wire all_batches (sent c) ∅ n b regs) by done.
      apply (keys_of_fields b regs); [|by destruct Hregs|done].
      exact (Forall_lookup_1 _ _ _ _ Hst Hn). }
  split.
  - rewrite sensor_setup_spec. rewrite <- Hiff. by split; [intros []|].
  - rewrite sensor_setup_spec. intros Hnot.
    unfold sensor_native_value, data_get.
    destruct (collect wire all_batches (sent c) ∅ !! data_key desc) eqn:Hd; [|done].
    destruct Hnot. by split.
Qed.

Lemma sensors_follow_batches_witness :
  ∃ data,
    (read_all_data poll_wire sample_client).1 = Ret (Some data)
    ∧ ∀ desc, desc ∈ SENSOR_DESCRIPTIONS →
        ∃ i b, all_batches !! i = Some b
               ∧ data_key desc ∈ b_keys b
               ∧ (desc ∈ sensor_setup data
                  ↔ ∃ regs, batch_returns poll_wire b (sent sample_client + i) regs)
               ∧ (desc ∉ sensor_setup data → sensor_native_value desc data = VNone).
Proof.
  apply (sensors_follow_batches poll_wire sample_client _ [12; 1; 2; 0xFF38; 215]
           eq_refl).
  - split; reflexivity.
  - apply poll_wire_well_formed.
Defined.

(** ** The gate never blocks for good *)

(** X23: however the scheduler has interleaved the register operations
    of the tasks so far, the gate cannot deadlock: while any task has events
    left, some task can perform its next event, at once or after the clock
    has advanced to the end of that task's delay; and once every task has
    finished the gate is free. *)
Theorem gate_never_deadlocks t0 programs s :
  rtc step (start t0 programs) s →
  ((∃ t tk, tasks s !! t = Some tk ∧ todo tk ≠ []) →
   ∃ d t tk e rest,
     0 ≤ d ∧ tasks s !! t = Some tk ∧ todo tk = e :: rest
     ∧ enabled (tick d s) tk e
     ∧ step (tick d s) (fire t e rest (wake_at tk) (tick d s)))
  ∧ ((∀ t tk, tasks s !! t = Some tk → todo tk = []) → lock s = None).
Proof.
  intros Hreach.
  destruct (loop_reachable_inv t0 programs s Hreach)
    as (g & Hrun & Hlock & Hholder & Hothers).
  assert (∀ d t tk e rest,
            0 ≤ d → tasks s !! t = Some tk → todo tk = e :: rest →
            enabled (tick d s) tk e →
            ∃ d t tk e rest,
              0 ≤ d ∧ tasks s !! t = Some tk ∧ todo tk = e :: rest
              ∧ enabled (tick d s) tk e
              ∧ step (tick d s) (fire t e rest (wake_at tk) (tick d s))) as Hgo.
  { intros d t tk e rest Hd Htk Htodo Hen. exists d, t, tk, e, rest.
    split_and!; try done. by apply step_task. }
  split.
  - intros (t & tk & Htk & Htodo).
    destruct (holder g) as [t'|] eqn:Hg.
    + destruct (Hholder t' eq_refl) as (tk' & Htk' & Hcont).
      destruct g as [|t1|t1 wake|t1]; cbn [holder continues] in *; [done|..].
      * destruct Hcont as (tail & ops & _ & Hnext).
        by apply (Hgo 0 t' tk' _ _ ltac:(lia) Htk' Hnext).
      * destruct Hcont as (Hwake & tail & ops & [-> | [r ->]] & Hnext).
        -- by apply (Hgo 0 t' tk' _ _ ltac:(lia) Htk' Hnext).
        -- apply (Hgo (Z.max 0 (wake - now s)) t' tk' _ _ ltac:(lia) Htk' Hnext).
           cbn. lia.
      * destruct Hcont as (ops & Hnext).
        by apply (Hgo 0 t' tk' _ _ ltac:(lia) Htk' Hnext).
    + destruct (Hothers t tk Htk) as [ops Hops]; [done|].
      destruct (todo tk) as [|e rest] eqn:Hnext; [done|].
      symmetry in Hops. apply program_starts in Hops as [-> _].
      apply (Hgo 0 t tk _ _ ltac:(lia) Htk Hnext). cbn. by rewrite Hlock.
  - intros Hdone. rewrite Hlock.
    destruct (holder g) as [t|] eqn:Hg; [|done].
    destruct (Hholder t eq_refl) as (tk & Htk & Hcont).
    specialize (Hdone t tk Htk).
    destruct g as [|t1|t1 wake|t1]; cbn [holder continues] in *; [done|..].
    + destruct Hcont as (tail & ops & _ & Hnext). congruence.
    + destruct Hcont as (_ & tail & ops & [-> | [r ->]] & Hnext);
        rewrite Hdone in Hnext; done.
    + destruct Hcont as (ops & Hnext). congruence.
Qed.

Lemma gate_never_deadlocks_witness :
  ∃ d t tk e rest,
    0 ≤ d ∧ tasks (start 0 two_tasks) !! t = Some tk ∧ todo tk = e :: rest
    ∧ enabled (tick d (start 0 two_tasks)) tk e
    ∧ step (tick d (start 0 two_tasks))
        (fire t e rest (wake_at tk) (tick d (start 0 two_tasks))).
Proof.
  apply (proj1 (gate_never_deadlocks 0 two_tasks (start 0 two_tasks) (rtc_refl _ _))).
  exists 0%nat. eexists. split; [reflexivity|]. done.
Defined.
